(** * A shallow embedding of the CSP solver of [csp/assignment5.py]

    The Python class [CSP] holds the variables, their domains and the
    constraint tables; [backtracking_search] runs AC-3 ([inference],
    [revise]) and a recursive [backtrack] over assignment dictionaries.

    Modelling choices, all read off the source:
    - variable names and values are Python strings ([string]);
    - a Python [dict] is an insertion-ordered association list with unique
      keys ([PyDict]): the order of [get_all_arcs] and the tie-break of
      [select_unassigned_variable] depend on it;
    - the value stored under a key of an assignment is either a list of
      values or, after [new_assignment[var] = value], a bare [str]
      ([dom]); iterating a [str] yields its one-character substrings;
    - assignment dictionaries are mutable objects that are passed by
      reference: they live in a store ([objs]) and are named by their
      address; [copy.deepcopy] allocates a new object.  The lists held by
      a dictionary are never mutated in place by the source ([revise]
      edits a private copy [cp] and then rebinds the key), so they are
      stored by value;
    - the two counters of [self] are only written by [backtrack]; they
      travel in the store, next to the dictionaries, and the rest of
      [self] is read-only during the search;
    - Python exceptions are the [Raise] outcome; the [while] loop of
      [inference] and the recursion of [backtrack] take fuel, and
      running out of it is the separate outcome [OutOfFuel]. *)

From Stdlib Require Import String Ascii List Bool Arith PeanoNat Lia.
Import ListNotations.
Open Scope string_scope.
Open Scope list_scope.

(** Variable names and values are strings; an arc is a pair of names. *)
Abbreviation var := string.
Abbreviation value := string.
Abbreviation arc := (var * var)%type.
Abbreviation value_pair := (value * value)%type.

(** ** Python dictionaries with string keys *)

Module PyDict.
Section Dict.
Context {V : Type}.

(** [d[k]] ([None] stands for [KeyError]). *)
Fixpoint get (d : list (string * V)) (k : string) : option V :=
  match d with
  | [] => None
  | (k', v) :: d' => if String.eqb k k' then Some v else get d' k
  end.

(** [d[k] = v]: rebinds an existing key in place, appends a new one. *)
Fixpoint set (d : list (string * V)) (k : string) (v : V) : list (string * V) :=
  match d with
  | [] => [(k, v)]
  | (k', v') :: d' =>
      if String.eqb k k' then (k, v) :: d' else (k', v') :: set d' k v
  end.

(** [del d[k]] *)
Fixpoint del (d : list (string * V)) (k : string) : list (string * V) :=
  match d with
  | [] => []
  | (k', v') :: d' => if String.eqb k k' then d' else (k', v') :: del d' k
  end.

Definition keys (d : list (string * V)) : list string := map fst d.
Definition values (d : list (string * V)) : list V := map snd d.

(** [k in d] *)
Definition mem (k : string) (d : list (string * V)) : bool :=
  match get d k with Some _ => true | None => false end.
End Dict.
End PyDict.

(** ** Domains as they occur in an assignment *)

Inductive dom : Type :=
| PyList (l : list value)      (* a list of candidate values *)
| PyStr (s : string).          (* a bare string, bound by [backtrack] *)

(** [list(x)] for a string [x]: its one-character substrings. *)
Fixpoint chars (x : string) : list string :=
  match x with
  | EmptyString => []
  | String c x' => String c EmptyString :: chars x'
  end.

(** The values produced by iterating over a domain. *)
Definition elems (d : dom) : list value :=
  match d with
  | PyList l => l
  | PyStr s => chars s
  end.

(** [len(d)] *)
Definition len (d : dom) : nat := length (elems d).

(** ** Exceptions and the store monad *)

Inductive exn : Type :=
| KeyError (k : string)
| KeyErrorMinusOne                 (* [assignment[-1]] *)
| AttributeError (attr : string)   (* ['str' object has no attribute ...] *)
| ValueError                       (* [list.remove(x): x not in list] *)
| IndexError.                      (* [board[row][col]] out of range *)

Inductive outcome (A : Type) : Type :=
| Ret (a : A)
| Raise (e : exn)
| OutOfFuel.
Arguments Ret {A} a.
Arguments Raise {A} e.
Arguments OutOfFuel {A}.

Definition loc := nat.
Definition assignment_obj := list (string * dom).

Record store : Type := mkStore {
  objs : list assignment_obj;           (* the assignment dictionaries *)
  number_of_backtracks : nat;           (* the two counters of [self] *)
  number_of_backtracks_failed : nat
}.

Definition with_objs (s : store) (o : list assignment_obj) : store :=
  mkStore o (number_of_backtracks s) (number_of_backtracks_failed s).

Definition M (A : Type) : Type := store -> outcome A * store.

Definition ret {A} (a : A) : M A := fun s => (Ret a, s).
Definition raise {A} (e : exn) : M A := fun s => (Raise e, s).
Definition out_of_fuel {A} : M A := fun s => (OutOfFuel, s).

Definition bind {A B} (m : M A) (k : A -> M B) : M B :=
  fun s =>
    match m s with
    | (Ret a, s') => k a s'
    | (Raise e, s') => (Raise e, s')
    | (OutOfFuel, s') => (OutOfFuel, s')
    end.

Declare Scope py_scope.
Delimit Scope py_scope with py.
Notation "x <- m ;; k" := (bind m (fun x => k))
  (at level 100, m at next level, right associativity) : py_scope.
Notation "m ;;; k" := (bind m (fun _ => k))
  (at level 100, right associativity) : py_scope.
Open Scope py_scope.

(** Replace the object at address [a]. *)
Fixpoint update {A} (l : list A) (a : nat) (x : A) : list A :=
  match l, a with
  | [], _ => []
  | _ :: l', O => x :: l'
  | y :: l', S a' => y :: update l' a' x
  end.

(** Read the dictionary an address refers to.  Addresses are only ever
    obtained from [new_dict], so the failure branch is never taken by the
    program; it is an exception to keep the function total. *)
Definition deref (a : loc) : M assignment_obj :=
  fun s =>
    match nth_error (objs s) a with
    | Some d => (Ret d, s)
    | None => (Raise (KeyError "<dangling>"), s)
    end.

Definition assign (a : loc) (d : assignment_obj) : M unit :=
  fun s => (Ret tt, with_objs s (update (objs s) a d)).

(** Allocate a new dictionary object. *)
Definition new_dict (d : assignment_obj) : M loc :=
  fun s => (Ret (length (objs s)), with_objs s (objs s ++ [d])).

(** [assignment[k]] *)
Definition getitem (a : loc) (k : string) : M dom :=
  d <- deref a ;;
  match PyDict.get d k with
  | Some v => ret v
  | None => raise (KeyError k)
  end.

(** [assignment[k] = v] *)
Definition setitem (a : loc) (k : string) (v : dom) : M unit :=
  d <- deref a ;;
  assign a (PyDict.set d k v).

(** [del assignment[k]] *)
Definition delitem (a : loc) (k : string) : M unit :=
  d <- deref a ;;
  assign a (PyDict.del d k).

(** [copy.deepcopy(assignment)] *)
Definition deepcopy (a : loc) : M loc :=
  d <- deref a ;;
  new_dict d.

Definition lift_opt {A} (e : exn) (o : option A) : M A :=
  match o with
  | Some x => ret x
  | None => raise e
  end.

(** ** The class [CSP] *)

Record CSP : Type := mkCSP {
  variables : list var;
  domains : list (var * list value);
  constraints : list (var * list (var * list value_pair))
}.

(** [CSP.__init__] (the two counters start in the store at [0]). *)
Definition CSP_init : CSP := mkCSP [] [] [].

Definition init_store : store := mkStore [] 0 0.

(** [add_variable] *)
Definition add_variable (self : CSP) (name : var) (domain : list value) : CSP :=
  mkCSP (variables self ++ [name])
        (PyDict.set (domains self) name domain)
        (PyDict.set (constraints self) name []).

(** [get_all_possible_pairs]: [itertools.product(a, b)] *)
Definition get_all_possible_pairs {A B} (a : list A) (b : list B) : list (A * B) :=
  flat_map (fun x => map (fun y => (x, y)) b) a.

(** [get_all_arcs] *)
Definition get_all_arcs (self : CSP) : list arc :=
  flat_map (fun e => map (fun f => (fst e, fst f)) (snd e)) (constraints self).

(** [get_all_neighboring_arcs] ([None] stands for [KeyError]) *)
Definition get_all_neighboring_arcs (self : CSP) (v : var) : option (list arc) :=
  match PyDict.get (constraints self) v with
  | Some c => Some (map (fun e => (fst e, v)) c)
  | None => None
  end.

(** [add_constraint_one_way] *)
Definition add_constraint_one_way (self : CSP) (i j : var)
    (filter_function : value -> value -> bool) : exn + CSP :=
  match PyDict.get (constraints self) i with
  | None => inl (KeyError i)
  | Some ci =>
      let table :=
        match PyDict.get ci j with
        | Some t => inr t
        | None =>
            match PyDict.get (domains self) i with
            | None => inl (KeyError i)
            | Some di =>
                match PyDict.get (domains self) j with
                | None => inl (KeyError j)
                | Some dj => inr (get_all_possible_pairs di dj)
                end
            end
        end in
      match table with
      | inl e => inl e
      | inr t =>
          let t' := filter (fun value_pair =>
                              filter_function (fst value_pair) (snd value_pair)) t in
          inr (mkCSP (variables self) (domains self)
                     (PyDict.set (constraints self) i (PyDict.set ci j t')))
      end
  end.

(** [add_all_different_constraint] *)
Definition add_all_different_constraint (self : CSP) (vs : list var) : exn + CSP :=
  fold_left
    (fun acc ij =>
       match acc with
       | inl e => inl e
       | inr csp =>
           if String.eqb (fst ij) (snd ij) then inr csp
           else add_constraint_one_way csp (fst ij) (snd ij)
                  (fun x y => negb (String.eqb x y))
       end)
    (get_all_possible_pairs vs vs) (inr self).

(** ** The propagator: [revise] and [inference] (AC-3) *)

Definition pair_eqb (p q : value_pair) : bool :=
  String.eqb (fst p) (fst q) && String.eqb (snd p) (snd q).

(** [v in arcs] *)
Definition pair_mem (v : value_pair) (arcs : list value_pair) : bool :=
  existsb (pair_eqb v) arcs.

(** [l.remove(x)]: drops the first occurrence, [None] is [ValueError]. *)
Fixpoint list_remove (x : value) (l : list value) : option (list value) :=
  match l with
  | [] => None
  | y :: l' =>
      if String.eqb x y then Some l'
      else match list_remove x l' with
           | Some r => Some (y :: r)
           | None => None
           end
  end.

(** [cp.remove(x)] on the private copy [cp] *)
Definition dom_remove (x : value) (cp : dom) : M dom :=
  match cp with
  | PyList l =>
      match list_remove x l with
      | Some l' => ret (PyList l')
      | None => raise ValueError
      end
  | PyStr _ => raise (AttributeError "remove")
  end.

(** [self.constraints[xi][xj]] *)
Definition constraint_table (self : CSP) (xi xj : var) : M (list value_pair) :=
  ci <- lift_opt (KeyError xi) (PyDict.get (constraints self) xi) ;;
  lift_opt (KeyError xj) (PyDict.get ci xj).

(** The body of the [for x in assignment[xi]] loop of [revise]; the loop
    state is [(revised, cp)]. *)
Fixpoint revise_loop (self : CSP) (assignment : loc) (xi xj : var)
    (xs : list value) (revised : bool) (cp : dom) : M (bool * dom) :=
  match xs with
  | [] => ret (revised, cp)
  | x :: xs' =>
      dj <- getitem assignment xj ;;
      let arcs := get_all_possible_pairs (chars x) (elems dj) in
      table <- constraint_table self xi xj ;;
      let m := filter (fun v => pair_mem v arcs) table in
      if (length m =? 0)%nat then
        cp' <- dom_remove x cp ;;
        revise_loop self assignment xi xj xs' true cp'
      else
        revise_loop self assignment xi xj xs' revised cp
  end.

(** [revise] *)
Definition revise (self : CSP) (assignment : loc) (xi xj : var) : M bool :=
  di <- getitem assignment xi ;;
  let cp := di in
  r <- revise_loop self assignment xi xj (elems di) false cp ;;
  setitem assignment xi (snd r) ;;;
  ret (fst r).

(** The arcs appended to the queue after a successful revision of
    [(xi, xj)]. *)
Definition requeue (neighboring : list arc) (xi xj : var) : list arc :=
  map (fun a => (fst a, xi))
      (filter (fun a => negb (String.eqb (fst a) xi) && negb (String.eqb (fst a) xj))
              neighboring).

(** [inference]: one unit of fuel per iteration of [while queue]. *)
Fixpoint inference (fuel : nat) (self : CSP) (assignment : loc)
    (queue : list arc) {struct fuel} : M bool :=
  match fuel with
  | O => out_of_fuel
  | S fuel' =>
      match queue with
      | [] => ret true
      | (xi, xj) :: queue' =>
          revised <- revise self assignment xi xj ;;
          if revised then
            di <- getitem assignment xi ;;
            if (len di =? 0)%nat then ret false
            else
              neighboring <- lift_opt (KeyError xi) (get_all_neighboring_arcs self xi) ;;
              inference fuel' self assignment (queue' ++ requeue neighboring xi xj)
          else inference fuel' self assignment queue'
      end
  end.

(** ** The search: [select_unassigned_variable], [backtrack],
    [backtracking_search] *)

(** The loop state is [(select_key, _min)]; [None] stands for [-1] and
    for [float("inf")]. *)
Definition select_step (st : option var * option nat) (item : var * dom)
    : option var * option nat :=
  let n := len (snd item) in
  if (1 <? n)%nat && (match snd st with Some m => (n <? m)%nat | None => true end)
  then (Some (fst item), Some n)
  else st.

Definition select_unassigned_variable (assignment : loc) : M (option var) :=
  d <- deref assignment ;;
  ret (fst (fold_left select_step d (None, None))).

(** The completeness test at the head of [backtrack]. *)
Definition complete (d : assignment_obj) : bool :=
  forallb (fun v => negb (1 <? len v)%nat) (PyDict.values d).

(** Truth value of what [backtrack] returns: [False], or a dictionary,
    which is true when it is not empty. *)
Definition truthy (result : option loc) : M bool :=
  match result with
  | None => ret false
  | Some a => d <- deref a ;; ret (negb (length d =? 0)%nat)
  end.

Definition incr_backtracks : M unit :=
  fun s => (Ret tt, mkStore (objs s) (S (number_of_backtracks s))
                            (number_of_backtracks_failed s)).

Definition incr_backtracks_failed : M unit :=
  fun s => (Ret tt, mkStore (objs s) (number_of_backtracks s)
                            (S (number_of_backtracks_failed s))).

(** One iteration of [for value in assignment[var]]: the result [Some r]
    is the early [return result], [None] falls through to the next
    value.  [rec] is the recursive call. *)
Definition try_value (rec : loc -> M (option loc)) (fuel : nat) (self : CSP)
    (assignment : loc) (v : var) (val : value) : M (option loc) :=
  new_assignment <- deepcopy assignment ;;
  setitem new_assignment v (PyStr val) ;;;
  ok <- inference fuel self new_assignment (get_all_arcs self) ;;
  found <-
    (if ok then
       result <- rec new_assignment ;;
       t <- truthy result ;;
       ret (if t then result else None)
     else ret None) ;;
  match found with
  | Some r => ret (Some r)
  | None =>
      na <- deref new_assignment ;;
      (if PyDict.mem v na then delitem new_assignment v else ret tt) ;;;
      ret None
  end.

(** A [for] loop whose body may return early. *)
Fixpoint for_values (body : value -> M (option loc)) (vals : list value)
    : M (option loc) :=
  match vals with
  | [] => ret None
  | val :: vals' =>
      found <- body val ;;
      match found with
      | Some r => ret (Some r)
      | None => for_values body vals'
      end
  end.

(** [backtrack]; the result [None] is Python's [False].  Fuel bounds the
    recursion depth and is handed to [inference] as well. *)
Fixpoint backtrack (fuel : nat) (self : CSP) (assignment : loc)
    {struct fuel} : M (option loc) :=
  match fuel with
  | O => out_of_fuel
  | S fuel' =>
      d <- deref assignment ;;
      if complete d then ret (Some assignment)
      else
        incr_backtracks ;;;
        sel <- select_unassigned_variable assignment ;;
        match sel with
        | None => raise KeyErrorMinusOne
        | Some v =>
            dv <- getitem assignment v ;;
            found <- for_values
                       (try_value (backtrack fuel' self) fuel' self assignment v)
                       (elems dv) ;;
            match found with
            | Some r => ret (Some r)
            | None => incr_backtracks_failed ;;; ret None
            end
        end
  end.

(** [copy.deepcopy(self.domains)] *)
Definition domains_copy (self : CSP) : assignment_obj :=
  map (fun e => (fst e, PyList (snd e))) (domains self).

(** [backtracking_search] *)
Definition backtracking_search (fuel : nat) (self : CSP) : M (option loc) :=
  assignment <- new_dict (domains_copy self) ;;
  inference fuel self assignment (get_all_arcs self) ;;;
  backtrack fuel self assignment.

(** What the caller sees: the dictionary returned, if any. *)
Definition solution_of (r : outcome (option loc) * store)
    : outcome (option assignment_obj) :=
  match fst r with
  | Ret (Some a) =>
      match nth_error (objs (snd r)) a with
      | Some d => Ret (Some d)
      | None => Raise (KeyError "<dangling>")
      end
  | Ret None => Ret None
  | Raise e => Raise e
  | OutOfFuel => OutOfFuel
  end.

Definition solve (fuel : nat) (self : CSP) : outcome (option assignment_obj) :=
  solution_of (backtracking_search fuel self init_store).

(** ** Notions used to state the properties *)

(** The stored allowed-pair table of the ordered pair [(i, j)]. *)
Definition table (self : CSP) (i j : var) : option (list value_pair) :=
  match PyDict.get (constraints self) i with
  | Some ci => PyDict.get ci j
  | None => None
  end.

(** The test [len(m) != 0] of [revise] for the value [x] of [xi], read in
    the dictionary [d]: some stored pair of [(xi, xj)] is among
    [product(list(x), d[xj])]. *)
Definition supported (self : CSP) (d : assignment_obj) (xi xj : var)
    (x : value) : bool :=
  match PyDict.get d xj, table self xi xj with
  | Some dj, Some t =>
      negb (length (filter (fun v => pair_mem v
                              (get_all_possible_pairs (chars x) (elems dj))) t)
            =? 0)%nat
  | _, _ => false
  end.

(** What the claim of the specification asks of a value [v] of [i]: some
    [w] of [d[j]] with [(v, w)] in the stored table of [(i, j)]. *)
Definition has_support (self : CSP) (d : assignment_obj) (i j : var)
    (v : value) : Prop :=
  exists dj t w,
    PyDict.get d j = Some dj /\ table self i j = Some t /\
    In w (elems dj) /\ In (v, w) t.

Definition dom_filter (f : value -> bool) (d : dom) : dom :=
  match d with
  | PyList l => PyList (filter f l)
  | PyStr s => PyStr s
  end.

(** [l1] is [l2] with some elements dropped, order kept. *)
Inductive Subseq {A : Type} : list A -> list A -> Prop :=
| Subseq_nil : Subseq [] []
| Subseq_keep x l1 l2 : Subseq l1 l2 -> Subseq (x :: l1) (x :: l2)
| Subseq_drop x l1 l2 : Subseq l1 l2 -> Subseq l1 (x :: l2).

(** Same keys in the same order, every domain a subsequence of the old
    one. *)
Definition shrinks (d' d : assignment_obj) : Prop :=
  Forall2 (fun e' e => fst e' = fst e /\ Subseq (elems (snd e')) (elems (snd e)))
          d' d.

(** Every arc of the model is consistent in [d]. *)
Definition arc_consistent (self : CSP) (d : assignment_obj) : Prop :=
  forall i j t di v,
    table self i j = Some t -> PyDict.get d i = Some di -> In v (elems di) ->
    has_support self d i j v.

(** All values of the list domains are one-character strings. *)
Definition single_chars (d : assignment_obj) : bool :=
  forallb (fun e => forallb (fun v => (String.length v =? 1)%nat) (elems (snd e))) d.

Definition is_some {A} (o : option A) : bool :=
  match o with Some _ => true | None => false end.

Definition is_list (d : dom) : bool :=
  match d with PyList _ => true | PyStr _ => false end.

(** The constraints are two-way: with the table of [(i, j)] the model
    stores the table of [(j, i)], and it holds the same pairs swapped;
    no variable is constrained against itself; both ends are registered. *)
Definition mirrored_arc (self : CSP) (i j : var) : bool :=
  match table self i j, table self j i with
  | Some tij, Some tji =>
      forallb (fun p => pair_mem (snd p, fst p) tji) tij &&
      forallb (fun p => pair_mem (snd p, fst p) tij) tji
  | _, _ => false
  end.

Definition two_way (self : CSP) : bool :=
  forallb (fun e =>
     forallb (fun f =>
        negb (String.eqb (fst e) (fst f)) &&
        mirrored_arc self (fst e) (fst f) &&
        PyDict.mem (fst e) (domains self) &&
        PyDict.mem (fst f) (domains self))
       (snd e))
    (constraints self).

(** The measure of the [while] loop of [inference]. *)
Definition total (d : assignment_obj) : nat :=
  list_sum (map (fun e => len (snd e)) d).

Definition max_degree (self : CSP) : nat :=
  list_max (map (fun e => length (snd e)) (constraints self)).

Definition inference_bound (self : CSP) (d : assignment_obj) (queue : list arc) : nat :=
  S (length queue + total d * max_degree self).

(** The object an address names, the empty dictionary if there is none. *)
Definition obj_at (s : store) (a : loc) : assignment_obj :=
  nth a (objs s) [].

(** [revise] on each arc of a list in turn, the booleans dropped. *)
Fixpoint revise_each (self : CSP) (assignment : loc) (arcs : list arc) : M unit :=
  match arcs with
  | [] => ret tt
  | (xi, xj) :: arcs' =>
      revise self assignment xi xj ;;;
      revise_each self assignment arcs'
  end.

(** [i] is a key of [d] and the code's own test passes for every value
    of [i] against [j]. *)
Definition arc_ok (self : CSP) (d : assignment_obj) (i j : var) : Prop :=
  exists di, PyDict.get d i = Some di /\
    forall v, In v (elems di) -> supported self d i j v = true.

(** Every arc of the model is waiting in the queue or passes the test. *)
Definition queue_invariant (self : CSP) (d : assignment_obj) (q : list arc) : Prop :=
  forall i j t, table self i j = Some t -> In (i, j) q \/ arc_ok self d i j.

Definition all_lists (d : assignment_obj) : bool :=
  forallb (fun e => is_list (snd e)) d.

(** Both ends of every arc of the model are keys of [d]. *)
Definition registered (self : CSP) (d : assignment_obj) : Prop :=
  forall i j t, table self i j = Some t ->
    is_some (PyDict.get d i) = true /\ is_some (PyDict.get d j) = true.

(** The first [n] objects of [s] are the same in [s'], and no object has
    disappeared. *)
Definition keeps (n : nat) (s s' : store) : Prop :=
  (forall b, b < n -> nth_error (objs s') b = nth_error (objs s) b) /\
  length (objs s) <= length (objs s').

(** ** Four sentences of the specification, as they are written *)

(** "After any successful propagate call ... no dead value survives",
    for every assignment and every initial queue. *)
Definition consistent_after_every_success : Prop :=
  forall self fuel a q s s' d',
    inference fuel self a q s = (Ret true, s') ->
    nth_error (objs s') a = Some d' ->
    arc_consistent self d'.

(** "Repeated propagation ... is idempotent": a pass over all arcs right
    after a successful call, whatever its queue was, changes nothing. *)
Definition second_pass_changes_nothing : Prop :=
  forall self fuel a q s s' fuel',
    inference fuel self a q s = (Ret true, s') ->
    objs (snd (inference fuel' self a (get_all_arcs self) s')) = objs s'.

(** "If a variable's domain is empty ... empty propagation fails
    immediately" and the problem is reported unsatisfiable. *)
Definition empty_domain_reported_unsatisfiable : Prop :=
  forall self E,
    PyDict.get (domains self) E = Some [] ->
    exists fuel,
      fst (inference fuel self 0 (get_all_arcs self)
             (snd (new_dict (domains_copy self) init_store))) = Ret false /\
      solve fuel self = Ret None.

(** "[add_variable] fails ... if name already registered ... does not
    corrupt the model": the model is as it was. *)
Definition duplicate_variable_rejected : Prop :=
  forall self name domain,
    PyDict.mem name (domains self) = true ->
    add_variable self name domain = self.

(** ** The problem builders of the source and small models *)

Definition force (r : exn + CSP) : CSP :=
  match r with inr c => c | inl _ => CSP_init end.

(** [lambda i, j: i != j] *)
Definition ne (x y : value) : bool := negb (String.eqb x y).

(** The two calls of the body of the inner loop of
    [create_map_coloring_csp]. *)
Definition add_two_way (self : exn + CSP) (i j : var) : exn + CSP :=
  match self with
  | inl e => inl e
  | inr c =>
      match add_constraint_one_way c i j ne with
      | inl e => inl e
      | inr c' => add_constraint_one_way c' j i ne
      end
  end.

(** [create_map_coloring_csp] *)
Definition create_map_coloring_csp : exn + CSP :=
  let states := ["WA"; "NT"; "Q"; "NSW"; "V"; "SA"; "T"] in
  let edges := [("SA", ["WA"; "NT"; "Q"; "NSW"; "V"]);
                ("NT", ["WA"; "Q"]); ("NSW", ["Q"; "V"])] in
  let colors := ["red"; "green"; "blue"] in
  let csp := fold_left (fun c state => add_variable c state colors) states CSP_init in
  fold_left
    (fun acc e =>
       fold_left (fun acc' other_state => add_two_way acc' (fst e) other_state)
                 (snd e) acc)
    edges (inr csp).

(** ['%d' % n] for a digit and ['%d-%d' % (row, col)] *)
Definition digit (n : nat) : string := String (ascii_of_nat (48 + n)) EmptyString.
Definition cell (row col : nat) : string :=
  String.append (digit row) (String.append "-" (digit col)).

(** [board[row][col]] ([None] stands for [IndexError]) *)
Definition board_at (board : list string) (row col : nat) : option string :=
  match nth_error board row with
  | Some line =>
      match String.get col line with
      | Some c => Some (String c EmptyString)
      | None => None
      end
  | None => None
  end.

Definition all_different_then (acc : exn + CSP) (cells : list var) : exn + CSP :=
  match acc with
  | inl e => inl e
  | inr c => add_all_different_constraint c cells
  end.

(** [create_sudoku_csp], from the stripped lines of the file. *)
Definition create_sudoku_csp (board : list string) : exn + CSP :=
  let csp :=
    fold_left
      (fun acc rc =>
         match acc with
         | inl e => inl e
         | inr c =>
             match board_at board (fst rc) (snd rc) with
             | None => inl IndexError
             | Some ch =>
                 if String.eqb ch "0"
                 then inr (add_variable c (cell (fst rc) (snd rc)) (map digit (seq 1 9)))
                 else inr (add_variable c (cell (fst rc) (snd rc)) [ch])
             end
         end)
      (get_all_possible_pairs (seq 0 9) (seq 0 9)) (inr CSP_init) in
  let rows :=
    fold_left (fun acc row =>
                 all_different_then acc (map (fun col => cell row col) (seq 0 9)))
              (seq 0 9) csp in
  let cols :=
    fold_left (fun acc col =>
                 all_different_then acc (map (fun row => cell row col) (seq 0 9)))
              (seq 0 9) rows in
  fold_left
    (fun acc b =>
       all_different_then acc
         (map (fun rc => cell (fst rc) (snd rc))
              (get_all_possible_pairs (seq (fst b * 3) 3) (seq (snd b * 3) 3))))
    (get_all_possible_pairs (seq 0 3) (seq 0 3)) cols.

(** A grid with two fixed [5] in its first row, after an open cell. *)
Definition board_two_fives : list string :=
  ["055000000"; "000000000"; "000000000"; "000000000"; "000000000";
   "000000000"; "000000000"; "000000000"; "000000000"].

Definition csp_sudoku_two_fives : CSP := force (create_sudoku_csp board_two_fives).

Definition csp_map_coloring : CSP := force create_map_coloring_csp.

(** [A = ['1']], [B = ['1']], all different. *)
Definition csp_two_fixed : CSP :=
  force (add_all_different_constraint
           (add_variable (add_variable CSP_init "A" ["1"]) "B" ["1"])
           ["A"; "B"]).

(** [A = ['1', '2']], [B = ['1']], all different. *)
Definition csp_ab : CSP :=
  force (add_all_different_constraint
           (add_variable (add_variable CSP_init "A" ["1"; "2"]) "B" ["1"])
           ["A"; "B"]).

(** [A = ['1','2','3']], [B = ['1','2']], [C = ['1','2']], all different. *)
Definition csp_abc : CSP :=
  force (add_all_different_constraint
           (add_variable (add_variable (add_variable CSP_init
              "A" ["1"; "2"; "3"]) "B" ["1"; "2"]) "C" ["1"; "2"])
           ["A"; "B"; "C"]).

(** [V = ['1','2']], [P = ['1']], [Q = ['1']], all different. *)
Definition csp_vpq : CSP :=
  force (add_all_different_constraint
           (add_variable (add_variable (add_variable CSP_init
              "V" ["1"; "2"]) "P" ["1"]) "Q" ["1"])
           ["V"; "P"; "Q"]).

(** One variable with an empty domain and no constraint. *)
Definition csp_empty_alone : CSP := add_variable CSP_init "E" [].

(** [E = []], [F = ['1', '2']], all different. *)
Definition csp_empty_constrained : CSP :=
  force (add_all_different_constraint
           (add_variable (add_variable CSP_init "E" []) "F" ["1"; "2"])
           ["E"; "F"]).

(** [I = ['1','3']], [J = ['pq','1']], all different: a value of more
    than one character. *)
Definition csp_long_value : CSP :=
  force (add_all_different_constraint
           (add_variable (add_variable CSP_init "I" ["1"; "3"]) "J" ["pq"; "1"])
           ["I"; "J"]).

(** [A = ['1']], [B = ['1','2']], with [A == B] stored for [(A, B)] and
    [B != A] stored for [(B, A)]: the two tables are not mirror images. *)
Definition csp_not_mirrored : CSP :=
  force (match add_constraint_one_way
                 (add_variable (add_variable CSP_init "A" ["1"]) "B" ["1"; "2"])
                 "A" "B" String.eqb with
         | inl e => inl e
         | inr c => add_constraint_one_way c "B" "A" ne
         end).

(** [X = ['1','2']], [Y = ['1']], with [X != X] stored for [(X, X)]
    before the all-different constraint of [X] and [Y]. *)
Definition csp_self : CSP :=
  force (match add_constraint_one_way
                 (add_variable (add_variable CSP_init "X" ["1"; "2"]) "Y" ["1"])
                 "X" "X" ne with
         | inl e => inl e
         | inr c => add_all_different_constraint c ["X"; "Y"]
         end).

(** The store in which [backtracking_search] starts its propagation. *)
Definition root_store (self : CSP) : store :=
  snd (new_dict (domains_copy self) init_store).

(** ** Notions for the properties of the rest of the code *)

(** [n < _min], where [None] stands for [float("inf")]. *)
Definition below (n : nat) (m : option nat) : Prop :=
  match m with Some k => n < k | None => True end.

(** The counters of a run: both only grow, and the failures counted
    during it are no more than the calls counted. *)
Definition counts_grow (s s' : store) : Prop :=
  number_of_backtracks s <= number_of_backtracks s' /\
  number_of_backtracks_failed s <= number_of_backtracks_failed s' /\
  number_of_backtracks_failed s' + number_of_backtracks s
    <= number_of_backtracks s' + number_of_backtracks_failed s.

(** One more call than failures has been counted. *)
Definition counted_call (s s' : store) : Prop :=
  number_of_backtracks s < number_of_backtracks s' /\
  number_of_backtracks_failed s <= number_of_backtracks_failed s' /\
  S (number_of_backtracks_failed s' + number_of_backtracks s)
    <= number_of_backtracks s' + number_of_backtracks_failed s.

(** A solution of the problem: a value for each name, taken from its
    registered domain, such that the pair of values of every constrained
    pair is in its stored table. *)
Definition is_solution (self : CSP) (sigma : var -> value) : Prop :=
  (forall k l, PyDict.get (domains self) k = Some l -> In (sigma k) l) /\
  (forall i j t, table self i j = Some t -> In (sigma i, sigma j) t).

(** [sigma] picks its values in the domains of [d]. *)
Definition within (sigma : var -> value) (d : assignment_obj) : Prop :=
  forall k dk, PyDict.get d k = Some dk -> In (sigma k) (elems dk).

(** Some domain of [d] holds no value. *)
Definition has_empty (d : assignment_obj) : Prop :=
  exists k dk, PyDict.get d k = Some dk /\ elems dk = [].

(** What the search keeps true of the dictionaries it recurses on: the
    values are one-character strings taken from the dictionary [root],
    and either every arc passes the test of [revise] or some domain is
    empty. *)
Definition search_state (self : CSP) (root d : assignment_obj) : Prop :=
  single_chars d = true /\ shrinks d root /\
  ((forall i j t, table self i j = Some t -> arc_ok self d i j) \/ has_empty d).

(** [A], [B], [C] with the two values ['1'], ['2'] each, all different. *)
Definition csp_pigeon : CSP :=
  force (add_all_different_constraint
           (add_variable (add_variable (add_variable CSP_init
              "A" ["1"; "2"]) "B" ["1"; "2"]) "C" ["1"; "2"])
           ["A"; "B"; "C"]).

(** The same, as a test on the stored domains and tables. *)
Definition solves (self : CSP) (sigma : var -> value) : bool :=
  forallb (fun e => existsb (String.eqb (sigma (fst e))) (snd e)) (domains self) &&
  forallb (fun e =>
     forallb (fun f => pair_mem (sigma (fst e), sigma (fst f)) (snd f)) (snd e))
    (constraints self).

(** [V = ['2','3']], [P = ['1']], [Q = ['1']], all different: the pass
    before the search fails on [P] and leaves [V] undecided. *)
Definition csp_clash : CSP :=
  force (add_all_different_constraint
           (add_variable (add_variable (add_variable CSP_init
              "V" ["2"; "3"]) "P" ["1"]) "Q" ["1"])
           ["V"; "P"; "Q"]).

(** The number of variables [backtrack] still has to decide. *)
Definition undecided (d : assignment_obj) : nat :=
  length (filter (fun e => (1 <? len (snd e))%nat) d).

(** Fuel that is enough for a search from [d]: one unit per level of the
    recursion, and below it what a pass of [inference] over all arcs
    needs. *)
Definition search_bound (self : CSP) (d : assignment_obj) : nat :=
  undecided d + inference_bound self d (get_all_arcs self) + 1.

(** The models that can be built with the methods of the class. *)
Inductive built : CSP -> Prop :=
| built_init : built CSP_init
| built_add_variable self name domain :
    built self -> built (add_variable self name domain)
| built_add_constraint self i j f self' :
    built self -> add_constraint_one_way self i j f = inr self' -> built self'.

(** The three attributes agree: no name is registered twice in
    [domains], [constraints] has the same keys in the same order,
    [variables] lists the same names, and both ends of every stored
    table are registered. *)
Definition well_formed (self : CSP) : Prop :=
  NoDup (PyDict.keys (domains self)) /\
  PyDict.keys (constraints self) = PyDict.keys (domains self) /\
  (forall k, In k (variables self) <-> In k (PyDict.keys (domains self))) /\
  (forall i ci, In (i, ci) (constraints self) -> NoDup (PyDict.keys ci)) /\
  (forall i j t, table self i j = Some t ->
     In i (PyDict.keys (domains self)) /\ In j (PyDict.keys (domains self))).

(** The pairs [add_constraint_one_way] filters for [(i, j)]: the stored
    table if there is one, all pairs of the two domains if not. *)
Definition base_table (self : CSP) (i j : var) : option (list value_pair) :=
  match table self i j with
  | Some t => Some t
  | None =>
      match PyDict.get (domains self) i, PyDict.get (domains self) j with
      | Some di, Some dj => Some (get_all_possible_pairs di dj)
      | _, _ => None
      end
  end.

(** The cells of the grid, in the order of the two [for] loops of
    [create_sudoku_csp], and the domain registered for a character of
    the board. *)
Definition sudoku_cells : list (nat * nat) :=
  get_all_possible_pairs (seq 0 9) (seq 0 9).

Definition sudoku_domain (ch : string) : list value :=
  if String.eqb ch "0" then map digit (seq 1 9) else [ch].

(** The domain [create_sudoku_csp] registers for the cell [rc] of a
    board that has it. *)
Definition cell_domain (board : list string) (rc : nat * nat) : list value :=
  match board_at board (fst rc) (snd rc) with
  | Some ch => sudoku_domain ch
  | None => []
  end.

(** The lists [create_sudoku_csp] hands to
    [add_all_different_constraint]: rows, columns, boxes. *)
Definition sudoku_groups : list (list var) :=
  map (fun row => map (fun col => cell row col) (seq 0 9)) (seq 0 9) ++
  map (fun col => map (fun row => cell row col) (seq 0 9)) (seq 0 9) ++
  map (fun b => map (fun rc => cell (fst rc) (snd rc))
                    (get_all_possible_pairs (seq (fst b * 3) 3) (seq (snd b * 3) 3)))
      (get_all_possible_pairs (seq 0 3) (seq 0 3)).

(** No name appears twice in the list. *)
Fixpoint distinct (l : list string) : bool :=
  match l with
  | [] => true
  | x :: l' => negb (existsb (String.eqb x) l') && distinct l'
  end.

(** Two names appear together in one of the lists. *)
Definition linked (gs : list (list var)) (p q : var) : bool :=
  existsb (fun g => existsb (String.eqb p) g && existsb (String.eqb q) g) gs.

(** Two different cells in the same row, column or box. *)
Definition peers (r c r' c' : nat) : bool :=
  ((r =? r') || (c =? c') || ((r / 3 =? r' / 3) && (c / 3 =? c' / 3)))%nat &&
  negb ((r =? r') && (c =? c'))%nat.

(** The pairs of different values of two registered domains. *)
Definition different_pairs (self : CSP) (p q : var) : option (list value_pair) :=
  match PyDict.get (domains self) p, PyDict.get (domains self) q with
  | Some dp, Some dq =>
      Some (filter (fun v => negb (String.eqb (fst v) (snd v)))
                   (get_all_possible_pairs dp dq))
  | _, _ => None
  end.

(** A grid that propagation alone solves. *)
Definition board_easy : list string :=
  ["530070000"; "600195000"; "098000060"; "800060003"; "400803001";
   "700020006"; "060000280"; "000419005"; "000080079"].

Definition csp_sudoku_easy : CSP := force (create_sudoku_csp board_easy).

(** * Properties *)

(** ** Dictionaries and the store *)

Section DictFacts.
Context {V : Type}.
Implicit Types (d : list (string * V)) (k : string) (v : V).

Lemma get_set_same d k v : PyDict.get (PyDict.set d k v) k = Some v.
Proof.
  induction d as [|[k' v'] d IH]; simpl.
  - now rewrite String.eqb_refl.
  - destruct (String.eqb k k') eqn:E; simpl.
    + now rewrite String.eqb_refl.
    + now rewrite E.
Qed.

Lemma get_set_other d k k' v :
  k <> k' -> PyDict.get (PyDict.set d k v) k' = PyDict.get d k'.
Proof.
  intros N. induction d as [|[k0 v0] d IH]; simpl.
  - destruct (String.eqb k' k) eqn:E; [|reflexivity].
    apply String.eqb_eq in E. congruence.
  - destruct (String.eqb k k0) eqn:E; simpl.
    + apply String.eqb_eq in E. subst k0.
      destruct (String.eqb k' k) eqn:E'; [|reflexivity].
      apply String.eqb_eq in E'. congruence.
    + now rewrite IH.
Qed.

Lemma set_get_id d k v : PyDict.get d k = Some v -> PyDict.set d k v = d.
Proof.
  induction d as [|[k0 v0] d IH]; simpl; [discriminate|].
  destruct (String.eqb k k0) eqn:E.
  - apply String.eqb_eq in E. intros [= ->]. now subst.
  - intros H. now rewrite IH.
Qed.

Lemma get_In d k v : PyDict.get d k = Some v -> In (k, v) d.
Proof.
  induction d as [|[k0 v0] d IH]; simpl; [discriminate|].
  destruct (String.eqb k k0) eqn:E.
  - apply String.eqb_eq in E. intros [= ->]. left. now subst.
  - intros H. right. auto.
Qed.

Lemma get_split d k v :
  PyDict.get d k = Some v ->
  exists d1 d2, d = d1 ++ (k, v) :: d2 /\
    forall v', PyDict.set d k v' = d1 ++ (k, v') :: d2.
Proof.
  induction d as [|[k0 v0] d IH]; simpl; [discriminate|].
  destruct (String.eqb k k0) eqn:E.
  - apply String.eqb_eq in E. intros [= ->]. subst k0.
    exists [], d. split; [reflexivity|]. intros v'. reflexivity.
  - intros H. destruct (IH H) as (d1 & d2 & -> & Hs).
    exists ((k0, v0) :: d1), d2. split; [reflexivity|].
    intros v'. simpl. now rewrite Hs.
Qed.

Lemma mem_get d k : PyDict.mem k d = true -> exists v, PyDict.get d k = Some v.
Proof.
  unfold PyDict.mem. destruct (PyDict.get d k); [eauto|discriminate].
Qed.
End DictFacts.

Section StoreFacts.
Context {A : Type}.
Implicit Types (l : list A) (a b : nat) (x y : A).

Lemma length_update l a x : length (update l a x) = length l.
Proof.
  revert a. induction l as [|z l IH]; intros [|a]; simpl; auto.
Qed.

Lemma nth_error_update_same l a x y :
  nth_error l a = Some y -> nth_error (update l a x) a = Some x.
Proof.
  revert a. induction l as [|z l IH]; intros [|a]; simpl; try discriminate; auto.
Qed.

Lemma nth_error_update_other l a b x :
  a <> b -> nth_error (update l a x) b = nth_error l b.
Proof.
  revert a b. induction l as [|z l IH]; intros [|a] [|b] N; simpl; auto.
  congruence.
Qed.

Lemma update_id l a x : nth_error l a = Some x -> update l a x = l.
Proof.
  revert a. induction l as [|z l IH]; intros [|a]; simpl; try discriminate.
  - now intros [= ->].
  - intros H. now rewrite IH.
Qed.

Lemma update_update l a x y : update (update l a x) a y = update l a y.
Proof.
  revert a. induction l as [|z l IH]; intros [|a]; simpl; auto.
  now rewrite IH.
Qed.

End StoreFacts.

Lemma with_objs_id s : with_objs s (objs s) = s.
Proof. now destruct s. Qed.

(** ** Subsequences *)

Lemma Subseq_refl {A} (l : list A) : Subseq l l.
Proof. induction l; constructor; auto. Qed.

Lemma Subseq_trans {A} (l1 l2 l3 : list A) :
  Subseq l1 l2 -> Subseq l2 l3 -> Subseq l1 l3.
Proof.
  intros H12 H23. revert l1 H12.
  induction H23; intros l0 H12.
  - assumption.
  - inversion H12; subst.
    + constructor. auto.
    + apply Subseq_drop. auto.
  - apply Subseq_drop. auto.
Qed.

Lemma Subseq_filter {A} (f : A -> bool) (l : list A) : Subseq (filter f l) l.
Proof.
  induction l as [|x l IH]; simpl; [constructor|].
  destruct (f x); constructor; assumption.
Qed.

Lemma Subseq_length {A} (l1 l2 : list A) : Subseq l1 l2 -> length l1 <= length l2.
Proof. induction 1; simpl; lia. Qed.

Lemma shrinks_refl d : shrinks d d.
Proof.
  induction d; constructor; auto. split; [reflexivity|apply Subseq_refl].
Qed.

Lemma shrinks_trans d1 d2 d3 : shrinks d1 d2 -> shrinks d2 d3 -> shrinks d1 d3.
Proof.
  unfold shrinks. intros H12. revert d3.
  induction H12 as [|e1 e2 d1 d2 [Hk Hs] H12 IH]; intros d3 H23.
  - inversion H23. constructor.
  - inversion H23 as [|e2' e3 d2' d3' [Hk' Hs'] H23']; subst.
    constructor; [|auto]. split; [congruence|].
    eapply Subseq_trans; eassumption.
Qed.

Lemma shrinks_get d' d k v' :
  shrinks d' d -> PyDict.get d' k = Some v' ->
  exists v, PyDict.get d k = Some v /\
    Subseq (elems v') (elems v) /\ len v' <= len v.
Proof.
  unfold shrinks. induction 1 as [|[k1 v1] [k2 v2] d1 d2 [Hk Hs] _ IH];
    simpl; [discriminate|].
  simpl in Hk, Hs. subst k2. destruct (String.eqb k k1).
  - intros [= <-]. exists v2. split; [reflexivity|]. split; [assumption|].
    now apply Subseq_length.
  - exact IH.
Qed.

(** ** Running the primitives *)

Lemma deref_run a s d :
  nth_error (objs s) a = Some d -> deref a s = (Ret d, s).
Proof. unfold deref. now intros ->. Qed.

Lemma getitem_run a k s d :
  nth_error (objs s) a = Some d ->
  getitem a k s =
    (match PyDict.get d k with Some v => Ret v | None => Raise (KeyError k) end, s).
Proof.
  intros H. unfold getitem, bind. rewrite (deref_run _ _ _ H).
  destruct (PyDict.get d k); reflexivity.
Qed.

Lemma getitem_dangling a k s :
  nth_error (objs s) a = None -> getitem a k s = (Raise (KeyError "<dangling>"), s).
Proof. intros H. unfold getitem, bind, deref. now rewrite H. Qed.

Lemma setitem_run a k v s d :
  nth_error (objs s) a = Some d ->
  setitem a k v s = (Ret tt, with_objs s (update (objs s) a (PyDict.set d k v))).
Proof.
  intros H. unfold setitem, bind. rewrite (deref_run _ _ _ H). reflexivity.
Qed.

Lemma constraint_table_run self xi xj s :
  constraint_table self xi xj s =
    (match table self xi xj with
     | Some t => Ret t
     | None => Raise (match PyDict.get (constraints self) xi with
                      | None => KeyError xi
                      | Some _ => KeyError xj
                      end)
     end, s).
Proof.
  unfold constraint_table, table, bind, lift_opt.
  destruct (PyDict.get (constraints self) xi) as [ci|]; [|reflexivity].
  simpl. destruct (PyDict.get ci xj); reflexivity.
Qed.

(** ** [revise] *)

Lemma list_remove_first x kept rest :
  ~ In x kept -> list_remove x (kept ++ x :: rest) = Some (kept ++ rest).
Proof.
  induction kept as [|y kept IH]; simpl; intros N.
  - now rewrite String.eqb_refl.
  - destruct (String.eqb x y) eqn:E.
    + apply String.eqb_eq in E. subst. tauto.
    + rewrite IH by tauto. reflexivity.
Qed.

Lemma forallb_In_false {A} (f : A -> bool) l x :
  forallb f l = true -> f x = false -> ~ In x l.
Proof.
  intros H Hx Hin. rewrite forallb_forall in H. specialize (H _ Hin). congruence.
Qed.

Lemma revise_loop_spec self a xi xj d s :
  nth_error (objs s) a = Some d ->
  forall xs revised cp r s',
    revise_loop self a xi xj xs revised cp s = (r, s') ->
    s' = s /\
    match r with
    | OutOfFuel => False
    | Raise _ => True
    | Ret (b, cp') =>
        b = revised || negb (forallb (supported self d xi xj) xs) /\
        (forall kept, cp = PyList (kept ++ xs) ->
           forallb (supported self d xi xj) kept = true ->
           cp' = PyList (kept ++ filter (supported self d xi xj) xs)) /\
        (forall s0, cp = PyStr s0 ->
           cp' = cp /\ forallb (supported self d xi xj) xs = true) /\
        (xs <> [] ->
           is_some (PyDict.get d xj) = true /\ is_some (table self xi xj) = true)
    end.
Proof.
  intros Hd. induction xs as [|x xs IH]; intros revised cp r s' Hrun.
  - simpl in Hrun. injection Hrun as <- <-. split; [reflexivity|].
    simpl. rewrite orb_false_r. repeat split; auto; congruence.
  - simpl in Hrun. unfold bind at 1 in Hrun.
    rewrite (getitem_run _ _ _ _ Hd) in Hrun.
    destruct (PyDict.get d xj) as [dj|] eqn:Hdj;
      [|injection Hrun as <- <-; auto].
    unfold bind at 1 in Hrun. rewrite constraint_table_run in Hrun.
    destruct (table self xi xj) as [t|] eqn:Ht;
      [|injection Hrun as <- <-; auto].
    assert (Hsup : supported self d xi xj x =
              negb (length (filter (fun v => pair_mem v
                      (get_all_possible_pairs (chars x) (elems dj))) t) =? 0)%nat).
    { unfold supported. now rewrite Hdj, Ht. }
    destruct (length _ =? 0)%nat eqn:Hm; simpl in Hsup.
    + (* [x] has no support: it is removed from [cp] *)
      unfold bind at 1 in Hrun.
      destruct cp as [l|s0]; simpl in Hrun.
      * destruct (list_remove x l) as [l'|] eqn:Hrem.
        -- unfold ret at 1 in Hrun. apply IH in Hrun. destruct Hrun as [-> Hr].
           split; [reflexivity|].
           destruct r as [[b cp']| |]; auto.
           destruct Hr as (Hb & Hl & Hs & _). simpl. rewrite Hsup. simpl.
           split; [now rewrite orb_true_r|]. split; [|split].
           ++ intros kept [= ->] Hk.
              rewrite list_remove_first in Hrem
                by (eapply forallb_In_false; eassumption).
              injection Hrem as <-. auto.
           ++ intros s0 [=].
           ++ intros _. split; reflexivity.
        -- injection Hrun as <- <-. auto.
      * injection Hrun as <- <-. auto.
    + (* [x] is supported *)
      apply IH in Hrun. destruct Hrun as [-> Hr]. split; [reflexivity|].
      destruct r as [[b cp']| |]; auto.
      destruct Hr as (Hb & Hl & Hs & _). simpl. rewrite Hsup. simpl.
      split; [assumption|]. split; [|split].
      * intros kept -> Hk.
        rewrite (Hl (kept ++ [x])).
        -- now rewrite <- app_assoc.
        -- now rewrite <- app_assoc.
        -- rewrite forallb_app, Hk. simpl. now rewrite Hsup.
      * intros s0 E. destruct (Hs s0 E) as [-> ->]. auto.
      * intros _. split; reflexivity.
Qed.

(** The effect of [revise]: it never runs out of fuel, an exception
    leaves the store as it was, and a normal return rebinds [xi] in the
    dictionary at [assignment] to the supported values of its domain. *)
Lemma revise_spec self a xi xj s r s' :
  revise self a xi xj s = (r, s') ->
  match r with
  | OutOfFuel => False
  | Raise _ => s' = s
  | Ret b =>
      exists d di,
        nth_error (objs s) a = Some d /\ PyDict.get d xi = Some di /\
        s' = with_objs s (update (objs s) a
               (PyDict.set d xi (dom_filter (supported self d xi xj) di))) /\
        b = negb (forallb (supported self d xi xj) (elems di)) /\
        (b = true -> is_list di = true) /\
        (elems di <> [] ->
           is_some (PyDict.get d xj) = true /\ is_some (table self xi xj) = true)
  end.
Proof.
  unfold revise. intros Hrun. unfold bind at 1 in Hrun.
  destruct (nth_error (objs s) a) as [d|] eqn:Hd.
  2:{ rewrite (getitem_dangling _ _ _ Hd) in Hrun. now injection Hrun as <- <-. }
  rewrite (getitem_run _ _ _ _ Hd) in Hrun.
  destruct (PyDict.get d xi) as [di|] eqn:Hdi;
    [|now injection Hrun as <- <-].
  unfold bind at 1 in Hrun.
  destruct (revise_loop self a xi xj (elems di) false di s) as [r0 s0] eqn:Hloop.
  destruct (revise_loop_spec _ _ _ _ _ _ Hd _ _ _ _ _ Hloop) as [-> Hr].
  destruct r0 as [[b cp']| |]; [|now injection Hrun as <- <-|contradiction].
  unfold bind at 1 in Hrun. simpl snd in Hrun. simpl fst in Hrun.
  rewrite (setitem_run _ _ _ _ _ Hd) in Hrun. unfold ret in Hrun.
  injection Hrun as <- <-.
  destruct Hr as (Hb & Hl & Hs & Hlk). simpl in Hb.
  exists d, di. split; [reflexivity|]. split; [assumption|].
  split; [|split; [assumption|split; [|assumption]]].
  - destruct di as [l|s0]; simpl.
    + now rewrite (Hl [] eq_refl eq_refl).
    + now destruct (Hs s0 eq_refl) as [-> _].
  - intros ->. destruct di as [l|s0]; [reflexivity|].
    destruct (Hs s0 eq_refl) as [_ E]. simpl in Hb, E. rewrite E in Hb. discriminate.
Qed.

(** ** One iteration of the [while] loop of [inference] *)

Lemma filter_all {A} (f : A -> bool) l : forallb f l = true -> filter f l = l.
Proof.
  induction l as [|x l IH]; simpl; [reflexivity|].
  intros H. apply andb_prop in H. destruct H as [-> H]. now rewrite IH.
Qed.

Lemma dom_filter_id f di :
  forallb f (elems di) = true -> dom_filter f di = di.
Proof.
  destruct di as [l|s0]; simpl; [|reflexivity]. intros H. now rewrite filter_all.
Qed.

Lemma forallb_false_ex {A} (f : A -> bool) l :
  forallb f l = false -> exists x, In x l /\ f x = false.
Proof.
  induction l as [|x l IH]; simpl; [discriminate|].
  destruct (f x) eqn:E; simpl.
  - intros H. destruct (IH H) as (y & Hy & Hf). eauto.
  - intros _. eauto.
Qed.

Lemma rebind_same s a d k v :
  nth_error (objs s) a = Some d -> PyDict.get d k = Some v ->
  with_objs s (update (objs s) a (PyDict.set d k v)) = s.
Proof.
  intros Hd Hk. rewrite (set_get_id _ _ _ Hk), (update_id _ _ _ Hd).
  apply with_objs_id.
Qed.

Lemma inference_cons self fuel a xi xj q s r s' :
  inference (S fuel) self a ((xi, xj) :: q) s = (r, s') ->
  (exists e, r = Raise e /\ s' = s) \/
  exists d di,
    nth_error (objs s) a = Some d /\ PyDict.get d xi = Some di /\
    ((forallb (supported self d xi xj) (elems di) = true /\
      inference fuel self a q s = (r, s')) \/
     (exists l ci x,
        di = PyList l /\ In x l /\ supported self d xi xj x = false /\
        PyDict.get (constraints self) xi = Some ci /\
        is_some (PyDict.get d xj) = true /\
        is_some (table self xi xj) = true /\
        let l' := filter (supported self d xi xj) l in
        let s1 := with_objs s (update (objs s) a (PyDict.set d xi (PyList l'))) in
        ((l' = [] /\ r = Ret false /\ s' = s1) \/
         (l' <> [] /\
          inference fuel self a
            (q ++ requeue (map (fun e => (fst e, xi)) ci) xi xj) s1 = (r, s'))))).
Proof.
  intros Hrun. simpl in Hrun. unfold bind at 1 in Hrun.
  destruct (revise self a xi xj s) as [r0 s0] eqn:Hrev.
  apply revise_spec in Hrev.
  destruct r0 as [b|e|]; [|left; injection Hrun as <- <-; eauto|contradiction].
  destruct Hrev as (d & di & Hd & Hdi & -> & Hb & Hlist & Hlk).
  right. exists d, di. split; [assumption|]. split; [assumption|].
  destruct (forallb (supported self d xi xj) (elems di)) eqn:Hall;
    simpl in Hb; subst b.
  - left. split; [reflexivity|].
    rewrite (dom_filter_id _ _ Hall), (rebind_same _ _ _ _ _ Hd Hdi) in Hrun.
    exact Hrun.
  - right. specialize (Hlist eq_refl).
    destruct di as [l|s0]; [|discriminate]. simpl in Hall, Hrun, Hlk.
    destruct (forallb_false_ex _ _ Hall) as (x & Hx & Hfx).
    assert (Hne : l <> []) by (intros ->; contradiction).
    destruct (Hlk Hne) as [Hj Ht].
    assert (Hci : exists ci, PyDict.get (constraints self) xi = Some ci).
    { unfold table in Ht. destruct (PyDict.get (constraints self) xi); [eauto|discriminate]. }
    destruct Hci as [ci Hci].
    exists l, ci, x. split; [reflexivity|]. repeat (split; [assumption|]).
    cbv zeta.
    remember (filter (supported self d xi xj) l) as l' eqn:El'.
    set (s1 := with_objs s (update (objs s) a (PyDict.set d xi (PyList l')))) in *.
    assert (Hd1 : nth_error (objs s1) a = Some (PyDict.set d xi (PyList l'))).
    { unfold s1. simpl. eapply nth_error_update_same; eassumption. }
    unfold bind at 1 in Hrun.
    rewrite (getitem_run _ _ _ _ Hd1), get_set_same in Hrun.
    unfold len in Hrun. simpl elems in Hrun. clearbody s1.
    destruct l' as [|y l0].
    + left. simpl in Hrun. unfold ret in Hrun. injection Hrun as <- <-. auto.
    + right. split; [discriminate|].
      simpl in Hrun. unfold bind at 1 in Hrun.
      unfold get_all_neighboring_arcs in Hrun. rewrite Hci in Hrun.
      simpl in Hrun. exact Hrun.
Qed.

(** ** [inference] only shrinks, and only the dictionary it is given *)

Lemma shrinks_rebind d xi l f :
  PyDict.get d xi = Some (PyList l) ->
  shrinks (PyDict.set d xi (PyList (filter f l))) d.
Proof.
  intros H. destruct (get_split _ _ _ H) as (d1 & d2 & -> & Hs). rewrite Hs.
  unfold shrinks. apply Forall2_app.
  - apply shrinks_refl.
  - constructor; [|apply shrinks_refl].
    split; [reflexivity|]. simpl. apply Subseq_filter.
Qed.

Lemma inference_effect self a : forall fuel q s r s',
  inference fuel self a q s = (r, s') ->
  s' = s \/
  exists d d', nth_error (objs s) a = Some d /\
    s' = with_objs s (update (objs s) a d') /\ shrinks d' d.
Proof.
  induction fuel as [|fuel IH]; intros q s r s' Hrun.
  - injection Hrun as <- <-. now left.
  - destruct q as [|[xi xj] q].
    + injection Hrun as <- <-. now left.
    + apply inference_cons in Hrun.
      destruct Hrun as [(e & _ & ->)|(d & di & Hd & Hdi & Hcase)]; [now left|].
      destruct Hcase as [[_ Hrun]|(l & ci & x & -> & _ & _ & _ & _ & _ & Hcase)].
      * eauto.
      * cbv zeta in Hcase.
        set (d1 := PyDict.set d xi (PyList (filter (supported self d xi xj) l))) in *.
        assert (Hsh : shrinks d1 d) by (apply shrinks_rebind; assumption).
        right. exists d.
        destruct Hcase as [(_ & _ & ->)|(_ & Hrun)]; [eauto|].
        apply IH in Hrun. destruct Hrun as [->|(d0 & d' & Hd0 & -> & Hsh')].
        -- eauto.
        -- simpl in Hd0. rewrite (nth_error_update_same _ _ _ _ Hd) in Hd0.
           injection Hd0 as <-. exists d'. split; [assumption|]. split.
           ++ simpl. now rewrite update_update.
           ++ eapply shrinks_trans; eassumption.
Qed.

(** ** Termination of the [while] loop *)

Lemma total_app d1 d2 : total (d1 ++ d2) = total d1 + total d2.
Proof. unfold total. now rewrite map_app, list_sum_app. Qed.

Lemma total_rebind d xi l l' :
  PyDict.get d xi = Some (PyList l) ->
  total (PyDict.set d xi (PyList l')) + length l = total d + length l'.
Proof.
  intros H. destruct (get_split _ _ _ H) as (d1 & d2 & -> & Hs). rewrite Hs.
  rewrite !total_app. unfold total. simpl. unfold len. simpl. lia.
Qed.

Lemma filter_length_lt {A} (f : A -> bool) l x :
  In x l -> f x = false -> length (filter f l) < length l.
Proof.
  induction l as [|y l IH]; simpl; [contradiction|].
  intros [->|Hin] Hf.
  - rewrite Hf. pose proof (filter_length_le f l). lia.
  - specialize (IH Hin Hf). destruct (f y); simpl; lia.
Qed.

Lemma degree_le_max self xi ci :
  PyDict.get (constraints self) xi = Some ci -> length ci <= max_degree self.
Proof.
  intros H. apply get_In in H. unfold max_degree.
  assert (Hall : Forall (fun k => k <= list_max (map (fun e => length (snd e)) (constraints self)))
                   (map (fun e : var * list (var * list value_pair) => length (snd e)) (constraints self))).
  { apply list_max_le. reflexivity. }
  rewrite Forall_forall in Hall. apply Hall.
  apply in_map_iff. exists (xi, ci). auto.
Qed.

Lemma requeue_length nb xi xj : length (requeue nb xi xj) <= length nb.
Proof. unfold requeue. rewrite length_map. apply filter_length_le. Qed.

Lemma inference_fuel_enough self a : forall fuel q s,
  length q + total (obj_at s a) * max_degree self < fuel ->
  fst (inference fuel self a q s) <> OutOfFuel.
Proof.
  induction fuel as [|fuel IH]; intros q s Hlt; [lia|].
  destruct q as [|[xi xj] q]; [discriminate|].
  match goal with |- fst ?t <> _ => destruct t as [r s'] eqn:Hrun end.
  simpl fst. pose proof Hrun as Hc. apply inference_cons in Hc.
  destruct Hc as [(e & -> & _)|(d & di & Hd & Hdi & Hcase)]; [discriminate|].
  assert (Hobj : obj_at s a = d).
  { unfold obj_at. now apply nth_error_nth. }
  rewrite Hobj in Hlt. cbn [length] in Hlt.
  destruct Hcase as [[_ Hrun']|(l & ci & x & -> & Hx & Hfx & Hci & _ & _ & Hcase)].
  - specialize (IH q s). rewrite Hrun' in IH. apply IH. rewrite Hobj. lia.
  - cbv zeta in Hcase.
    destruct Hcase as [(_ & -> & _)|(_ & Hrun')]; [discriminate|].
    match type of Hrun' with inference _ _ _ ?q1 ?s1 = _ =>
      specialize (IH q1 s1); rewrite Hrun' in IH; apply IH;
      assert (Hobj1 : obj_at s1 a =
                PyDict.set d xi (PyList (filter (supported self d xi xj) l)))
    end.
    { unfold obj_at. apply nth_error_nth. simpl.
      eapply nth_error_update_same; eassumption. }
    rewrite Hobj1, length_app.
    pose proof (total_rebind d xi l (filter (supported self d xi xj) l) Hdi) as Ht.
    pose proof (filter_length_lt _ _ _ Hx Hfx) as Hf.
    match goal with |- context [requeue ?nb xi xj] =>
      pose proof (requeue_length nb xi xj) as Hq end.
    rewrite length_map in Hq.
    pose proof (degree_le_max _ _ _ Hci) as Hdeg.
    set (d1 := PyDict.set d xi (PyList (filter (supported self d xi xj) l))) in *.
    assert (Hmul : total d1 * max_degree self + max_degree self
                   <= total d * max_degree self).
    { assert (Hlt1 : S (total d1) <= total d) by lia.
      apply (Nat.mul_le_mono_r _ _ (max_degree self)) in Hlt1. lia. }
    assert (HR := Nat.le_trans _ _ _ Hq Hdeg).
    apply Nat.le_lt_trans with (length q + (max_degree self + total d1 * max_degree self)).
    + rewrite <- Nat.add_assoc. apply Nat.add_le_mono_l, Nat.add_le_mono_r. exact HR.
    + apply Nat.le_lt_trans with (length q + total d * max_degree self).
      * apply Nat.add_le_mono_l. rewrite Nat.add_comm. exact Hmul.
      * apply Nat.succ_lt_mono. exact Hlt.
Qed.

(** ** Support, as the code tests it and as the specification states it *)

Lemma pair_eqb_eq p q : pair_eqb p q = true <-> p = q.
Proof.
  destruct p as [a b], q as [c e]. unfold pair_eqb. simpl.
  rewrite andb_true_iff, !String.eqb_eq. split.
  - intros [-> ->]. reflexivity.
  - intros [= -> ->]. auto.
Qed.

Lemma pair_mem_In p l : pair_mem p l = true <-> In p l.
Proof.
  unfold pair_mem. rewrite existsb_exists. split.
  - intros (q & Hq & E). apply pair_eqb_eq in E. now subst.
  - intros H. exists p. split; [assumption|]. now apply pair_eqb_eq.
Qed.

Lemma in_product {A B} (a : list A) (b : list B) x y :
  In (x, y) (get_all_possible_pairs a b) <-> In x a /\ In y b.
Proof.
  unfold get_all_possible_pairs. rewrite in_flat_map. split.
  - intros (x0 & Hx0 & H). apply in_map_iff in H.
    destruct H as (y0 & [= -> ->] & Hy0). auto.
  - intros [Hx Hy]. exists x. split; [assumption|].
    apply in_map_iff. eauto.
Qed.

Lemma length_filter_nonzero {A} (f : A -> bool) l :
  negb (length (filter f l) =? 0)%nat = true <-> exists p, In p l /\ f p = true.
Proof.
  split.
  - destruct (filter f l) as [|p r] eqn:E; simpl; [discriminate|]. intros _.
    assert (H : In p (filter f l)) by (rewrite E; now left).
    apply filter_In in H. eauto.
  - intros (p & Hp & Hf).
    assert (H : In p (filter f l)) by (apply filter_In; auto).
    destruct (filter f l); [contradiction|reflexivity].
Qed.

(** The test of the code: a character [c] of [x] is paired in the table
    with a value of [d[xj]]. *)
Lemma supported_spec self d xi xj x :
  supported self d xi xj x = true <->
  exists dj t c w,
    PyDict.get d xj = Some dj /\ table self xi xj = Some t /\
    In c (chars x) /\ In w (elems dj) /\ In (c, w) t.
Proof.
  unfold supported.
  destruct (PyDict.get d xj) as [dj|]; [|split; [discriminate|]].
  2:{ intros (dj & t & c & w & [=] & _). }
  destruct (table self xi xj) as [t|]; [|split; [discriminate|]].
  2:{ intros (dj' & t & c & w & _ & [=] & _). }
  rewrite length_filter_nonzero. split.
  - intros ([c w] & Hp & Hm). apply pair_mem_In, in_product in Hm.
    exists dj, t, c, w. tauto.
  - intros (dj' & t' & c & w & [= <-] & [= <-] & Hc & Hw & Hp).
    exists (c, w). split; [assumption|]. apply pair_mem_In, in_product. auto.
Qed.

Lemma chars_single v : String.length v = 1 -> chars v = [v].
Proof.
  destruct v as [|c [|c' v]]; simpl; try discriminate. reflexivity.
Qed.

(** For a one-character value the two notions agree. *)
Lemma supported_has_support self d i j v :
  chars v = [v] ->
  (supported self d i j v = true <-> has_support self d i j v).
Proof.
  intros Hc. rewrite supported_spec, Hc. unfold has_support. split.
  - intros (dj & t & c & w & Hj & Ht & [<-|[]] & Hw & Hp). eauto 10.
  - intros (dj & t & w & Hj & Ht & Hw & Hp).
    exists dj, t, v, w. simpl. auto 10.
Qed.

Lemma supported_ext self d d' i j v :
  PyDict.get d' j = PyDict.get d j ->
  supported self d' i j v = supported self d i j v.
Proof. unfold supported. now intros ->. Qed.

Lemma single_chars_spec d :
  single_chars d = true ->
  forall k dk v, PyDict.get d k = Some dk -> In v (elems dk) -> chars v = [v].
Proof.
  unfold single_chars. rewrite forallb_forall. intros H k dk v Hk Hv.
  apply get_In in Hk. specialize (H _ Hk). simpl in H.
  rewrite forallb_forall in H. specialize (H _ Hv).
  apply chars_single. now apply Nat.eqb_eq.
Qed.

Lemma single_chars_rebind d xi l f :
  PyDict.get d xi = Some (PyList l) -> single_chars d = true ->
  single_chars (PyDict.set d xi (PyList (filter f l))) = true.
Proof.
  intros H. destruct (get_split _ _ _ H) as (d1 & d2 & -> & Hs). rewrite Hs.
  unfold single_chars. rewrite !forallb_app. simpl.
  rewrite !andb_true_iff. intros (H1 & H2 & H3). repeat split; auto.
  rewrite forallb_forall in *. intros v Hv. apply filter_In in Hv. apply H2, Hv.
Qed.

(** ** Two-way models *)

Lemma two_way_spec self i j t :
  two_way self = true -> table self i j = Some t ->
  i <> j /\
  exists t', table self j i = Some t' /\
    (forall v w, In (v, w) t -> In (w, v) t') /\
    (forall v w, In (w, v) t' -> In (v, w) t).
Proof.
  unfold two_way. rewrite forallb_forall. intros H Ht.
  pose proof Ht as Ht0. unfold table in Ht.
  destruct (PyDict.get (constraints self) i) as [ci|] eqn:Hi; [|discriminate].
  apply get_In in Hi. apply get_In in Ht.
  specialize (H _ Hi). simpl in H. rewrite forallb_forall in H.
  specialize (H _ Ht). simpl in H.
  rewrite !andb_true_iff in H. destruct H as (((Hne & Hm) & _) & _).
  split.
  - intros ->. rewrite String.eqb_refl in Hne. discriminate.
  - unfold mirrored_arc in Hm. rewrite Ht0 in Hm.
    destruct (table self j i) as [t'|]; [|discriminate].
    exists t'. split; [reflexivity|].
    rewrite andb_true_iff, !forallb_forall in Hm. destruct Hm as [H1 H2].
    split; intros v w Hin.
    + specialize (H1 _ Hin). simpl in H1. now apply pair_mem_In in H1.
    + specialize (H2 _ Hin). simpl in H2. now apply pair_mem_In in H2.
Qed.

Lemma table_in_all_arcs self i j t :
  table self i j = Some t -> In (i, j) (get_all_arcs self).
Proof.
  unfold table, get_all_arcs. intros H.
  destruct (PyDict.get (constraints self) i) as [ci|] eqn:Hi; [|discriminate].
  apply get_In in Hi. apply get_In in H.
  apply in_flat_map. exists (i, ci). split; [assumption|].
  apply in_map_iff. exists (j, t). auto.
Qed.

Lemma in_requeue ci k t xi xj :
  In (k, t) ci -> k <> xi -> k <> xj ->
  In (k, xi) (requeue (map (fun e : var * list value_pair => (fst e, xi)) ci) xi xj).
Proof.
  intros Hin N1 N2. unfold requeue. apply in_map_iff.
  exists (k, xi). split; [reflexivity|]. apply filter_In. split.
  - apply in_map_iff. exists (k, t). auto.
  - simpl. apply andb_true_iff. split; apply negb_true_iff, String.eqb_neq; assumption.
Qed.

(** ** The AC-3 invariant *)

Section AC3.
Variable self : CSP.
Hypothesis Htwo : two_way self = true.

Variables (d : assignment_obj) (xi xj : var) (l : list value).
Hypothesis Hdi : PyDict.get d xi = Some (PyList l).
Hypothesis Hsingle : single_chars d = true.

Local Abbreviation l' := (filter (supported self d xi xj) l).
Local Abbreviation d1 := (PyDict.set d xi (PyList l')).

Lemma rebind_get_other k : k <> xi -> PyDict.get d1 k = PyDict.get d k.
Proof. intros N. apply get_set_other. congruence. Qed.

Lemma rebind_get_same : PyDict.get d1 xi = Some (PyList l').
Proof. apply get_set_same. Qed.

(** Shrinking [xi] keeps the arcs that leave [xi] consistent. *)
Lemma arc_ok_from_xi j : j <> xi -> arc_ok self d xi j -> arc_ok self d1 xi j.
Proof.
  intros N (di & Hg & H). rewrite Hdi in Hg. injection Hg as <-.
  exists (PyList l'). split; [apply rebind_get_same|]. intros v Hv.
  rewrite (supported_ext self d d1) by (now apply rebind_get_other).
  apply H. simpl in *. apply filter_In in Hv. tauto.
Qed.

(** The revised arc is consistent afterwards. *)
Lemma arc_ok_revised : xj <> xi -> arc_ok self d1 xi xj.
Proof.
  intros N. exists (PyList l'). split; [apply rebind_get_same|]. intros v Hv.
  rewrite (supported_ext self d d1) by (now apply rebind_get_other).
  simpl in Hv. apply filter_In in Hv. tauto.
Qed.

(** Arcs that do not touch [xi] are unaffected. *)
Lemma arc_ok_elsewhere i j :
  i <> xi -> j <> xi -> arc_ok self d i j -> arc_ok self d1 i j.
Proof.
  intros Ni Nj (di & Hg & H). exists di.
  split; [now rewrite rebind_get_other|]. intros v Hv.
  rewrite (supported_ext self d d1) by (now apply rebind_get_other). auto.
Qed.

(** The arc back from [xj], which the code does not put in the queue
    again, stays consistent: the values dropped from [xi] supported
    nothing in [xj], the tables being mirror images. *)
Lemma arc_ok_back t :
  table self xi xj = Some t -> arc_ok self d xj xi -> arc_ok self d1 xj xi.
Proof.
  intros Ht (dj & Hg & H).
  destruct (two_way_spec _ _ _ _ Htwo Ht) as (Nij & t' & Ht' & Hm & Hm').
  exists dj. split; [rewrite rebind_get_other; congruence|]. intros w Hw.
  pose proof (H _ Hw) as Hs.
  pose proof (single_chars_spec _ Hsingle _ _ _ Hg Hw) as Hcw.
  apply (supported_has_support _ _ _ _ _ Hcw) in Hs.
  destruct Hs as (di0 & t0 & v & Hgi & Ht0 & Hv & Hp).
  rewrite Hdi in Hgi. injection Hgi as <-.
  rewrite Ht' in Ht0. injection Ht0 as <-. simpl in Hv.
  apply (supported_has_support _ _ _ _ _ Hcw).
  exists (PyList l'), t', v. split; [apply rebind_get_same|].
  split; [assumption|]. split; [|assumption].
  simpl. apply filter_In. split; [assumption|].
  pose proof (single_chars_spec _ Hsingle _ _ _ Hdi Hv) as Hcv.
  apply (supported_has_support _ _ _ _ _ Hcv).
  exists dj, t, w. auto.
Qed.

Lemma queue_invariant_revised q ci :
  PyDict.get (constraints self) xi = Some ci ->
  is_some (table self xi xj) = true ->
  queue_invariant self d ((xi, xj) :: q) ->
  queue_invariant self d1
    (q ++ requeue (map (fun e : var * list value_pair => (fst e, xi)) ci) xi xj).
Proof.
  intros Hci Hex Hinv i j t Ht.
  destruct (table self xi xj) as [tx|] eqn:Htx; [|discriminate].
  destruct (two_way_spec _ _ _ _ Htwo Htx) as (Nx & _).
  destruct (two_way_spec _ _ _ _ Htwo Ht) as (Nij & t' & Ht' & _).
  destruct (Hinv _ _ _ Ht) as [Hin|Hok].
  - (* the arc was waiting *)
    destruct Hin as [[= <- <-]|Hin].
    + right. apply arc_ok_revised. congruence.
    + left. apply in_or_app. now left.
  - destruct (String.eqb_spec j xi) as [->|Nj].
    + (* an arc into [xi] *)
      destruct (String.eqb_spec i xj) as [->|Ni].
      * right. eapply arc_ok_back; eassumption.
      * left. apply in_or_app. right.
        unfold table in Ht'. rewrite Hci in Ht'. apply get_In in Ht'.
        eapply in_requeue; eassumption.
    + destruct (String.eqb_spec i xi) as [->|Ni].
      * right. now apply arc_ok_from_xi.
      * right. now apply arc_ok_elsewhere.
Qed.
End AC3.

Lemma queue_invariant_kept self d xi xj di q :
  PyDict.get d xi = Some di ->
  forallb (supported self d xi xj) (elems di) = true ->
  queue_invariant self d ((xi, xj) :: q) -> queue_invariant self d q.
Proof.
  intros Hdi Hall Hinv i j t Ht.
  destruct (Hinv _ _ _ Ht) as [[[= -> ->]|Hin]|Hok]; auto.
  right. exists di. split; [assumption|].
  rewrite forallb_forall in Hall. auto.
Qed.

Lemma inference_establishes_arc_ok self a :
  two_way self = true ->
  forall fuel q s s' d,
    nth_error (objs s) a = Some d -> single_chars d = true ->
    queue_invariant self d q ->
    inference fuel self a q s = (Ret true, s') ->
    exists d', nth_error (objs s') a = Some d' /\ single_chars d' = true /\
      forall i j t, table self i j = Some t -> arc_ok self d' i j.
Proof.
  intros Htwo. induction fuel as [|fuel IH]; intros q s s' d Hd Hsc Hinv Hrun;
    [discriminate|].
  destruct q as [|[xi xj] q].
  - injection Hrun as <-. exists d. repeat split; auto.
    intros i j t Ht. destruct (Hinv _ _ _ Ht) as [[]|]; assumption.
  - apply inference_cons in Hrun.
    destruct Hrun as [(e & [=] & _)|(d0 & di & Hd0 & Hdi & Hcase)].
    rewrite Hd in Hd0. injection Hd0 as <-.
    destruct Hcase as [[Hall Hrun]|(l & ci & x & -> & Hx & Hfx & Hci & _ & Hex & Hcase)].
    + exact (IH q s s' d Hd Hsc
               (queue_invariant_kept _ _ _ _ _ _ Hdi Hall Hinv) Hrun).
    + cbv zeta in Hcase. destruct Hcase as [(_ & [=] & _)|(_ & Hrun)].
      eapply IH in Hrun.
      * exact Hrun.
      * simpl. eapply nth_error_update_same; eassumption.
      * now apply single_chars_rebind.
      * now apply queue_invariant_revised.
Qed.

(** ** A second pass over consistent arcs changes nothing *)

Lemma revise_loop_supported self a xi xj d s :
  nth_error (objs s) a = Some d ->
  forall xs revised cp,
    (forall x, In x xs -> supported self d xi xj x = true) ->
    revise_loop self a xi xj xs revised cp s = (Ret (revised, cp), s).
Proof.
  intros Hd. induction xs as [|x xs IH]; intros revised cp Hall; [reflexivity|].
  simpl. unfold bind at 1. rewrite (getitem_run _ _ _ _ Hd).
  pose proof (Hall x (or_introl eq_refl)) as Hx. unfold supported in Hx.
  destruct (PyDict.get d xj) as [dj|]; [|discriminate].
  unfold bind at 1. rewrite constraint_table_run.
  destruct (table self xi xj) as [t|]; [|discriminate].
  apply negb_true_iff in Hx. rewrite Hx.
  apply IH. intros y Hy. apply Hall. now right.
Qed.

Lemma revise_arc_ok self a xi xj d s :
  nth_error (objs s) a = Some d -> arc_ok self d xi xj ->
  revise self a xi xj s = (Ret false, s).
Proof.
  intros Hd (di & Hdi & Hall). unfold revise, bind at 1.
  rewrite (getitem_run _ _ _ _ Hd), Hdi.
  unfold bind at 1. rewrite (revise_loop_supported _ _ _ _ _ _ Hd _ _ _ Hall).
  unfold bind. simpl. rewrite (setitem_run _ _ _ _ _ Hd).
  unfold ret. now rewrite (rebind_same _ _ _ _ _ Hd Hdi).
Qed.

Lemma inference_all_ok self a d : forall q fuel s,
  nth_error (objs s) a = Some d ->
  (forall i j, In (i, j) q -> arc_ok self d i j) ->
  length q < fuel ->
  inference fuel self a q s = (Ret true, s).
Proof.
  induction q as [|[xi xj] q IH]; intros fuel s Hd Hok Hlt;
    (destruct fuel as [|fuel]; [simpl in Hlt; lia|]); [reflexivity|].
  simpl. unfold bind at 1.
  rewrite (revise_arc_ok _ _ _ _ _ _ Hd (Hok _ _ (or_introl eq_refl))).
  apply IH; [assumption| |simpl in Hlt; lia].
  intros i j Hin. apply Hok. now right.
Qed.

(** ** Running [revise] and [inference] forward on list domains *)

Lemma revise_loop_list self a xi xj d s :
  nth_error (objs s) a = Some d ->
  is_some (PyDict.get d xj) = true -> is_some (table self xi xj) = true ->
  forall xs revised kept,
    forallb (supported self d xi xj) kept = true ->
    revise_loop self a xi xj xs revised (PyList (kept ++ xs)) s =
      (Ret (revised || negb (forallb (supported self d xi xj) xs),
            PyList (kept ++ filter (supported self d xi xj) xs)), s).
Proof.
  intros Hd Hj Ht. induction xs as [|x xs IH]; intros revised kept Hk.
  - simpl. now rewrite orb_false_r.
  - simpl revise_loop. unfold bind at 1. rewrite (getitem_run _ _ _ _ Hd).
    assert (Hsup := eq_refl (supported self d xi xj x)).
    unfold supported at 1 in Hsup.
    destruct (PyDict.get d xj) as [dj|]; [|discriminate].
    unfold bind at 1. rewrite constraint_table_run.
    destruct (table self xi xj) as [t|]; [|discriminate].
    simpl filter. simpl forallb. rewrite <- Hsup.
    destruct (length _ =? 0)%nat; simpl in Hsup; simpl negb; cbv iota.
    + unfold bind at 1. simpl dom_remove.
      rewrite list_remove_first by (eapply forallb_In_false; eauto).
      unfold ret at 1. rewrite IH by assumption.
      simpl. now rewrite orb_true_r.
    + replace (kept ++ x :: xs) with ((kept ++ [x]) ++ xs)
        by (now rewrite <- app_assoc).
      rewrite IH.
      * simpl. now rewrite <- app_assoc.
      * rewrite forallb_app, Hk. simpl. now rewrite <- Hsup.
Qed.

Lemma revise_list self a xi xj d s l :
  nth_error (objs s) a = Some d -> PyDict.get d xi = Some (PyList l) ->
  is_some (PyDict.get d xj) = true -> is_some (table self xi xj) = true ->
  revise self a xi xj s =
    (Ret (negb (forallb (supported self d xi xj) l)),
     with_objs s (update (objs s) a
       (PyDict.set d xi (PyList (filter (supported self d xi xj) l))))).
Proof.
  intros Hd Hdi Hj Ht. unfold revise, bind at 1.
  rewrite (getitem_run _ _ _ _ Hd), Hdi. unfold bind at 1. simpl elems.
  pose proof (revise_loop_list _ _ _ _ _ _ Hd Hj Ht l false [] eq_refl) as Hloop.
  simpl app in Hloop. rewrite Hloop.
  simpl. unfold bind. rewrite (setitem_run _ _ _ _ _ Hd). reflexivity.
Qed.

Lemma inference_cons_list self fuel a xi xj q d s l ci :
  nth_error (objs s) a = Some d -> PyDict.get d xi = Some (PyList l) ->
  is_some (PyDict.get d xj) = true -> is_some (table self xi xj) = true ->
  PyDict.get (constraints self) xi = Some ci ->
  let l' := filter (supported self d xi xj) l in
  let s1 := with_objs s (update (objs s) a (PyDict.set d xi (PyList l'))) in
  inference (S fuel) self a ((xi, xj) :: q) s =
    if forallb (supported self d xi xj) l then inference fuel self a q s
    else match l' with
         | [] => (Ret false, s1)
         | _ :: _ =>
             inference fuel self a
               (q ++ requeue (map (fun e => (fst e, xi)) ci) xi xj) s1
         end.
Proof.
  intros Hd Hdi Hj Ht Hci l' s1. simpl inference. unfold bind at 1.
  rewrite (revise_list _ _ _ _ _ _ _ Hd Hdi Hj Ht). fold l'. fold s1.
  destruct (forallb (supported self d xi xj) l) eqn:Hall; cbn [negb]; cbv iota.
  - unfold s1, l'. rewrite (filter_all _ _ Hall).
    now rewrite (rebind_same _ _ _ _ _ Hd Hdi).
  - assert (Hd1 : nth_error (objs s1) a = Some (PyDict.set d xi (PyList l'))).
    { unfold s1. simpl. eapply nth_error_update_same; eassumption. }
    unfold bind at 1. rewrite (getitem_run _ _ _ _ Hd1), get_set_same.
    unfold len. simpl elems. destruct l' as [|y l0]; [reflexivity|].
    simpl Nat.eqb. cbv iota. unfold bind at 1.
    unfold get_all_neighboring_arcs. rewrite Hci. reflexivity.
Qed.

(** ** Propagation against an empty domain *)

Lemma all_lists_get d k dk :
  all_lists d = true -> PyDict.get d k = Some dk -> exists l, dk = PyList l.
Proof.
  unfold all_lists. rewrite forallb_forall. intros H Hk.
  apply get_In in Hk. specialize (H _ Hk). simpl in H.
  destruct dk; [eauto|discriminate].
Qed.

Lemma all_lists_rebind d xi v l :
  PyDict.get d xi = Some v -> all_lists d = true ->
  all_lists (PyDict.set d xi (PyList l)) = true.
Proof.
  intros H. destruct (get_split _ _ _ H) as (d1 & d2 & -> & Hs). rewrite Hs.
  unfold all_lists. rewrite !forallb_app. simpl.
  rewrite !andb_true_iff. tauto.
Qed.

Lemma is_some_get_set {V} (d : list (string * V)) k v k' :
  is_some (PyDict.get d k') = true ->
  is_some (PyDict.get (PyDict.set d k v) k') = true.
Proof.
  intros H. destruct (String.eqb_spec k k') as [->|N].
  - now rewrite get_set_same.
  - now rewrite get_set_other.
Qed.

Lemma registered_rebind self d xi v :
  registered self d -> registered self (PyDict.set d xi v).
Proof.
  intros H i j t Ht. destruct (H _ _ _ Ht). split; now apply is_some_get_set.
Qed.

Lemma product_nil_r {A B} (a : list A) : get_all_possible_pairs a (@nil B) = [].
Proof. unfold get_all_possible_pairs. induction a; simpl; auto. Qed.

Lemma filter_none {A} (f : A -> bool) l :
  (forall x, In x l -> f x = false) -> filter f l = [].
Proof.
  induction l as [|x l IH]; simpl; intros H; [reflexivity|].
  rewrite (H x (or_introl eq_refl)). apply IH. auto.
Qed.

Lemma supported_empty self d xi xj x dj :
  PyDict.get d xj = Some dj -> elems dj = [] ->
  supported self d xi xj x = false.
Proof.
  intros Hj He. unfold supported. rewrite Hj, He.
  destruct (table self xi xj) as [t|]; [|reflexivity].
  rewrite product_nil_r, filter_none; reflexivity.
Qed.

Lemma table_constraints self i j t :
  table self i j = Some t ->
  exists ci, PyDict.get (constraints self) i = Some ci /\ PyDict.get ci j = Some t.
Proof.
  unfold table. destruct (PyDict.get (constraints self) i); [eauto|discriminate].
Qed.

Lemma requeue_tables self xi xj ci :
  two_way self = true -> PyDict.get (constraints self) xi = Some ci ->
  forall i j,
    In (i, j) (requeue (map (fun e : var * list value_pair => (fst e, xi)) ci) xi xj) ->
    is_some (table self i j) = true.
Proof.
  intros Htwo Hci i j Hin. unfold requeue in Hin.
  apply in_map_iff in Hin. destruct Hin as ([k k'] & [= <- <-] & Hin).
  apply filter_In in Hin. destruct Hin as [Hin _].
  apply in_map_iff in Hin. destruct Hin as ([k0 t0] & [= <- <-] & Hin0).
  simpl. unfold two_way in Htwo. rewrite forallb_forall in Htwo.
  specialize (Htwo _ (get_In _ _ _ Hci)). simpl in Htwo.
  rewrite forallb_forall in Htwo. specialize (Htwo _ Hin0). simpl in Htwo.
  rewrite !andb_true_iff in Htwo. destruct Htwo as (((_ & Hm) & _) & _).
  unfold mirrored_arc in Hm.
  destruct (table self xi k0); [|discriminate].
  destruct (table self k0 xi); [reflexivity|discriminate].
Qed.

Lemma inference_empty_neighbour self a :
  two_way self = true ->
  forall fuel q s d,
    nth_error (objs s) a = Some d ->
    all_lists d = true -> registered self d ->
    (forall i j, In (i, j) q -> is_some (table self i j) = true) ->
    (exists F E x l, In (F, E) q /\ PyDict.get d E = Some (PyList []) /\
                     PyDict.get d F = Some (PyList (x :: l))) ->
    fst (inference fuel self a q s) = Ret false \/
    fst (inference fuel self a q s) = OutOfFuel.
Proof.
  intros Htwo. induction fuel as [|fuel IH]; intros q s d Hd Hal Hreg Hq HJ;
    [now right|].
  destruct q as [|[xi xj] q].
  { destruct HJ as (F & E & x & l & [] & _). }
  assert (Ht : is_some (table self xi xj) = true) by (apply Hq; now left).
  destruct (table self xi xj) as [t|] eqn:Htab; [|discriminate].
  destruct (Hreg _ _ _ Htab) as [Hi Hj].
  destruct (PyDict.get d xi) as [di|] eqn:Hdi; [|discriminate].
  destruct (all_lists_get _ _ _ Hal Hdi) as [l ->].
  destruct (table_constraints _ _ _ _ Htab) as (ci & Hci & _).
  assert (Ht' : is_some (table self xi xj) = true) by now rewrite Htab.
  rewrite (inference_cons_list self fuel a xi xj q d s l ci Hd Hdi Hj Ht' Hci).
  destruct HJ as (F & E & x & lF & HinJ & HE & HF).
  destruct (forallb (supported self d xi xj) l) eqn:Hall.
  - (* nothing removed: the witness arc is still waiting *)
    apply (IH q s d); auto.
    + intros i j Hin. apply Hq. now right.
    + exists F, E, x, lF. split; [|auto].
      destruct HinJ as [[= -> ->]|]; [|assumption].
      rewrite HF in Hdi. injection Hdi as <-.
      simpl in Hall. rewrite (supported_empty _ _ _ _ _ _ HE eq_refl) in Hall.
      discriminate.
  - destruct (filter (supported self d xi xj) l) as [|y l0] eqn:El'; [now left|].
    eapply IH.
    + simpl. eapply nth_error_update_same; eassumption.
    + eapply all_lists_rebind; eassumption.
    + now apply registered_rebind.
    + intros i j Hin. apply in_app_or in Hin. destruct Hin as [Hin|Hin].
      * apply Hq. now right.
      * eapply requeue_tables; eassumption.
    + assert (NE : E <> xi).
      { intros ->. rewrite HE in Hdi. injection Hdi as <-. discriminate. }
      destruct HinJ as [[= -> ->]|HinJ].
      { (* the head was the witness: everything is removed *)
        rewrite filter_none in El'; [discriminate|].
        intros v _. eapply supported_empty; eauto. }
      destruct (String.eqb_spec F xi) as [->|NF].
      * exists xi, E, y, l0. split; [apply in_or_app; now left|].
        split; [rewrite get_set_other; congruence|apply get_set_same].
      * exists F, E, x, lF. split; [apply in_or_app; now left|].
        split; rewrite get_set_other; congruence.
Qed.

Lemma get_domains_copy self k :
  PyDict.get (domains_copy self) k = option_map PyList (PyDict.get (domains self) k).
Proof.
  unfold domains_copy. induction (domains self) as [|[k' l] ds IH]; simpl; auto.
  destruct (String.eqb k k'); auto.
Qed.

Lemma all_lists_domains_copy self : all_lists (domains_copy self) = true.
Proof.
  unfold all_lists, domains_copy. apply forallb_forall.
  intros e He. apply in_map_iff in He. destruct He as (e0 & <- & _). reflexivity.
Qed.

Lemma registered_domains_copy self :
  two_way self = true -> registered self (domains_copy self).
Proof.
  intros Htwo i j t Ht. rewrite !get_domains_copy.
  destruct (table_constraints _ _ _ _ Ht) as (ci & Hci & Hj).
  unfold two_way in Htwo. rewrite forallb_forall in Htwo.
  specialize (Htwo _ (get_In _ _ _ Hci)). simpl in Htwo.
  rewrite forallb_forall in Htwo. specialize (Htwo _ (get_In _ _ _ Hj)).
  simpl in Htwo. rewrite !andb_true_iff in Htwo.
  destruct Htwo as ((_ & Hmi) & Hmj).
  apply mem_get in Hmi. apply mem_get in Hmj.
  destruct Hmi as [vi ->], Hmj as [vj ->]. auto.
Qed.

Lemma all_arcs_table self i j :
  two_way self = true -> In (i, j) (get_all_arcs self) ->
  is_some (table self i j) = true.
Proof.
  intros Htwo Hin. unfold get_all_arcs in Hin. apply in_flat_map in Hin.
  destruct Hin as ([i0 ci] & Hi & Hin). apply in_map_iff in Hin.
  destruct Hin as ([j0 t] & [= <- <-] & Hj). simpl.
  unfold two_way in Htwo. rewrite forallb_forall in Htwo.
  specialize (Htwo _ Hi). simpl in Htwo. rewrite forallb_forall in Htwo.
  specialize (Htwo _ Hj). simpl in Htwo. rewrite !andb_true_iff in Htwo.
  destruct Htwo as (((_ & Hm) & _) & _). unfold mirrored_arc in Hm.
  destruct (table self i0 j0); [reflexivity|discriminate].
Qed.

Lemma nth_error_new self_d (s : store) :
  nth_error (objs (snd (new_dict self_d s))) (length (objs s)) = Some self_d.
Proof.
  simpl. rewrite nth_error_app2 by lia. now rewrite Nat.sub_diag.
Qed.

(** ** Objects that a computation leaves alone *)

Lemma keeps_refl n s : keeps n s s.
Proof. split; auto. Qed.

Lemma keeps_same_objs n s s' : objs s' = objs s -> keeps n s s'.
Proof. intros E. unfold keeps. rewrite E. auto. Qed.

Lemma keeps_trans n s1 s2 s3 : keeps n s1 s2 -> keeps n s2 s3 -> keeps n s1 s3.
Proof.
  intros [H1 L1] [H2 L2]. split; [|lia].
  intros b Hb. rewrite H2, H1; auto.
Qed.

Lemma keeps_weaken n m s s' : n <= m -> keeps m s s' -> keeps n s s'.
Proof. intros Hle [H L]. split; [|assumption]. intros b Hb. apply H. lia. Qed.

Lemma keeps_update n s a d : n <= a -> keeps n s (with_objs s (update (objs s) a d)).
Proof.
  intros Hle. split; simpl.
  - intros b Hb. apply nth_error_update_other. lia.
  - now rewrite length_update.
Qed.

Lemma keeps_bind {A B} n s0 s (m : M A) (k : A -> M B) :
  keeps n s0 s ->
  keeps n s (snd (m s)) ->
  (forall x s1, m s = (Ret x, s1) -> keeps n s0 s1 -> keeps n s0 (snd (k x s1))) ->
  keeps n s0 (snd (bind m k s)).
Proof.
  intros H0 Hm Hk. unfold bind. destruct (m s) as [[x|e|] s1] eqn:E; simpl in *.
  - apply Hk; [reflexivity|]. eapply keeps_trans; eassumption.
  - eapply keeps_trans; eassumption.
  - eapply keeps_trans; eassumption.
Qed.

Lemma deref_same a s : snd (deref a s) = s.
Proof. unfold deref. destruct (nth_error (objs s) a); reflexivity. Qed.

Lemma deref_ret a s d s1 :
  deref a s = (Ret d, s1) -> s1 = s /\ nth_error (objs s) a = Some d.
Proof.
  unfold deref. destruct (nth_error (objs s) a); intros [= <- <-]; auto.
Qed.

Lemma getitem_same a k s : snd (getitem a k s) = s.
Proof.
  unfold getitem, bind, deref. destruct (nth_error (objs s) a) as [d|]; [|reflexivity].
  destruct (PyDict.get d k); reflexivity.
Qed.

Lemma keeps_setitem n a k v s : n <= a -> keeps n s (snd (setitem a k v s)).
Proof.
  intros Hle. unfold setitem, bind, deref, assign.
  destruct (nth_error (objs s) a); simpl; [now apply keeps_update|apply keeps_refl].
Qed.

Lemma keeps_delitem n a k s : n <= a -> keeps n s (snd (delitem a k s)).
Proof.
  intros Hle. unfold delitem, bind, deref, assign.
  destruct (nth_error (objs s) a); simpl; [now apply keeps_update|apply keeps_refl].
Qed.

Lemma keeps_new_dict n d s : n <= length (objs s) -> keeps n s (snd (new_dict d s)).
Proof.
  intros Hle. split; simpl.
  - intros b Hb. apply nth_error_app1. lia.
  - rewrite length_app. lia.
Qed.

Lemma keeps_deepcopy n a s : n <= length (objs s) -> keeps n s (snd (deepcopy a s)).
Proof.
  intros Hle. unfold deepcopy, bind, deref.
  destruct (nth_error (objs s) a); [now apply keeps_new_dict|apply keeps_refl].
Qed.

Lemma deepcopy_ret a s na s1 :
  deepcopy a s = (Ret na, s1) -> na = length (objs s).
Proof.
  unfold deepcopy, bind, deref, new_dict.
  destruct (nth_error (objs s) a); intros [= <- <-]; reflexivity.
Qed.

Lemma keeps_inference n fuel self a q s :
  n <= a -> keeps n s (snd (inference fuel self a q s)).
Proof.
  intros Hle. destruct (inference fuel self a q s) as [r s'] eqn:E.
  apply inference_effect in E. simpl.
  destruct E as [->|(d & d' & _ & -> & _)]; [apply keeps_refl|now apply keeps_update].
Qed.

Lemma keeps_truthy n r s : keeps n s (snd (truthy r s)).
Proof.
  destruct r as [a|]; simpl; [|apply keeps_refl].
  unfold bind, deref. destruct (nth_error (objs s) a); apply keeps_refl.
Qed.

Lemma keeps_length n s s' : keeps n s s' -> length (objs s) <= length (objs s').
Proof. now intros [_ H]. Qed.

Section Isolation.
Variables (rec : loc -> M (option loc)).
Hypothesis Hrec : forall a s, keeps (length (objs s)) s (snd (rec a s)).

Lemma try_value_keeps fuel self a v val s :
  keeps (length (objs s)) s (snd (try_value rec fuel self a v val s)).
Proof.
  unfold try_value. set (n := length (objs s)).
  apply keeps_bind; [apply keeps_refl|now apply keeps_deepcopy|].
  intros na s1 Hcopy K1. apply deepcopy_ret in Hcopy. fold n in Hcopy. subst na.
  apply keeps_bind; [assumption|now apply keeps_setitem|].
  intros _ s2 _ K2.
  apply keeps_bind; [assumption|now apply keeps_inference|].
  intros ok s3 _ K3.
  apply keeps_bind; [assumption| |].
  - destruct ok; [|apply keeps_refl].
    apply keeps_bind; [apply keeps_refl| |].
    + eapply keeps_weaken; [|apply Hrec]. apply (keeps_length _ _ _ K3).
    + intros result s4 _ K4.
      apply keeps_bind; [assumption|apply keeps_truthy|].
      intros t s5 _ K5. exact K5.
  - intros found s4 _ K4. destruct found as [r|]; [exact K4|].
    apply keeps_bind; [assumption|rewrite deref_same; apply keeps_refl|].
    intros na' s5 _ K5.
    apply keeps_bind; [assumption| |].
    + destruct (PyDict.mem v na'); [now apply keeps_delitem|apply keeps_refl].
    + intros _ s6 _ K6. exact K6.
Qed.

Lemma for_values_keeps fuel self a v : forall vals s,
  keeps (length (objs s)) s
    (snd (for_values (try_value rec fuel self a v) vals s)).
Proof.
  induction vals as [|val vals IH]; intros s; [apply keeps_refl|].
  simpl. apply keeps_bind; [apply keeps_refl|apply try_value_keeps|].
  intros found s1 _ K1. destruct found as [r|]; [exact K1|].
  eapply keeps_trans; [exact K1|].
  eapply keeps_weaken; [|apply IH]. apply (keeps_length _ _ _ K1).
Qed.
End Isolation.

Lemma backtrack_keeps self : forall fuel a s,
  keeps (length (objs s)) s (snd (backtrack fuel self a s)).
Proof.
  induction fuel as [|fuel IH]; intros a s; [apply keeps_refl|].
  simpl. set (n := length (objs s)).
  apply keeps_bind; [apply keeps_refl|rewrite deref_same; apply keeps_refl|].
  intros d s1 _ K1. destruct (complete d); [exact K1|].
  apply keeps_bind; [assumption|now apply keeps_same_objs|].
  intros _ s2 _ K2.
  apply keeps_bind; [assumption| |].
  { unfold select_unassigned_variable, bind.
    pose proof (deref_same a s2) as E. destruct (deref a s2) as [[x|e|] s3];
      simpl in *; subst; apply keeps_refl. }
  intros sel s3 _ K3. destruct sel as [v|]; [|exact K3].
  apply keeps_bind; [assumption|rewrite getitem_same; apply keeps_refl|].
  intros dv s4 _ K4.
  apply keeps_bind; [assumption| |].
  - eapply keeps_weaken; [|apply for_values_keeps; exact IH].
    apply (keeps_length _ _ _ K4).
  - intros found s5 _ K5. destruct found as [r|]; [exact K5|].
    apply keeps_bind; [assumption|now apply keeps_same_objs|].
    intros _ s6 _ K6. exact K6.
Qed.

(** ** What a failed propagation leaves behind *)

Lemma revise_each_cons self a xi xj arcs s b s1 :
  revise self a xi xj s = (Ret b, s1) ->
  revise_each self a ((xi, xj) :: arcs) s = revise_each self a arcs s1.
Proof. intros H. simpl. unfold bind. now rewrite H. Qed.

Lemma inference_false_trace self a : forall fuel q s s',
  inference fuel self a q s = (Ret false, s') ->
  exists processed xi xj waiting requeued,
    q ++ requeued = processed ++ (xi, xj) :: waiting /\
    revise_each self a (processed ++ [(xi, xj)]) s = (Ret tt, s') /\
    exists d d' di,
      nth_error (objs s) a = Some d /\ nth_error (objs s') a = Some d' /\
      PyDict.get d' xi = Some (PyList []) /\
      PyDict.get d xi = Some di /\ elems di <> [].
Proof.
  induction fuel as [|fuel IH]; intros q s s' Hrun; [discriminate|].
  destruct q as [|[x1 x2] q]; [discriminate|].
  apply inference_cons in Hrun.
  destruct Hrun as [(e & [=] & _)|(d & di & Hd & Hdi & Hcase)].
  destruct Hcase as [[Hall Hrun]|(l & ci & x & -> & Hx & Hfx & Hci & Hj & Ht & Hcase)].
  - (* nothing removed from [x1] *)
    assert (Hrev : revise self a x1 x2 s = (Ret false, s)).
    { apply (revise_arc_ok _ _ _ _ d); [assumption|].
      exists di. split; [assumption|]. now apply forallb_forall. }
    destruct (IH _ _ _ Hrun)
      as (p & xi & xj & w & rq & Hq & Heach & d0 & d' & di0 & Hd0 & Hrest).
    exists ((x1, x2) :: p), xi, xj, w, rq. split; [simpl; now rewrite Hq|].
    split; [|eauto 10].
    simpl app. now rewrite (revise_each_cons _ _ _ _ _ _ _ _ Hrev).
  - cbv zeta in Hcase.
    pose proof (revise_list _ _ _ _ _ _ _ Hd Hdi Hj Ht) as Hrev.
    set (l' := filter (supported self d x1 x2) l) in *.
    set (s1 := with_objs s (update (objs s) a (PyDict.set d x1 (PyList l')))) in *.
    assert (Hd1 : nth_error (objs s1) a = Some (PyDict.set d x1 (PyList l'))).
    { unfold s1. simpl. eapply nth_error_update_same; eassumption. }
    destruct Hcase as [(El' & _ & ->)|(Nl' & Hrun)].
    + (* the failing arc *)
      exists [], x1, x2, q, []. split; [now rewrite app_nil_r|]. split.
      * simpl. unfold bind. rewrite Hrev. reflexivity.
      * exists d, (PyDict.set d x1 (PyList l')), (PyList l).
        split; [assumption|]. split; [assumption|]. split.
        -- rewrite get_set_same. now rewrite El'.
        -- split; [assumption|]. simpl. intros ->. contradiction.
    + destruct (IH _ _ _ Hrun)
        as (p & xi & xj & w & rq & Hq & Heach & d0 & d' & di0 & Hd0 & Hd' & He & Hdi0 & Hne).
      rewrite Hd1 in Hd0. injection Hd0 as <-.
      exists ((x1, x2) :: p), xi, xj, w,
        (requeue (map (fun e : var * list value_pair => (fst e, x1)) ci) x1 x2 ++ rq).
      split; [simpl; rewrite <- Hq; now rewrite app_assoc|].
      split.
      * simpl app. now rewrite (revise_each_cons _ _ _ _ _ _ _ _ Hrev).
      * destruct (String.eqb_spec x1 xi) as [->|N].
        -- exists d, d', (PyList l). repeat (split; [assumption|]).
           simpl. intros ->. rewrite get_set_same in Hdi0.
           injection Hdi0 as <-. now apply Hne.
        -- rewrite get_set_other in Hdi0 by assumption.
           exists d, d', di0. auto.
Qed.

Lemma backtracking_search_after_inference fuel self s b s1 :
  inference fuel self (length (objs s)) (get_all_arcs self)
            (snd (new_dict (domains_copy self) s)) = (Ret b, s1) ->
  backtracking_search fuel self s = backtrack fuel self (length (objs s)) s1.
Proof.
  intros H. unfold backtracking_search, bind, new_dict in *.
  cbn [snd] in H. now rewrite H.
Qed.

(** ** [add_variable] and [add_constraint_one_way] *)

Lemma add_constraint_one_way_empty self i j f self' :
  PyDict.get (domains self) i = Some [] \/ PyDict.get (domains self) j = Some [] ->
  table self i j = None ->
  add_constraint_one_way self i j f = inr self' ->
  table self' i j = Some [].
Proof.
  intros Hempty Hnew Hadd. unfold add_constraint_one_way in Hadd.
  unfold table in Hnew.
  destruct (PyDict.get (constraints self) i) as [ci|] eqn:Hci; [|discriminate].
  rewrite Hnew in Hadd.
  destruct (PyDict.get (domains self) i) as [di|] eqn:Hdi; [|discriminate].
  destruct (PyDict.get (domains self) j) as [dj|] eqn:Hdj; [|discriminate].
  injection Hadd as <-. unfold table. simpl.
  rewrite get_set_same, get_set_same.
  destruct Hempty as [[= ->]|[= ->]].
  - reflexivity.
  - now rewrite product_nil_r.
Qed.

(** ** [backtrack] on a complete assignment *)

Lemma complete_spec d :
  complete d = true <-> forall k v, In (k, v) d -> len v <= 1.
Proof.
  unfold complete, PyDict.values. rewrite forallb_forall. split.
  - intros H k v Hin. specialize (H v (in_map snd _ _ Hin)).
    apply negb_true_iff, Nat.ltb_ge in H. exact H.
  - intros H v Hin. apply in_map_iff in Hin. destruct Hin as ([k v'] & <- & Hin).
    apply negb_true_iff, Nat.ltb_ge. eapply H. exact Hin.
Qed.

Lemma backtrack_complete self fuel a s d :
  nth_error (objs s) a = Some d -> complete d = true ->
  backtrack (S fuel) self a s = (Ret (Some a), s).
Proof.
  intros Hd Hc. simpl. unfold bind. rewrite (deref_run _ _ _ Hd), Hc. reflexivity.
Qed.

(** ** Which dictionary [backtrack] returns *)

Lemma bind_ret_inv {A B} (m : M A) (k : A -> M B) s b s' :
  bind m k s = (Ret b, s') ->
  exists x s1, m s = (Ret x, s1) /\ k x s1 = (Ret b, s').
Proof.
  unfold bind. destruct (m s) as [[x|e|] s1]; try discriminate. eauto.
Qed.

Section Results.
Variables (rec : loc -> M (option loc)).
Hypothesis Hkeeps : forall a s, keeps (length (objs s)) s (snd (rec a s)).
Hypothesis Hfresh : forall a s r s',
  rec a s = (Ret (Some r), s') -> r = a \/ length (objs s) <= r.

(** What a branch returns is its own copy or a later one. *)
Lemma try_value_result fuel self a v val s r s' :
  try_value rec fuel self a v val s = (Ret (Some r), s') ->
  length (objs s) <= r.
Proof.
  unfold try_value. intros H.
  apply bind_ret_inv in H. destruct H as (na & s1 & Hcopy & H).
  pose proof (keeps_deepcopy (length (objs s)) a s (le_n _)) as K1.
  rewrite Hcopy in K1. apply deepcopy_ret in Hcopy. subst na.
  apply bind_ret_inv in H. destruct H as ([] & s2 & Hset & H).
  pose proof (keeps_setitem (length (objs s)) (length (objs s)) v (PyStr val) s1
                (le_n _)) as K2.
  rewrite Hset in K2.
  apply bind_ret_inv in H. destruct H as (ok & s3 & Hinf & H).
  pose proof (keeps_inference (length (objs s)) fuel self (length (objs s))
                (get_all_arcs self) s2 (le_n _)) as K3.
  rewrite Hinf in K3.
  assert (L3 : length (objs s) <= length (objs s3)).
  { apply keeps_length in K1, K2, K3. simpl in *. lia. }
  apply bind_ret_inv in H. destruct H as (found & s4 & Hfound & H).
  destruct found as [r0|].
  - injection H as -> _. destruct ok; [|discriminate].
    apply bind_ret_inv in Hfound. destruct Hfound as (result & s5 & Hr & Hfound).
    apply bind_ret_inv in Hfound. destruct Hfound as (t & s6 & _ & Hfound).
    injection Hfound as Hres _. destruct t; [|discriminate]. subst result.
    destruct (Hfresh _ _ _ _ Hr) as [->|Hle]; lia.
  - apply bind_ret_inv in H. destruct H as (na' & s5 & _ & H).
    apply bind_ret_inv in H. destruct H as (u & s6 & _ & H). discriminate.
Qed.

Lemma for_values_result fuel self a v : forall vals s r s',
  for_values (try_value rec fuel self a v) vals s = (Ret (Some r), s') ->
  length (objs s) <= r.
Proof.
  induction vals as [|val vals IH]; intros s r s' H; [discriminate|].
  simpl in H. apply bind_ret_inv in H. destruct H as (found & s1 & Hbody & H).
  destruct found as [r0|].
  - injection H as -> _. eapply try_value_result; eassumption.
  - apply IH in H.
    pose proof (try_value_keeps rec Hkeeps fuel self a v val s) as K.
    rewrite Hbody in K. apply keeps_length in K. simpl in K. lia.
Qed.
End Results.

Lemma backtrack_result self : forall fuel a s r s',
  backtrack fuel self a s = (Ret (Some r), s') ->
  (r = a /\ exists d, nth_error (objs s) a = Some d /\ complete d = true) \/
  length (objs s) <= r.
Proof.
  induction fuel as [|fuel IH]; intros a s r s' H; [discriminate|].
  simpl in H. apply bind_ret_inv in H. destruct H as (d & s1 & Hd & H).
  apply deref_ret in Hd. destruct Hd as [-> Hd].
  destruct (complete d) eqn:Hc.
  - injection H as <- _. left. eauto.
  - right. apply bind_ret_inv in H. destruct H as ([] & s2 & Hincr & H).
    injection Hincr as <-.
    apply bind_ret_inv in H. destruct H as (sel & s3 & Hsel & H).
    unfold select_unassigned_variable in Hsel.
    apply bind_ret_inv in Hsel. destruct Hsel as (d2 & s4 & Hd2 & Hsel).
    apply deref_ret in Hd2. destruct Hd2 as [-> _]. injection Hsel as _ <-.
    destruct sel as [v|]; [|discriminate].
    apply bind_ret_inv in H. destruct H as (dv & s5 & Hdv & H).
    pose proof (getitem_same a v
                  (mkStore (objs s) (S (number_of_backtracks s))
                           (number_of_backtracks_failed s))) as E.
    rewrite Hdv in E. simpl in E. subst s5.
    apply bind_ret_inv in H. destruct H as (found & s6 & Hloop & H).
    destruct found as [r0|].
    + injection H as -> _.
      apply (for_values_result (backtrack fuel self)) in Hloop; [exact Hloop| |].
      * apply backtrack_keeps.
      * intros a0 s0 r1 s1 Hb. destruct (IH _ _ _ _ Hb) as [[-> _]|]; auto.
    + apply bind_ret_inv in H. destruct H as (u & s7 & _ & H). discriminate.
Qed.

(** [backtrack] hands back the dictionary it was given exactly when no
    domain in it has more than one value. *)
Lemma backtrack_returns_argument_iff self fuel a s d :
  nth_error (objs s) a = Some d ->
  (fst (backtrack (S fuel) self a s) = Ret (Some a) <-> complete d = true).
Proof.
  intros Hd. split.
  - destruct (backtrack (S fuel) self a s) as [r s'] eqn:Hrun. simpl.
    intros ->. destruct (backtrack_result _ _ _ _ _ _ Hrun)
      as [(_ & d0 & Hd0 & Hc)|Hle].
    + congruence.
    + assert (a < length (objs s)) by (apply nth_error_Some; congruence). lia.
  - intros Hc. now rewrite (backtrack_complete _ _ _ _ _ Hd Hc).
Qed.

(** ** [revise] on one-character values *)

(** Where no value is longer than one character and [xi] holds a list,
    [revise] keeps the values that have support in the stored table of
    [(xi, xj)], in their order, and tells whether one was dropped. *)
Lemma revise_on_one_character_values self a xi xj s d l :
  nth_error (objs s) a = Some d -> PyDict.get d xi = Some (PyList l) ->
  is_some (PyDict.get d xj) = true -> is_some (table self xi xj) = true ->
  single_chars d = true ->
  exists l',
    revise self a xi xj s =
      (Ret (negb (length l' =? length l)%nat),
       with_objs s (update (objs s) a (PyDict.set d xi (PyList l')))) /\
    Subseq l' l /\
    forall v, In v l' <-> In v l /\ has_support self d xi xj v.
Proof.
  intros Hd Hdi Hj Ht Hsc.
  exists (filter (supported self d xi xj) l).
  rewrite (revise_list _ _ _ _ _ _ _ Hd Hdi Hj Ht).
  split; [|split; [apply Subseq_filter|]].
  - f_equal. f_equal.
    destruct (forallb (supported self d xi xj) l) eqn:Hall; simpl.
    + rewrite (filter_all _ _ Hall). now rewrite Nat.eqb_refl.
    + destruct (forallb_false_ex _ _ Hall) as (x & Hx & Hfx).
      pose proof (filter_length_lt _ _ _ Hx Hfx) as Hlt.
      symmetry. apply negb_true_iff, Nat.eqb_neq. lia.
  - intros v. rewrite filter_In. split; intros [Hin Hs]; split; auto.
    + apply supported_has_support; [|assumption].
      eapply single_chars_spec; eauto.
    + apply supported_has_support; [|assumption].
      eapply single_chars_spec; eauto.
Qed.

(** ** A revision either removes a value or changes nothing *)

Lemma revise_shrinks_or_unchanged self a xi xj s b s1 d :
  nth_error (objs s) a = Some d ->
  revise self a xi xj s = (Ret b, s1) ->
  if b then total (obj_at s1 a) < total d else s1 = s.
Proof.
  intros Hd Hrun. apply revise_spec in Hrun.
  destruct Hrun as (d0 & di & Hd0 & Hdi & -> & Hb & Hlist & _).
  rewrite Hd in Hd0. injection Hd0 as <-.
  destruct (forallb (supported self d xi xj) (elems di)) eqn:Hall;
    simpl in Hb; subst b.
  - now rewrite (dom_filter_id _ _ Hall), (rebind_same _ _ _ _ _ Hd Hdi).
  - specialize (Hlist eq_refl). destruct di as [l|s0]; [|discriminate].
    simpl in Hall |- *. destruct (forallb_false_ex _ _ Hall) as (x & Hx & Hfx).
    unfold obj_at. simpl objs.
    rewrite (nth_error_nth _ _ _ (nth_error_update_same _ _ _ _ Hd)).
    pose proof (total_rebind d xi l (filter (supported self d xi xj) l) Hdi).
    pose proof (filter_length_lt _ _ _ Hx Hfx). lia.
Qed.

(** ** Why the values must be short and the tables mirror images *)

(** On a two-way model with the value ['pq'], a pass over all arcs
    returns true and leaves ['1'] in [I] while [J] holds only ['1']; a
    second pass removes it. *)
Lemma long_value_survives_full_pass :
  two_way csp_long_value = true /\
  inference 10 csp_long_value 0 (get_all_arcs csp_long_value)
    (root_store csp_long_value)
    = (Ret true, mkStore [[("I", PyList ["1"; "3"]); ("J", PyList ["1"])]] 0 0) /\
  table csp_long_value "I" "J" = Some [("1", "pq"); ("3", "pq"); ("3", "1")] /\
  inference 10 csp_long_value 0 (get_all_arcs csp_long_value)
    (mkStore [[("I", PyList ["1"; "3"]); ("J", PyList ["1"])]] 0 0)
    = (Ret true, mkStore [[("I", PyList ["3"]); ("J", PyList ["1"])]] 0 0).
Proof. repeat split; vm_compute; reflexivity. Qed.

(** With tables that are not mirror images, a pass over all arcs returns
    true and leaves ['1'] in [A] although its only partner in the table
    of [(A, B)], the value ['1'] of [B], has been removed. *)
Lemma not_mirrored_survives_full_pass :
  two_way csp_not_mirrored = false /\
  inference 10 csp_not_mirrored 0 (get_all_arcs csp_not_mirrored)
    (root_store csp_not_mirrored)
    = (Ret true, mkStore [[("A", PyList ["1"]); ("B", PyList ["2"])]] 0 0) /\
  table csp_not_mirrored "A" "B" = Some [("1", "1")].
Proof. repeat split; vm_compute; reflexivity. Qed.

(** With a variable constrained against itself, a pass over all arcs
    returns true and leaves ['2'] alone in [X], where the table of
    [(X, X)] pairs it only with ['1']: the arc [(X, X)] is never put
    back in the queue. *)
Lemma self_constraint_survives_full_pass :
  two_way csp_self = false /\
  inference 10 csp_self 0 (get_all_arcs csp_self) (root_store csp_self)
    = (Ret true, mkStore [[("X", PyList ["2"]); ("Y", PyList ["1"])]] 0 0) /\
  table csp_self "X" "X" = Some [("1", "2"); ("2", "1")].
Proof. repeat split; vm_compute; reflexivity. Qed.

(** * The claims *)

(** C1, evaluated where the code departs from it.  With [A = ['1']],
    [B = ['1']] and an all-different constraint the pre-search pass of
    [backtracking_search] fails, but its result is dropped and the call
    returns a dictionary whose entry for [A] is empty; on a Sudoku grid
    whose first row is [055000000] the call ends in [AttributeError]. *)
Theorem C1_failed_presearch_not_reported :
  fst (inference 50 csp_two_fixed 0 (get_all_arcs csp_two_fixed)
         (root_store csp_two_fixed)) = Ret false /\
  solve 50 csp_two_fixed = Ret (Some [("A", PyList []); ("B", PyList ["1"])]) /\
  solve 100 csp_sudoku_two_fives = Raise (AttributeError "remove").
Proof. repeat split; vm_compute; reflexivity. Qed.

(** C2, evaluated where the code departs from it.  [backtrack] returns
    the assignment it is given although the domain of [A] holds no
    value, and [backtracking_search] hands that dictionary to its
    caller. *)
Theorem C2_backtrack_returns_empty_domain :
  let s := mkStore [[("A", PyList []); ("B", PyList ["1"])]] 0 0 in
  backtrack 50 csp_two_fixed 0 s = (Ret (Some 0), s) /\
  solve 50 csp_two_fixed = Ret (Some [("A", PyList []); ("B", PyList ["1"])]).
Proof. split; vm_compute; reflexivity. Qed.

(** C3, evaluated where the code departs from it.  On the map-colouring
    problem, [revise] of the arc [(SA, WA)] removes the three colours
    from the domain of [SA], although each of them has support in the
    stored table of [(SA, WA)]. *)
Theorem C3_revise_drops_supported_values :
  let s := root_store csp_map_coloring in
  fst (revise csp_map_coloring 0 "SA" "WA" s) = Ret true /\
  PyDict.get (obj_at (snd (revise csp_map_coloring 0 "SA" "WA" s)) 0) "SA"
    = Some (PyList []) /\
  PyDict.get (obj_at s 0) "SA" = Some (PyList ["red"; "green"; "blue"]) /\
  has_support csp_map_coloring (obj_at s 0) "SA" "WA" "red" /\
  has_support csp_map_coloring (obj_at s 0) "SA" "WA" "green" /\
  has_support csp_map_coloring (obj_at s 0) "SA" "WA" "blue".
Proof.
  cbv zeta. repeat split; try (vm_compute; reflexivity).
  - exists (PyList ["red"; "green"; "blue"]),
      [("red", "green"); ("red", "blue"); ("green", "red");
       ("green", "blue"); ("blue", "red"); ("blue", "green")], "green".
    repeat split; try (vm_compute; reflexivity); simpl; tauto.
  - exists (PyList ["red"; "green"; "blue"]),
      [("red", "green"); ("red", "blue"); ("green", "red");
       ("green", "blue"); ("blue", "red"); ("blue", "green")], "red".
    repeat split; try (vm_compute; reflexivity); simpl; tauto.
  - exists (PyList ["red"; "green"; "blue"]),
      [("red", "green"); ("red", "blue"); ("green", "red");
       ("green", "blue"); ("blue", "red"); ("blue", "green")], "red".
    repeat split; try (vm_compute; reflexivity); simpl; tauto.
Qed.

(** C4 does not hold as it is worded: with an empty initial queue [inference] returns
    true at once, and the value ['1'] of [A] stays although [B] holds
    only ['1']. *)
Lemma C4_counterexample : ~ consistent_after_every_success.
Proof.
  intros H.
  assert (Hrun : inference 1 csp_ab 0 [] (root_store csp_ab)
                 = (Ret true, root_store csp_ab)) by reflexivity.
  specialize (H csp_ab 1 0 [] _ _ (domains_copy csp_ab) Hrun eq_refl).
  destruct (H "A" "B" [("2", "1")] (PyList ["1"; "2"]) "1" eq_refl eq_refl
              (or_introl eq_refl))
    as (dj & t & w & Hj & Ht & Hw & Hp).
  vm_compute in Ht. injection Ht as <-.
  destruct Hp as [Hp|[]]. discriminate.
Qed.

(** C4, in the form that holds of the code.  When the queue starts with all arcs of the model (as
    in both calls of the source), the constraint tables are stored
    two-way as mirror images, and the values are one-character strings,
    then after [inference] has returned true every value that remains in
    [assignment[i]] has a value [w] in [assignment[j]] with [(v, w)] in
    the stored table of [(i, j)], for every constrained pair. *)
Theorem C4_inference_arc_consistent self fuel a s s' d :
  two_way self = true ->
  nth_error (objs s) a = Some d ->
  single_chars d = true ->
  inference fuel self a (get_all_arcs self) s = (Ret true, s') ->
  exists d', nth_error (objs s') a = Some d' /\ arc_consistent self d'.
Proof.
  intros Htwo Hd Hsc Hrun.
  destruct (inference_establishes_arc_ok self a Htwo fuel (get_all_arcs self)
              s s' d Hd Hsc)
    as (d' & Hd' & Hsc' & Hok); [|assumption|].
  - intros i j t Ht. left. eapply table_in_all_arcs; eassumption.
  - exists d'. split; [assumption|].
    intros i j t di v Ht Hi Hv.
    destruct (Hok _ _ _ Ht) as (di' & Hi' & Hall).
    rewrite Hi in Hi'. injection Hi' as <-.
    apply supported_has_support; [|now apply Hall].
    eapply single_chars_spec; eassumption.
Qed.

Lemma C4_witness :
  two_way csp_ab = true /\
  nth_error (objs (root_store csp_ab)) 0 = Some (domains_copy csp_ab) /\
  single_chars (domains_copy csp_ab) = true /\
  inference 10 csp_ab 0 (get_all_arcs csp_ab) (root_store csp_ab)
    = (Ret true, mkStore [[("A", PyList ["2"]); ("B", PyList ["1"])]] 0 0) /\
  exists d',
    nth_error (objs (mkStore [[("A", PyList ["2"]); ("B", PyList ["1"])]] 0 0)) 0
      = Some d' /\
    arc_consistent csp_ab d'.
Proof.
  split; [reflexivity|]. split; [reflexivity|]. split; [reflexivity|].
  split; [reflexivity|].
  apply (C4_inference_arc_consistent csp_ab 10 0 (root_store csp_ab) _
           (domains_copy csp_ab)); reflexivity.
Defined.

(** C5.  A branch of [backtrack] (clone, collapse, propagate, recurse,
    discard) works on a dictionary that did not exist before, holding
    what the parent's held; whatever it and the calls below it do, every
    dictionary that existed before the branch, the parent's assignment
    and those of earlier branches among them, is the same afterwards;
    and so it is for a whole [backtrack] call. *)
Theorem C5_branch_isolation self fuel a v val s b d :
  nth_error (objs s) b = Some d ->
  nth_error (objs (snd (try_value (backtrack fuel self) fuel self a v val s))) b
    = Some d /\
  nth_error (objs (snd (backtrack fuel self a s))) b = Some d /\
  (forall na s1, deepcopy a s = (Ret na, s1) ->
     nth_error (objs s) na = None /\
     nth_error (objs s1) na = nth_error (objs s) a).
Proof.
  intros Hb.
  assert (Hlt : b < length (objs s)) by (apply nth_error_Some; congruence).
  split; [|split].
  - destruct (try_value_keeps _ (backtrack_keeps self fuel) fuel self a v val s)
      as [H _].
    now rewrite H.
  - destruct (backtrack_keeps self fuel a s) as [H _]. now rewrite H.
  - intros na s1 Hcopy. unfold deepcopy, bind, deref, new_dict in Hcopy.
    destruct (nth_error (objs s) a) as [da|]; [|discriminate].
    injection Hcopy as <- <-. split.
    + apply nth_error_None. lia.
    + simpl. rewrite nth_error_app2 by lia. now rewrite Nat.sub_diag.
Qed.

Lemma C5_witness :
  nth_error (objs (root_store csp_abc)) 0 = Some (domains_copy csp_abc) /\
  nth_error (objs (snd (try_value (backtrack 50 csp_abc) 50 csp_abc 0 "B" "1"
                          (root_store csp_abc)))) 0
    = Some (domains_copy csp_abc) /\
  nth_error (objs (snd (backtrack 50 csp_abc 0 (root_store csp_abc)))) 0
    = Some (domains_copy csp_abc) /\
  fst (backtrack 50 csp_abc 0 (root_store csp_abc)) = Ret (Some 1).
Proof.
  split; [reflexivity|].
  destruct (C5_branch_isolation csp_abc 50 0 "B" "1" (root_store csp_abc) 0
              (domains_copy csp_abc) eq_refl) as (H1 & H2 & _).
  split; [exact H1|]. split; [exact H2|]. vm_compute. reflexivity.
Defined.

(** C6.  The [while] loop of [inference] terminates on every model,
    assignment and queue.  Arcs are put back in the queue only after a
    [revise] that returned true, and such a call leaves strictly fewer
    values in the assignment, while one that returns false changes
    nothing.  So with the fuel [inference_bound] gives (the length of
    the queue plus the number of values in the assignment times the
    largest number of neighbours), or more, the loop is never cut short:
    it ends with the queue drained (true), with an empty domain (false),
    or with the exception of a failed lookup. *)
Theorem C6_inference_terminates self a q s k :
  let r := inference (inference_bound self (obj_at s a) q + k) self a q s in
  fst r <> OutOfFuel /\
  (fst r = Ret true \/
   (fst r = Ret false /\
    exists xi, PyDict.get (obj_at (snd r) a) xi = Some (PyList [])) \/
   exists e, fst r = Raise e) /\
  (forall xi xj b s1 d,
     nth_error (objs s) a = Some d ->
     revise self a xi xj s = (Ret b, s1) ->
     if b then total (obj_at s1 a) < total d else s1 = s).
Proof.
  cbv zeta.
  assert (Hne : fst (inference (inference_bound self (obj_at s a) q + k) self a q s)
                <> OutOfFuel).
  { apply inference_fuel_enough. unfold inference_bound. lia. }
  split; [assumption|].
  split; [|intros xi xj b s1 d; apply revise_shrinks_or_unchanged].
  remember (inference_bound self (obj_at s a) q + k) as n eqn:En. clear En.
  destruct (inference n self a q s) as [[[|]|e|] s'] eqn:Hrun; cbn [fst snd] in *.
  - now left.
  - right. left. split; [reflexivity|].
    destruct (inference_false_trace _ _ _ _ _ _ Hrun)
      as (_ & xi & _ & _ & _ & _ & _ & _ & d' & _ & _ & Hd' & He & _).
    exists xi. unfold obj_at. now rewrite (nth_error_nth _ _ _ Hd').
  - right. right. eauto.
  - contradiction.
Qed.

Lemma C6_witness :
  nth_error (objs (root_store csp_vpq)) 0 = Some (domains_copy csp_vpq) /\
  revise csp_vpq 0 "V" "P" (root_store csp_vpq)
    = (Ret true,
       mkStore [[("V", PyList ["2"]); ("P", PyList ["1"]); ("Q", PyList ["1"])]] 0 0) /\
  fst (inference (inference_bound csp_vpq (obj_at (root_store csp_vpq) 0)
                    (get_all_arcs csp_vpq) + 0)
         csp_vpq 0 (get_all_arcs csp_vpq) (root_store csp_vpq)) <> OutOfFuel /\
  total (obj_at (mkStore [[("V", PyList ["2"]); ("P", PyList ["1"]);
                           ("Q", PyList ["1"])]] 0 0) 0)
    < total (domains_copy csp_vpq).
Proof.
  destruct (C6_inference_terminates csp_vpq 0 (get_all_arcs csp_vpq)
              (root_store csp_vpq) 0) as (H1 & _ & H3).
  split; [reflexivity|]. split; [vm_compute; reflexivity|]. split; [exact H1|].
  exact (H3 "V" "P" true _ (domains_copy csp_vpq) eq_refl eq_refl).
Defined.

(** C7 does not hold as it is worded: a model whose only variable has an empty domain
    has no arc, so [inference] returns true whatever the fuel, and the
    search returns the dictionary with the empty entry. *)
Lemma C7_counterexample : ~ empty_domain_reported_unsatisfiable.
Proof.
  intros H. destruct (H csp_empty_alone "E" eq_refl) as (fuel & Hinf & _).
  destruct fuel; discriminate.
Qed.

(** C7, in the form that holds of the code.  A table that [add_constraint_one_way] creates for a
    pair with an empty domain at either end is empty.  When the empty
    variable [E] is constrained against a variable [F] whose domain is
    not empty, in a model whose constraints are stored two-way between
    registered variables, the pass of [inference] over all arcs of the
    model on a copy of the domains returns false, without an exception.
    (What [backtracking_search] then returns is not part of this
    statement.) *)
Theorem C7_empty_domain_propagation_fails self :
  (forall i j f self',
     PyDict.get (domains self) i = Some [] \/ PyDict.get (domains self) j = Some [] ->
     table self i j = None ->
     add_constraint_one_way self i j f = inr self' ->
     table self' i j = Some []) /\
  (forall E F x l k s,
     two_way self = true ->
     PyDict.get (domains self) E = Some [] ->
     PyDict.get (domains self) F = Some (x :: l) ->
     is_some (table self F E) = true ->
     fst (inference
            (inference_bound self (domains_copy self) (get_all_arcs self) + k)
            self (length (objs s)) (get_all_arcs self)
            (snd (new_dict (domains_copy self) s))) = Ret false).
Proof.
  split; [intros i j f self'; apply add_constraint_one_way_empty|].
  intros E F x l k s Htwo HE HF Ht.
  set (a := length (objs s)). set (s1 := snd (new_dict (domains_copy self) s)).
  assert (Hd : nth_error (objs s1) a = Some (domains_copy self))
    by apply nth_error_new.
  set (fuel := inference_bound self (domains_copy self) (get_all_arcs self) + k).
  assert (Hne : fst (inference fuel self a (get_all_arcs self) s1) <> OutOfFuel).
  { apply inference_fuel_enough. unfold obj_at.
    rewrite (nth_error_nth _ _ _ Hd). unfold fuel, inference_bound. lia. }
  destruct (inference_empty_neighbour self a Htwo fuel (get_all_arcs self) s1
              (domains_copy self) Hd (all_lists_domains_copy self)
              (registered_domains_copy self Htwo)) as [Hr|Hr].
  - intros i j. now apply all_arcs_table.
  - exists F, E, x, l. split; [|split].
    + destruct (table self F E) as [t|] eqn:Htab; [|discriminate].
      eapply table_in_all_arcs; eassumption.
    + now rewrite get_domains_copy, HE.
    + now rewrite get_domains_copy, HF.
  - exact Hr.
  - contradiction.
Qed.

Lemma C7_witness :
  (PyDict.get (domains (add_variable (add_variable CSP_init "E" []) "F" ["1"; "2"])) "E"
     = Some [] \/
   PyDict.get (domains (add_variable (add_variable CSP_init "E" []) "F" ["1"; "2"])) "F"
     = Some []) /\
  table (add_variable (add_variable CSP_init "E" []) "F" ["1"; "2"]) "E" "F" = None /\
  two_way csp_empty_constrained = true /\
  PyDict.get (domains csp_empty_constrained) "E" = Some [] /\
  PyDict.get (domains csp_empty_constrained) "F" = Some ["1"; "2"] /\
  is_some (table csp_empty_constrained "F" "E") = true /\
  table (force (add_constraint_one_way
                  (add_variable (add_variable CSP_init "E" []) "F" ["1"; "2"])
                  "E" "F" ne)) "E" "F" = Some [] /\
  fst (inference
         (inference_bound csp_empty_constrained (domains_copy csp_empty_constrained)
            (get_all_arcs csp_empty_constrained) + 0)
         csp_empty_constrained 0 (get_all_arcs csp_empty_constrained)
         (root_store csp_empty_constrained)) = Ret false.
Proof.
  split; [left; reflexivity|]. do 5 (split; [reflexivity|]).
  split.
  - destruct (C7_empty_domain_propagation_fails
                (add_variable (add_variable CSP_init "E" []) "F" ["1"; "2"]))
      as [Ha _].
    apply (Ha "E" "F" ne); [left|..]; reflexivity.
  - destruct (C7_empty_domain_propagation_fails csp_empty_constrained) as [_ Hb].
    apply (Hb "E" "F" "1" ["2"] 0 init_store); reflexivity.
Defined.

(** C8 does not hold as it is worded: the code has no check, the second registration
    of [A] goes through and changes the model. *)
Lemma C8_counterexample : ~ duplicate_variable_rejected.
Proof.
  intros H. specialize (H csp_ab "A" ["7"] eq_refl). discriminate.
Qed.

(** C8, in the form that holds of the code.  [add_variable] never fails.  Called with a name that
    may already be registered, it appends the name to [variables] (a
    second time if it was there), binds the name to the new domain and to
    an empty row of constraint tables, and leaves the domains and rows
    of all other names as they were. *)
Theorem C8_add_variable_reregisters self name domain :
  let self' := add_variable self name domain in
  variables self' = variables self ++ [name] /\
  PyDict.get (domains self') name = Some domain /\
  PyDict.get (constraints self') name = Some [] /\
  forall k, k <> name ->
    PyDict.get (domains self') k = PyDict.get (domains self) k /\
    PyDict.get (constraints self') k = PyDict.get (constraints self) k.
Proof.
  cbv zeta. unfold add_variable. simpl.
  split; [reflexivity|]. split; [apply get_set_same|].
  split; [apply get_set_same|].
  intros k N. split; apply get_set_other; congruence.
Qed.

Lemma C8_witness :
  "B" <> "A" /\
  variables (add_variable csp_ab "A" ["7"]) = ["A"; "B"; "A"] /\
  PyDict.get (domains (add_variable csp_ab "A" ["7"])) "A" = Some ["7"] /\
  PyDict.get (constraints (add_variable csp_ab "A" ["7"])) "A" = Some [] /\
  PyDict.get (domains (add_variable csp_ab "A" ["7"])) "B"
    = PyDict.get (domains csp_ab) "B" /\
  PyDict.get (constraints (add_variable csp_ab "A" ["7"])) "B"
    = PyDict.get (constraints csp_ab) "B".
Proof.
  assert (N : "B" <> "A") by discriminate.
  destruct (C8_add_variable_reregisters csp_ab "A" ["7"]) as (H1 & H2 & H3 & H4).
  destruct (H4 "B" N) as [H5 H6].
  split; [exact N|]. split; [exact H1|]. split; [exact H2|].
  split; [exact H3|]. split; [exact H5|exact H6].
Defined.

(** C9 does not hold as it is worded: after a successful call with an empty queue, a
    pass over all arcs removes ['1'] from the domain of [A]. *)
Lemma C9_counterexample : ~ second_pass_changes_nothing.
Proof.
  intros H.
  assert (Hrun : inference 1 csp_ab 0 [] (root_store csp_ab)
                 = (Ret true, root_store csp_ab)) by reflexivity.
  specialize (H csp_ab 1 0 [] _ _ 10 Hrun). vm_compute in H. discriminate.
Qed.

(** C9, in the form that holds of the code.  Whatever the queue and the outcome, after a call of
    [inference] the dictionary has the keys it had, in their order, and
    each domain is a subsequence of what it was.  When the call was over
    all arcs of a model with two-way mirrored tables, on one-character
    values, and returned true, a second call over all arcs returns true
    and leaves the store as it is. *)
Theorem C9_shrinks_and_second_pass self fuel a q s d :
  nth_error (objs s) a = Some d ->
  (exists d', nth_error (objs (snd (inference fuel self a q s))) a = Some d' /\
     shrinks d' d /\
     forall k v', PyDict.get d' k = Some v' ->
       exists v, PyDict.get d k = Some v /\
         Subseq (elems v') (elems v) /\ len v' <= len v) /\
  (two_way self = true -> single_chars d = true -> q = get_all_arcs self ->
   fst (inference fuel self a q s) = Ret true ->
   forall fuel', length q < fuel' ->
     inference fuel' self a q (snd (inference fuel self a q s))
       = (Ret true, snd (inference fuel self a q s))).
Proof.
  intros Hd. destruct (inference fuel self a q s) as [r s'] eqn:Hrun.
  cbn [fst snd]. split.
  - destruct (inference_effect _ _ _ _ _ _ _ Hrun)
      as [->|(d0 & d' & Hd0 & -> & Hsh)].
    + exists d. split; [assumption|]. split; [apply shrinks_refl|].
      intros k v'. apply shrinks_get, shrinks_refl.
    + rewrite Hd in Hd0. injection Hd0 as <-. exists d'.
      split; [simpl; eapply nth_error_update_same; eassumption|].
      split; [assumption|]. intros k v'. now apply shrinks_get.
  - intros Htwo Hsc -> -> fuel' Hlt.
    destruct (inference_establishes_arc_ok self a Htwo fuel (get_all_arcs self)
                s s' d Hd Hsc) as (d' & Hd' & _ & Hok); [|assumption|].
    + intros i j t Ht. left. eapply table_in_all_arcs; eassumption.
    + apply (inference_all_ok self a d'); [assumption| |assumption].
      intros i j Hin. pose proof (all_arcs_table _ _ _ Htwo Hin) as Ht.
      destruct (table self i j) as [t|] eqn:Htab; [|discriminate].
      eapply Hok; eassumption.
Qed.

Lemma C9_witness :
  nth_error (objs (root_store csp_ab)) 0 = Some (domains_copy csp_ab) /\
  two_way csp_ab = true /\ single_chars (domains_copy csp_ab) = true /\
  fst (inference 10 csp_ab 0 (get_all_arcs csp_ab) (root_store csp_ab)) = Ret true /\
  length (get_all_arcs csp_ab) < 10 /\
  (exists d',
     nth_error (objs (snd (inference 10 csp_ab 0 (get_all_arcs csp_ab)
                             (root_store csp_ab)))) 0 = Some d' /\
     shrinks d' (domains_copy csp_ab) /\
     forall k v', PyDict.get d' k = Some v' ->
       exists v, PyDict.get (domains_copy csp_ab) k = Some v /\
         Subseq (elems v') (elems v) /\ len v' <= len v) /\
  inference 10 csp_ab 0 (get_all_arcs csp_ab)
    (snd (inference 10 csp_ab 0 (get_all_arcs csp_ab) (root_store csp_ab)))
  = (Ret true, snd (inference 10 csp_ab 0 (get_all_arcs csp_ab) (root_store csp_ab))).
Proof.
  assert (Hlt : length (get_all_arcs csp_ab) < 10) by (vm_compute; lia).
  destruct (C9_shrinks_and_second_pass csp_ab 10 0 (get_all_arcs csp_ab)
              (root_store csp_ab) (domains_copy csp_ab) eq_refl) as [H1 H2].
  do 4 (split; [reflexivity|]). split; [exact Hlt|]. split; [exact H1|].
  apply H2; try reflexivity. exact Hlt.
Defined.

(** C10.  [inference] works on the caller's dictionary and undoes
    nothing when it fails: if it returns false, the store is the one
    reached by the revisions of the arcs taken from the queue, in order,
    up to and including the failing arc [(xi, xj)], whose domain is now
    empty and was not at the start.  [backtracking_search] drops the
    outcome: whether the pass returned true or false, it goes on to
    [backtrack] with the same dictionary in the store the pass left. *)
Theorem C10_failed_inference_not_rolled_back self fuel :
  (forall a q s s',
     inference fuel self a q s = (Ret false, s') ->
     exists processed xi xj waiting requeued,
       q ++ requeued = processed ++ (xi, xj) :: waiting /\
       revise_each self a (processed ++ [(xi, xj)]) s = (Ret tt, s') /\
       exists d d' di,
         nth_error (objs s) a = Some d /\ nth_error (objs s') a = Some d' /\
         PyDict.get d' xi = Some (PyList []) /\
         PyDict.get d xi = Some di /\ elems di <> []) /\
  (forall s b s1,
     inference fuel self (length (objs s)) (get_all_arcs self)
               (snd (new_dict (domains_copy self) s)) = (Ret b, s1) ->
     backtracking_search fuel self s = backtrack fuel self (length (objs s)) s1).
Proof.
  split.
  - intros a q s s'. apply inference_false_trace.
  - intros s b s1. apply backtracking_search_after_inference.
Qed.

Lemma C10_witness :
  inference 20 csp_vpq 0 (get_all_arcs csp_vpq) (root_store csp_vpq)
    = (Ret false,
       mkStore [[("V", PyList ["2"]); ("P", PyList []); ("Q", PyList ["1"])]] 0 0) /\
  (exists processed xi xj waiting requeued,
     get_all_arcs csp_vpq ++ requeued = processed ++ (xi, xj) :: waiting /\
     revise_each csp_vpq 0 (processed ++ [(xi, xj)]) (root_store csp_vpq)
       = (Ret tt,
          mkStore [[("V", PyList ["2"]); ("P", PyList []); ("Q", PyList ["1"])]] 0 0) /\
     exists d d' di,
       nth_error (objs (root_store csp_vpq)) 0 = Some d /\
       nth_error [[("V", PyList ["2"]); ("P", PyList []); ("Q", PyList ["1"])]] 0
         = Some d' /\
       PyDict.get d' xi = Some (PyList []) /\
       PyDict.get d xi = Some di /\ elems di <> []) /\
  backtracking_search 20 csp_vpq init_store
    = backtrack 20 csp_vpq 0
        (mkStore [[("V", PyList ["2"]); ("P", PyList []); ("Q", PyList ["1"])]] 0 0).
Proof.
  assert (Hrun : inference 20 csp_vpq 0 (get_all_arcs csp_vpq) (root_store csp_vpq)
                 = (Ret false,
                    mkStore [[("V", PyList ["2"]); ("P", PyList []);
                              ("Q", PyList ["1"])]] 0 0))
    by (vm_compute; reflexivity).
  destruct (C10_failed_inference_not_rolled_back csp_vpq 20) as [H1 H2].
  split; [exact Hrun|]. split.
  - exact (H1 0 (get_all_arcs csp_vpq) (root_store csp_vpq) _ Hrun).
  - exact (H2 init_store false _ Hrun).
Defined.

(** * Further properties of the code *)

(** ** [select_unassigned_variable] *)

Lemma below_trans n m mo : n < m -> below m mo -> below n mo.
Proof. destruct mo; simpl; [lia|auto]. Qed.

Lemma select_step_cases st item :
  (1 < len (snd item) /\ below (len (snd item)) (snd st) /\
   select_step st item = (Some (fst item), Some (len (snd item)))) \/
  (~ (1 < len (snd item) /\ below (len (snd item)) (snd st)) /\
   select_step st item = st).
Proof.
  unfold select_step, below.
  destruct (1 <? len (snd item))%nat eqn:E1; simpl.
  - apply Nat.ltb_lt in E1. destruct (snd st) as [m|].
    + destruct (len (snd item) <? m)%nat eqn:E2.
      * apply Nat.ltb_lt in E2. left. auto.
      * apply Nat.ltb_ge in E2. right. split; [lia|reflexivity].
    + left. auto.
  - apply Nat.ltb_ge in E1. right. split; [lia|reflexivity].
Qed.

(** The loop keeps the first of the entries of least length among those
    of length above one (and below the starting bound). *)
Lemma select_fold_spec : forall d ko mo,
  (fold_left select_step d (ko, mo) = (ko, mo) /\
   forall e, In e d -> 1 < len (snd e) -> ~ below (len (snd e)) mo) \/
  (exists d1 e d2,
     d = d1 ++ e :: d2 /\
     fold_left select_step d (ko, mo) = (Some (fst e), Some (len (snd e))) /\
     1 < len (snd e) /\ below (len (snd e)) mo /\
     (forall e', In e' d1 -> 1 < len (snd e') -> len (snd e) < len (snd e')) /\
     (forall e', In e' d2 -> 1 < len (snd e') -> len (snd e) <= len (snd e'))).
Proof.
  induction d as [|e d IH]; intros ko mo.
  - left. split; [reflexivity|]. intros e [].
  - simpl fold_left.
    destruct (select_step_cases (ko, mo) e) as [(H1 & Hb & ->)|(Hn & ->)].
    + (* [e] is taken *)
      simpl in Hb. right.
      destruct (IH (Some (fst e)) (Some (len (snd e))))
        as [[-> Hrest]|(d1 & e2 & d2 & -> & -> & H2 & Hb2 & Hbefore & Hafter)].
      * exists [], e, d. split; [reflexivity|]. split; [reflexivity|].
        split; [assumption|]. split; [assumption|]. split; [intros e' []|].
        intros e' Hin Hl. specialize (Hrest _ Hin Hl). simpl in Hrest. lia.
      * simpl in Hb2. exists (e :: d1), e2, d2.
        split; [reflexivity|]. split; [reflexivity|]. split; [assumption|].
        split; [eapply below_trans; eassumption|]. split; [|assumption].
        intros e' [<-|Hin] Hl; [assumption|auto].
    + simpl in Hn.
      destruct (IH ko mo)
        as [[-> Hrest]|(d1 & e2 & d2 & -> & -> & H2 & Hb2 & Hbefore & Hafter)].
      * left. split; [reflexivity|]. intros e' [<-|Hin] Hl; [tauto|auto].
      * right. exists (e :: d1), e2, d2.
        split; [reflexivity|]. split; [reflexivity|]. split; [assumption|].
        split; [assumption|]. split; [|assumption].
        intros e' [<-|Hin] Hl; [|auto].
        destruct mo as [m|]; simpl in *; [lia|tauto].
Qed.

Lemma select_unassigned_variable_run a s d :
  nth_error (objs s) a = Some d ->
  select_unassigned_variable a s
    = (Ret (fst (fold_left select_step d (None, None))), s).
Proof.
  intros Hd. unfold select_unassigned_variable, bind.
  now rewrite (deref_run _ _ _ Hd).
Qed.

(** X1.  [select_unassigned_variable] changes nothing.  It returns [-1]
    exactly when no domain has more than one value; otherwise it returns
    the key of a domain of more than one value that is the shortest of
    these, and the first of that length in the order of the
    dictionary. *)
Theorem select_unassigned_variable_mrv a s d :
  nth_error (objs s) a = Some d ->
  exists sel,
    select_unassigned_variable a s = (Ret sel, s) /\
    match sel with
    | None => complete d = true
    | Some k =>
        complete d = false /\
        exists d1 dk d2,
          d = d1 ++ (k, dk) :: d2 /\ 1 < len dk /\
          (forall e, In e d1 -> 1 < len (snd e) -> len dk < len (snd e)) /\
          (forall e, In e d2 -> 1 < len (snd e) -> len dk <= len (snd e))
    end.
Proof.
  intros Hd. rewrite (select_unassigned_variable_run _ _ _ Hd).
  eexists. split; [reflexivity|].
  destruct (select_fold_spec d None None)
    as [[-> Hnone]|(d1 & [k dk] & d2 & -> & -> & H1 & _ & Hbefore & Hafter)];
    simpl.
  - apply complete_spec. intros k v Hin.
    destruct (Nat.le_gt_cases (len v) 1) as [|Hgt]; [assumption|].
    exfalso. apply (Hnone (k, v) Hin Hgt). exact I.
  - split; [|exists d1, dk, d2; auto].
    destruct (complete (d1 ++ (k, dk) :: d2)) eqn:Hc; [|reflexivity].
    rewrite complete_spec in Hc. specialize (Hc k dk).
    simpl in H1. assert (len dk <= 1); [|lia].
    apply Hc. apply in_or_app. right. now left.
Qed.

(** ** The two counters *)

Lemma counts_grow_refl s : counts_grow s s.
Proof. unfold counts_grow. lia. Qed.

Lemma counts_grow_trans s1 s2 s3 :
  counts_grow s1 s2 -> counts_grow s2 s3 -> counts_grow s1 s3.
Proof. unfold counts_grow. lia. Qed.

Lemma counts_grow_same s s' :
  number_of_backtracks s' = number_of_backtracks s ->
  number_of_backtracks_failed s' = number_of_backtracks_failed s ->
  counts_grow s s'.
Proof. unfold counts_grow. lia. Qed.

(** A property of the store that steps of a relation carry along is
    carried along a [bind]. *)
Lemma post_bind {A B} (P : store -> Prop) (R : store -> store -> Prop)
    (m : M A) (k : A -> M B) s :
  (forall s1 s2, P s1 -> R s1 s2 -> P s2) ->
  P s -> R s (snd (m s)) ->
  (forall x s1, m s = (Ret x, s1) -> P s1 -> P (snd (k x s1))) ->
  P (snd (bind m k s)).
Proof.
  intros Hstep HP HR Hk. unfold bind.
  destruct (m s) as [[x|e|] s1] eqn:E; simpl in *; eauto.
Qed.

Lemma counts_deref a s : counts_grow s (snd (deref a s)).
Proof. rewrite deref_same. apply counts_grow_refl. Qed.

Lemma counts_getitem a k s : counts_grow s (snd (getitem a k s)).
Proof. rewrite getitem_same. apply counts_grow_refl. Qed.

Lemma counts_setitem a k v s : counts_grow s (snd (setitem a k v s)).
Proof.
  unfold setitem, bind, deref, assign.
  destruct (nth_error (objs s) a); apply counts_grow_same; reflexivity.
Qed.

Lemma counts_delitem a k s : counts_grow s (snd (delitem a k s)).
Proof.
  unfold delitem, bind, deref, assign.
  destruct (nth_error (objs s) a); apply counts_grow_same; reflexivity.
Qed.

Lemma counts_deepcopy a s : counts_grow s (snd (deepcopy a s)).
Proof.
  unfold deepcopy, bind, deref, new_dict.
  destruct (nth_error (objs s) a); apply counts_grow_same; reflexivity.
Qed.

Lemma counts_inference fuel self a q s :
  counts_grow s (snd (inference fuel self a q s)).
Proof.
  destruct (inference fuel self a q s) as [r s'] eqn:E.
  apply inference_effect in E. simpl.
  destruct E as [->|(d & d' & _ & -> & _)];
    apply counts_grow_same; reflexivity.
Qed.

Lemma counts_truthy r s : counts_grow s (snd (truthy r s)).
Proof.
  destruct r as [a|]; simpl; [|apply counts_grow_refl].
  unfold bind, deref. destruct (nth_error (objs s) a); apply counts_grow_refl.
Qed.

Section Counters.
Variables (rec : loc -> M (option loc)).
Hypothesis Hrec : forall a s, counts_grow s (snd (rec a s)).

Lemma try_value_counts fuel self a v val s :
  counts_grow s (snd (try_value rec fuel self a v val s)).
Proof.
  unfold try_value.
  apply (post_bind _ counts_grow);
    [apply counts_grow_trans|apply counts_grow_refl|apply counts_deepcopy|].
  intros na s1 _ K1.
  apply (post_bind _ counts_grow);
    [apply counts_grow_trans|assumption|apply counts_setitem|].
  intros _ s2 _ K2.
  apply (post_bind _ counts_grow);
    [apply counts_grow_trans|assumption|apply counts_inference|].
  intros ok s3 _ K3.
  apply (post_bind _ counts_grow); [apply counts_grow_trans|assumption| |].
  - destruct ok; [|apply counts_grow_refl].
    apply (post_bind _ counts_grow);
      [apply counts_grow_trans|apply counts_grow_refl|apply Hrec|].
    intros result s4 _ K4.
    apply (post_bind _ counts_grow);
      [apply counts_grow_trans|assumption|apply counts_truthy|].
    intros t s5 _ K5. exact K5.
  - intros found s4 _ K4. destruct found as [r|]; [exact K4|].
    apply (post_bind _ counts_grow);
      [apply counts_grow_trans|assumption|apply counts_deref|].
    intros na' s5 _ K5.
    apply (post_bind _ counts_grow); [apply counts_grow_trans|assumption| |].
    + destruct (PyDict.mem v na'); [apply counts_delitem|apply counts_grow_refl].
    + intros _ s6 _ K6. exact K6.
Qed.

Lemma for_values_counts fuel self a v : forall vals s,
  counts_grow s (snd (for_values (try_value rec fuel self a v) vals s)).
Proof.
  induction vals as [|val vals IH]; intros s; [apply counts_grow_refl|].
  simpl.
  apply (post_bind _ counts_grow);
    [apply counts_grow_trans|apply counts_grow_refl|apply try_value_counts|].
  intros found s1 _ K1. destruct found as [r|]; [exact K1|].
  eapply counts_grow_trans; [exact K1|apply IH].
Qed.
End Counters.

Lemma counted_call_step s0 s1 s2 :
  counted_call s0 s1 -> counts_grow s1 s2 -> counted_call s0 s2.
Proof. unfold counted_call, counts_grow. lia. Qed.

(** The same with a weaker property of the final store. *)
Lemma post_bind_weaken {A B} (P Q : store -> Prop) (R : store -> store -> Prop)
    (m : M A) (k : A -> M B) s :
  (forall s1 s2, P s1 -> R s1 s2 -> P s2) ->
  (forall s1, P s1 -> Q s1) ->
  P s -> R s (snd (m s)) ->
  (forall x s1, m s = (Ret x, s1) -> P s1 -> Q (snd (k x s1))) ->
  Q (snd (bind m k s)).
Proof.
  intros Hstep Hweak HP HR Hk. unfold bind.
  destruct (m s) as [[x|e|] s1] eqn:E; simpl in *; eauto.
Qed.

Lemma counted_call_weaken s s' : counted_call s s' -> counts_grow s s'.
Proof. unfold counted_call, counts_grow. lia. Qed.

Lemma backtrack_counts self : forall fuel a s,
  counts_grow s (snd (backtrack fuel self a s)).
Proof.
  induction fuel as [|fuel IH]; intros a s; [apply counts_grow_refl|].
  simpl.
  apply (post_bind _ counts_grow);
    [apply counts_grow_trans|apply counts_grow_refl|apply counts_deref|].
  intros d s1 Hd K1. apply deref_ret in Hd. destruct Hd as [-> _].
  destruct (complete d); [apply counts_grow_refl|].
  unfold bind at 1. simpl incr_backtracks.
  assert (K2 : counted_call s
                 (mkStore (objs s) (S (number_of_backtracks s))
                          (number_of_backtracks_failed s)))
    by (unfold counted_call; simpl; lia).
  apply (post_bind_weaken (counted_call s) _ counts_grow);
    [apply counted_call_step|apply counted_call_weaken|assumption| |].
  { unfold select_unassigned_variable.
    apply (post_bind _ counts_grow);
      [apply counts_grow_trans|apply counts_grow_refl|apply counts_deref|].
    intros d2 s3 _ K3. exact K3. }
  intros sel s3 _ K3. destruct sel as [v|]; [|now apply counted_call_weaken].
  apply (post_bind_weaken (counted_call s) _ counts_grow);
    [apply counted_call_step|apply counted_call_weaken|assumption
    |apply counts_getitem|].
  intros dv s4 _ K4.
  apply (post_bind_weaken (counted_call s) _ counts_grow);
    [apply counted_call_step|apply counted_call_weaken|assumption
    |apply for_values_counts; exact IH|].
  intros found s5 _ K5. destruct found as [r|]; [now apply counted_call_weaken|].
  unfold bind, incr_backtracks_failed, ret. simpl.
  unfold counted_call, counts_grow in *. simpl. lia.
Qed.

Lemma backtrack_false_counted self fuel a s s' :
  backtrack fuel self a s = (Ret None, s') ->
  number_of_backtracks s < number_of_backtracks s' /\
  number_of_backtracks_failed s < number_of_backtracks_failed s'.
Proof.
  destruct fuel as [|fuel]; [discriminate|]. simpl. intros H.
  apply bind_ret_inv in H. destruct H as (d & s1 & Hd & H).
  apply deref_ret in Hd. destruct Hd as [-> _].
  destruct (complete d); [discriminate|].
  apply bind_ret_inv in H. destruct H as ([] & s2 & Hincr & H).
  injection Hincr as <-.
  apply bind_ret_inv in H. destruct H as (sel & s3 & Hsel & H).
  pose proof (counts_grow_refl
                (mkStore (objs s) (S (number_of_backtracks s))
                         (number_of_backtracks_failed s))) as K.
  assert (K3 : counts_grow
                 (mkStore (objs s) (S (number_of_backtracks s))
                          (number_of_backtracks_failed s)) s3).
  { unfold select_unassigned_variable in Hsel.
    apply bind_ret_inv in Hsel. destruct Hsel as (d2 & s4 & Hd2 & Hsel).
    apply deref_ret in Hd2. destruct Hd2 as [-> _]. injection Hsel as _ <-.
    exact K. }
  destruct sel as [v|]; [|discriminate].
  apply bind_ret_inv in H. destruct H as (dv & s4 & Hdv & H).
  pose proof (getitem_same a v s3) as E. rewrite Hdv in E. simpl in E. subst s4.
  apply bind_ret_inv in H. destruct H as (found & s5 & Hloop & H).
  pose proof (for_values_counts (backtrack fuel self) (backtrack_counts self fuel)
                fuel self a v (elems dv) s3) as K5.
  rewrite Hloop in K5. simpl in K5.
  destruct found as [r|]; [discriminate|].
  unfold bind, incr_backtracks_failed, ret in H. injection H as <-.
  unfold counts_grow in *. simpl in *. lia.
Qed.

(** X2.  Over a call of [backtrack], however it ends, neither counter
    decreases and [number_of_backtracks_failed] grows by no more than
    [number_of_backtracks]; when the call returns [False], both have
    grown. *)
Theorem backtrack_counters self fuel a s :
  counts_grow s (snd (backtrack fuel self a s)) /\
  (fst (backtrack fuel self a s) = Ret None ->
   number_of_backtracks s < number_of_backtracks (snd (backtrack fuel self a s)) /\
   number_of_backtracks_failed s
     < number_of_backtracks_failed (snd (backtrack fuel self a s))).
Proof.
  split; [apply backtrack_counts|].
  destruct (backtrack fuel self a s) as [r s'] eqn:E. simpl. intros ->.
  eapply backtrack_false_counted; eassumption.
Qed.

Lemma backtrack_counters_witness :
  fst (backtrack 50 csp_pigeon 0 (root_store csp_pigeon)) = Ret None /\
  counts_grow (root_store csp_pigeon)
    (snd (backtrack 50 csp_pigeon 0 (root_store csp_pigeon))) /\
  number_of_backtracks (root_store csp_pigeon)
    < number_of_backtracks (snd (backtrack 50 csp_pigeon 0 (root_store csp_pigeon))) /\
  number_of_backtracks_failed (root_store csp_pigeon)
    < number_of_backtracks_failed
        (snd (backtrack 50 csp_pigeon 0 (root_store csp_pigeon))).
Proof.
  assert (E : fst (backtrack 50 csp_pigeon 0 (root_store csp_pigeon)) = Ret None)
    by (vm_compute; reflexivity).
  destruct (backtrack_counters csp_pigeon 50 0 (root_store csp_pigeon)) as [H1 H2].
  split; [exact E|]. split; [exact H1|]. exact (H2 E).
Defined.

Lemma select_unassigned_variable_mrv_witness :
  nth_error (objs (root_store csp_abc)) 0 = Some (domains_copy csp_abc) /\
  exists sel,
    select_unassigned_variable 0 (root_store csp_abc)
      = (Ret sel, root_store csp_abc) /\
    match sel with
    | None => complete (domains_copy csp_abc) = true
    | Some k =>
        complete (domains_copy csp_abc) = false /\
        exists d1 dk d2,
          domains_copy csp_abc = d1 ++ (k, dk) :: d2 /\ 1 < len dk /\
          (forall e, In e d1 -> 1 < len (snd e) -> len dk < len (snd e)) /\
          (forall e, In e d2 -> 1 < len (snd e) -> len dk <= len (snd e))
    end.
Proof.
  split; [reflexivity|].
  exact (select_unassigned_variable_mrv 0 (root_store csp_abc)
           (domains_copy csp_abc) eq_refl).
Defined.

(** ** What the search returns *)

Lemma deepcopy_run a s d :
  nth_error (objs s) a = Some d ->
  deepcopy a s = (Ret (length (objs s)), with_objs s (objs s ++ [d])).
Proof.
  intros Hd. unfold deepcopy, bind. now rewrite (deref_run _ _ _ Hd).
Qed.

Lemma nth_error_appended {A} (l : list A) x :
  nth_error (l ++ [x]) (length l) = Some x.
Proof. rewrite nth_error_app2 by lia. now rewrite Nat.sub_diag. Qed.

Lemma Subseq_incl {A} (l1 l2 : list A) x : Subseq l1 l2 -> In x l1 -> In x l2.
Proof. induction 1; simpl; intuition. Qed.

Lemma Subseq_single {A} (x : A) l : In x l -> Subseq [x] l.
Proof.
  induction l as [|y l IH]; simpl; [contradiction|].
  intros [->|Hin].
  - constructor. clear IH. induction l; constructor; assumption.
  - apply Subseq_drop. auto.
Qed.

Lemma chars_all_single s :
  forallb (fun v => (String.length v =? 1)%nat) (chars s) = true.
Proof. induction s; simpl; auto. Qed.

Lemma single_chars_set_str d v dv val :
  PyDict.get d v = Some dv -> single_chars d = true ->
  single_chars (PyDict.set d v (PyStr val)) = true.
Proof.
  intros H. destruct (get_split _ _ _ H) as (d1 & d2 & -> & Hs). rewrite Hs.
  unfold single_chars. rewrite !forallb_app. simpl.
  rewrite !andb_true_iff. intros (H1 & H2 & H3). repeat split; auto.
  apply chars_all_single.
Qed.

Lemma shrinks_set_str d v dv val :
  PyDict.get d v = Some dv -> In val (elems dv) -> chars val = [val] ->
  shrinks (PyDict.set d v (PyStr val)) d.
Proof.
  intros H Hin Hc. destruct (get_split _ _ _ H) as (d1 & d2 & -> & Hs).
  rewrite Hs. unfold shrinks. apply Forall2_app; [apply shrinks_refl|].
  constructor; [|apply shrinks_refl].
  split; [reflexivity|]. simpl. rewrite Hc. now apply Subseq_single.
Qed.

Lemma single_chars_shrinks d' d :
  shrinks d' d -> single_chars d = true -> single_chars d' = true.
Proof.
  unfold shrinks, single_chars. induction 1 as [|e' e d' d [_ Hs] _ IH]; simpl;
    [reflexivity|].
  rewrite !andb_true_iff. intros [He Hd]. split; [|auto].
  rewrite forallb_forall in *. intros x Hx. apply He.
  eapply Subseq_incl; eassumption.
Qed.

Lemma shrinks_keys d' d : shrinks d' d -> PyDict.keys d' = PyDict.keys d.
Proof.
  unfold shrinks, PyDict.keys. induction 1 as [|e' e d' d [Hk _] _ IH]; simpl;
    congruence.
Qed.

(** What a successful pass over all arcs establishes. *)
Lemma inference_true_state self a fuel s s' d :
  two_way self = true ->
  nth_error (objs s) a = Some d -> single_chars d = true ->
  inference fuel self a (get_all_arcs self) s = (Ret true, s') ->
  exists d', nth_error (objs s') a = Some d' /\ single_chars d' = true /\
    shrinks d' d /\
    forall i j t, table self i j = Some t -> arc_ok self d' i j.
Proof.
  intros Htwo Hd Hsc Hrun.
  destruct (inference_establishes_arc_ok self a Htwo fuel (get_all_arcs self)
              s s' d Hd Hsc) as (d' & Hd' & Hsc' & Hok); [|assumption|].
  { intros i j t Ht. left. eapply table_in_all_arcs; eassumption. }
  exists d'. repeat split; auto.
  destruct (inference_effect _ _ _ _ _ _ _ Hrun) as [->|(d0 & d1 & Hd0 & -> & Hsh)].
  - rewrite Hd in Hd'. injection Hd' as <-. apply shrinks_refl.
  - rewrite Hd in Hd0. injection Hd0 as <-.
    simpl in Hd'. rewrite (nth_error_update_same _ _ _ _ Hd) in Hd'.
    now injection Hd' as <-.
Qed.

Lemma truthy_ret r s t s' : truthy r s = (Ret t, s') -> s' = s.
Proof.
  destruct r as [a|]; simpl; [|now intros [= _ <-]].
  unfold bind, deref. destruct (nth_error (objs s) a); [|discriminate].
  now intros [= _ <-].
Qed.

Section Sound.
Variables (self : CSP) (root : assignment_obj).
Hypothesis Htwo : two_way self = true.

Variables (rec : loc -> M (option loc)).
Hypothesis Hkeeps : forall a s, keeps (length (objs s)) s (snd (rec a s)).
Hypothesis Hrec : forall a s r s' d,
  rec a s = (Ret (Some r), s') ->
  nth_error (objs s) a = Some d -> search_state self root d ->
  exists dr, nth_error (objs s') r = Some dr /\ complete dr = true /\
             search_state self root dr.

Lemma try_value_sound fuel a v val s r s' d dv :
  try_value rec fuel self a v val s = (Ret (Some r), s') ->
  nth_error (objs s) a = Some d ->
  single_chars d = true -> shrinks d root ->
  PyDict.get d v = Some dv -> In val (elems dv) ->
  exists dr, nth_error (objs s') r = Some dr /\ complete dr = true /\
             search_state self root dr.
Proof.
  unfold try_value. intros H Hd Hsc Hsh Hv Hval.
  apply bind_ret_inv in H. destruct H as (na & s1 & Hcopy & H).
  rewrite (deepcopy_run _ _ _ Hd) in Hcopy. injection Hcopy as <- <-.
  assert (Hd1 : nth_error (objs (with_objs s (objs s ++ [d]))) (length (objs s))
                = Some d) by apply nth_error_appended.
  apply bind_ret_inv in H. destruct H as ([] & s2 & Hset & H).
  rewrite (setitem_run _ _ _ _ _ Hd1) in Hset. injection Hset as <-.
  set (d2 := PyDict.set d v (PyStr val)) in *.
  match type of H with bind _ _ ?st = _ => set (s2 := st) in * end.
  assert (Hd2 : nth_error (objs s2) (length (objs s)) = Some d2).
  { unfold s2. simpl. eapply nth_error_update_same. apply nth_error_appended. }
  apply bind_ret_inv in H. destruct H as (ok & s3 & Hinf & H).
  apply bind_ret_inv in H. destruct H as (found & s4 & Hfound & H).
  destruct found as [r0|].
  2:{ apply bind_ret_inv in H. destruct H as (na' & s5 & _ & H).
      apply bind_ret_inv in H. destruct H as (u & s6 & _ & H). discriminate. }
  injection H as -> ->. destruct ok; [|discriminate].
  assert (Hcv : chars val = [val])
    by (eapply single_chars_spec; eassumption).
  destruct (inference_true_state self _ fuel s2 s3 d2 Htwo Hd2
              (single_chars_set_str _ _ _ _ Hv Hsc) Hinf)
    as (d3 & Hd3 & Hsc3 & Hsh3 & Hok3).
  apply bind_ret_inv in Hfound. destruct Hfound as (result & s5 & Hr & Hfound).
  apply bind_ret_inv in Hfound. destruct Hfound as (t & s6 & Ht & Hfound).
  apply truthy_ret in Ht. subst s6. injection Hfound as Hres <-.
  destruct t; [|discriminate]. subst result.
  apply (Hrec _ _ _ _ d3 Hr Hd3). split; [assumption|]. split; [|now left].
  eapply shrinks_trans; [exact Hsh3|].
  eapply shrinks_trans; [|exact Hsh].
  eapply shrinks_set_str; eassumption.
Qed.

Lemma for_values_sound fuel a v d dv :
  single_chars d = true -> shrinks d root -> PyDict.get d v = Some dv ->
  forall vals s r s',
    (forall val, In val vals -> In val (elems dv)) ->
    nth_error (objs s) a = Some d ->
    for_values (try_value rec fuel self a v) vals s = (Ret (Some r), s') ->
    exists dr, nth_error (objs s') r = Some dr /\ complete dr = true /\
               search_state self root dr.
Proof.
  intros Hsc Hsh Hv. induction vals as [|val vals IH]; intros s r s' Hin Hd H;
    [discriminate|].
  simpl in H. apply bind_ret_inv in H. destruct H as (found & s1 & Hbody & H).
  destruct found as [r0|].
  - injection H as -> ->.
    eapply try_value_sound; eauto. apply Hin. now left.
  - apply (IH s1 r s'); [intros x Hx; apply Hin; now right| |assumption].
    pose proof (try_value_keeps rec Hkeeps fuel self a v val s) as [K _].
    rewrite Hbody in K. simpl in K. rewrite K; [assumption|].
    apply nth_error_Some. congruence.
Qed.
End Sound.

Lemma backtrack_sound self root :
  two_way self = true ->
  forall fuel a s r s' d,
    backtrack fuel self a s = (Ret (Some r), s') ->
    nth_error (objs s) a = Some d -> search_state self root d ->
    exists dr, nth_error (objs s') r = Some dr /\ complete dr = true /\
               search_state self root dr.
Proof.
  intros Htwo. induction fuel as [|fuel IH]; intros a s r s' d H Hd Hst;
    [discriminate|].
  simpl in H. apply bind_ret_inv in H. destruct H as (d0 & s1 & Hd0 & H).
  rewrite (deref_run _ _ _ Hd) in Hd0. injection Hd0 as <- <-.
  destruct (complete d) eqn:Hc.
  - injection H as <- <-. eauto.
  - apply bind_ret_inv in H. destruct H as ([] & s2 & Hincr & H).
    injection Hincr as <-.
    match type of H with bind _ _ ?st = _ => set (s2 := st) in * end.
    assert (Hd2 : nth_error (objs s2) a = Some d) by exact Hd.
    apply bind_ret_inv in H. destruct H as (sel & s3 & Hsel & H).
    rewrite (select_unassigned_variable_run _ _ _ Hd2) in Hsel.
    injection Hsel as <- <-.
    destruct (fst (fold_left select_step d (None, None))) as [v|]; [|discriminate].
    apply bind_ret_inv in H. destruct H as (dv & s4 & Hdv & H).
    rewrite (getitem_run _ _ _ _ Hd2) in Hdv.
    destruct (PyDict.get d v) as [dv'|] eqn:Hv; [|discriminate].
    injection Hdv as <- <-.
    apply bind_ret_inv in H. destruct H as (found & s5 & Hloop & H).
    destruct found as [r0|].
    + injection H as -> ->. destruct Hst as (Hsc & Hsh & _).
      eapply (for_values_sound self root Htwo (backtrack fuel self)
                (backtrack_keeps self fuel) IH fuel a v d dv' Hsc Hsh Hv);
        [|exact Hd2|exact Hloop].
      auto.
    + apply bind_ret_inv in H. destruct H as (u & s6 & _ & H). discriminate.
Qed.

Lemma root_search_state self fuel s b s1 :
  two_way self = true -> single_chars (domains_copy self) = true ->
  inference fuel self (length (objs s)) (get_all_arcs self)
            (snd (new_dict (domains_copy self) s)) = (Ret b, s1) ->
  exists d1, nth_error (objs s1) (length (objs s)) = Some d1 /\
             search_state self (domains_copy self) d1.
Proof.
  intros Htwo Hsc Hinf.
  pose proof (nth_error_new (domains_copy self) s) as Hd.
  destruct b.
  - destruct (inference_true_state _ _ _ _ _ _ Htwo Hd Hsc Hinf)
      as (d1 & Hd1 & Hsc1 & Hsh1 & Hok1).
    exists d1. split; [assumption|]. split; [assumption|]. split; [assumption|].
    now left.
  - destruct (inference_false_trace _ _ _ _ _ _ Hinf)
      as (_ & xi & _ & _ & _ & _ & _ & _ & d1 & _ & _ & Hd1 & He & _).
    exists d1. split; [assumption|].
    assert (Hsh : shrinks d1 (domains_copy self)).
    { destruct (inference_effect _ _ _ _ _ _ _ Hinf)
        as [->|(d0 & d' & Hd0 & -> & Hsh)].
      - rewrite Hd in Hd1. injection Hd1 as <-. apply shrinks_refl.
      - rewrite Hd in Hd0. injection Hd0 as <-.
        simpl in Hd1. simpl in Hd.
        rewrite (nth_error_update_same _ _ _ _ Hd) in Hd1.
        now injection Hd1 as <-. }
    split; [eapply single_chars_shrinks; eassumption|]. split; [assumption|].
    right. exists xi, (PyList []). auto.
Qed.

(** X3.  On a model whose tables are stored two-way as mirror images and whose
    values are one-character strings, what [backtracking_search] returns,
    when it returns a dictionary, has the keys of the registered
    domains, each with values taken from its registered domain and at
    most one of them; and if none of its domains is empty, the values it
    holds for every constrained pair are a pair of the stored table: it
    is a solution. *)
Theorem backtracking_search_sound self fuel s r s' :
  two_way self = true -> single_chars (domains_copy self) = true ->
  backtracking_search fuel self s = (Ret (Some r), s') ->
  exists dr,
    nth_error (objs s') r = Some dr /\
    shrinks dr (domains_copy self) /\
    (forall k dk, In (k, dk) dr -> len dk <= 1) /\
    ((forall k dk, PyDict.get dr k = Some dk -> elems dk <> []) ->
     forall i j t di dj v w,
       table self i j = Some t ->
       PyDict.get dr i = Some di -> PyDict.get dr j = Some dj ->
       In v (elems di) -> In w (elems dj) -> In (v, w) t).
Proof.
  intros Htwo Hsc H. unfold backtracking_search in H.
  apply bind_ret_inv in H. destruct H as (a & s0 & Hnew & H).
  injection Hnew as <- <-.
  apply bind_ret_inv in H. destruct H as (b & s1 & Hinf & H).
  destruct (root_search_state self fuel s b s1 Htwo Hsc Hinf) as (d1 & Hd1 & Hst1).
  destruct (backtrack_sound self (domains_copy self) Htwo fuel _ _ _ _ d1 H Hd1 Hst1)
    as (dr & Hdr & Hc & Hscr & Hshr & Hcase).
  exists dr. split; [assumption|]. split; [assumption|].
  split; [now apply complete_spec|].
  intros Hne i j t di dj v w Ht Hi Hj Hv Hw.
  destruct Hcase as [Hok|(k & dk & Hk & He)]; [|now elim (Hne k dk Hk)].
  destruct (Hok _ _ _ Ht) as (di' & Hi' & Hall).
  rewrite Hi in Hi'. injection Hi' as <-.
  pose proof (single_chars_spec _ Hscr _ _ _ Hi Hv) as Hcv.
  apply (supported_has_support _ _ _ _ _ Hcv) in Hall; [|assumption].
  destruct Hall as (dj' & t' & w' & Hj' & Ht' & Hw' & Hp).
  rewrite Hj in Hj'. injection Hj' as <-.
  rewrite Ht in Ht'. injection Ht' as <-.
  rewrite complete_spec in Hc. pose proof (Hc j dj (get_In _ _ _ Hj)) as Hlen.
  unfold len in Hlen. destruct (elems dj) as [|x [|y l]]; simpl in *;
    [contradiction| |lia].
  destruct Hw as [<-|[]], Hw' as [<-|[]]. assumption.
Qed.


(** ** A solvable problem is never reported unsolvable *)

Lemma bind_avoids {A B} (m : M A) (k : A -> M B) s (b : B) :
  (forall x s1, m s = (Ret x, s1) -> fst (k x s1) <> Ret b) ->
  fst (bind m k s) <> Ret b.
Proof.
  intros H. unfold bind. destruct (m s) as [[x|e|] s1] eqn:E; simpl;
    [now apply H|discriminate..].
Qed.

Lemma keys_set_present {V} (d : list (string * V)) k v v0 :
  PyDict.get d k = Some v0 -> PyDict.keys (PyDict.set d k v) = PyDict.keys d.
Proof.
  intros H. destruct (get_split _ _ _ H) as (d1 & d2 & -> & Hs). rewrite Hs.
  unfold PyDict.keys. now rewrite !map_app.
Qed.

Lemma inference_keys self a fuel q s r s' d :
  inference fuel self a q s = (r, s') -> nth_error (objs s) a = Some d ->
  exists d', nth_error (objs s') a = Some d' /\ PyDict.keys d' = PyDict.keys d.
Proof.
  intros Hinf Hd.
  destruct (inference_effect _ _ _ _ _ _ _ Hinf) as [->|(d0 & d' & Hd0 & -> & Hsh)].
  - eauto.
  - rewrite Hd in Hd0. injection Hd0 as <-. exists d'. split.
    + simpl. eapply nth_error_update_same; eassumption.
    + now apply shrinks_keys.
Qed.

Section Keys.
Variables (rec : loc -> M (option loc)).
Hypothesis Hkeeps : forall a s, keeps (length (objs s)) s (snd (rec a s)).
Hypothesis Hrec : forall a s r s' d,
  rec a s = (Ret (Some r), s') -> nth_error (objs s) a = Some d ->
  exists dr, nth_error (objs s') r = Some dr /\ PyDict.keys dr = PyDict.keys d.

Lemma try_value_keys fuel self a v val s r s' d dv :
  try_value rec fuel self a v val s = (Ret (Some r), s') ->
  nth_error (objs s) a = Some d -> PyDict.get d v = Some dv ->
  exists dr, nth_error (objs s') r = Some dr /\ PyDict.keys dr = PyDict.keys d.
Proof.
  unfold try_value. intros H Hd Hv.
  apply bind_ret_inv in H. destruct H as (na & s1 & Hcopy & H).
  rewrite (deepcopy_run _ _ _ Hd) in Hcopy. injection Hcopy as <- <-.
  assert (Hd1 : nth_error (objs (with_objs s (objs s ++ [d]))) (length (objs s))
                = Some d) by apply nth_error_appended.
  apply bind_ret_inv in H. destruct H as ([] & s2 & Hset & H).
  rewrite (setitem_run _ _ _ _ _ Hd1) in Hset. injection Hset as <-.
  match type of H with bind _ _ ?st = _ => set (s2 := st) in * end.
  assert (Hd2 : nth_error (objs s2) (length (objs s))
                = Some (PyDict.set d v (PyStr val))).
  { unfold s2. simpl. eapply nth_error_update_same. apply nth_error_appended. }
  apply bind_ret_inv in H. destruct H as (ok & s3 & Hinf & H).
  destruct (inference_keys _ _ _ _ _ _ _ _ Hinf Hd2) as (d3 & Hd3 & Hk3).
  apply bind_ret_inv in H. destruct H as (found & s4 & Hfound & H).
  destruct found as [r0|].
  2:{ apply bind_ret_inv in H. destruct H as (na' & s5 & _ & H).
      apply bind_ret_inv in H. destruct H as (u & s6 & _ & H). discriminate. }
  injection H as -> ->. destruct ok; [|discriminate].
  apply bind_ret_inv in Hfound. destruct Hfound as (result & s5 & Hr & Hfound).
  apply bind_ret_inv in Hfound. destruct Hfound as (t & s6 & Ht & Hfound).
  apply truthy_ret in Ht. subst s6. injection Hfound as Hres <-.
  destruct t; [|discriminate]. subst result.
  destruct (Hrec _ _ _ _ _ Hr Hd3) as (dr & Hdr & Hkr).
  exists dr. split; [assumption|].
  rewrite Hkr, Hk3. eapply keys_set_present; eassumption.
Qed.

Lemma for_values_keys fuel self a v d dv :
  PyDict.get d v = Some dv ->
  forall vals s r s',
    nth_error (objs s) a = Some d ->
    for_values (try_value rec fuel self a v) vals s = (Ret (Some r), s') ->
    exists dr, nth_error (objs s') r = Some dr /\ PyDict.keys dr = PyDict.keys d.
Proof.
  intros Hv. induction vals as [|val vals IH]; intros s r s' Hd H; [discriminate|].
  simpl in H. apply bind_ret_inv in H. destruct H as (found & s1 & Hbody & H).
  destruct found as [r0|].
  - injection H as -> ->. eapply try_value_keys; eauto.
  - apply (IH s1 r s'); [|assumption].
    pose proof (try_value_keeps rec Hkeeps fuel self a v val s) as [K _].
    rewrite Hbody in K. simpl in K. rewrite K; [assumption|].
    apply nth_error_Some. congruence.
Qed.
End Keys.

(** The dictionary a search returns has the keys of the one it started
    from, in the same order. *)
Lemma backtrack_keys self : forall fuel a s r s' d,
  backtrack fuel self a s = (Ret (Some r), s') ->
  nth_error (objs s) a = Some d ->
  exists dr, nth_error (objs s') r = Some dr /\ PyDict.keys dr = PyDict.keys d.
Proof.
  induction fuel as [|fuel IH]; intros a s r s' d H Hd; [discriminate|].
  simpl in H. apply bind_ret_inv in H. destruct H as (d0 & s1 & Hd0 & H).
  rewrite (deref_run _ _ _ Hd) in Hd0. injection Hd0 as <- <-.
  destruct (complete d) eqn:Hc.
  - injection H as <- <-. eauto.
  - apply bind_ret_inv in H. destruct H as ([] & s2 & Hincr & H).
    injection Hincr as <-.
    match type of H with bind _ _ ?st = _ => set (s2 := st) in * end.
    assert (Hd2 : nth_error (objs s2) a = Some d) by exact Hd.
    apply bind_ret_inv in H. destruct H as (sel & s3 & Hsel & H).
    rewrite (select_unassigned_variable_run _ _ _ Hd2) in Hsel.
    injection Hsel as <- <-.
    destruct (fst (fold_left select_step d (None, None))) as [v|]; [|discriminate].
    apply bind_ret_inv in H. destruct H as (dv & s4 & Hdv & H).
    rewrite (getitem_run _ _ _ _ Hd2) in Hdv.
    destruct (PyDict.get d v) as [dv'|] eqn:Hv; [|discriminate].
    injection Hdv as <- <-.
    apply bind_ret_inv in H. destruct H as (found & s5 & Hloop & H).
    destruct found as [r0|].
    + injection H as -> ->.
      eapply (for_values_keys (backtrack fuel self) (backtrack_keeps self fuel) IH
                fuel self a v d dv' Hv); [exact Hd2|exact Hloop].
    + apply bind_ret_inv in H. destruct H as (u & s6 & _ & H). discriminate.
Qed.

Section Solvable.
Variables (self : CSP) (sigma : var -> value).
Hypothesis Hsat : forall i j t, table self i j = Some t -> In (sigma i, sigma j) t.

(** The value of a solution passes the test of [revise]. *)
Lemma solution_supported d xi xj di :
  single_chars d = true -> within sigma d ->
  PyDict.get d xi = Some di ->
  is_some (PyDict.get d xj) = true -> is_some (table self xi xj) = true ->
  supported self d xi xj (sigma xi) = true.
Proof.
  intros Hsc Hin Hi Hj Ht.
  destruct (PyDict.get d xj) as [dj|] eqn:Hdj; [|discriminate].
  destruct (table self xi xj) as [t|] eqn:Htab; [|discriminate].
  apply supported_has_support.
  - exact (single_chars_spec _ Hsc _ _ _ Hi (Hin _ _ Hi)).
  - exists dj, t, (sigma xj). repeat split; auto.
Qed.

Lemma within_rebind d xi l f :
  PyDict.get d xi = Some (PyList l) -> within sigma d ->
  f (sigma xi) = true ->
  within sigma (PyDict.set d xi (PyList (filter f l))).
Proof.
  intros Hi Hin Hf k dk Hk. destruct (String.eqb_spec xi k) as [<-|N].
  - rewrite get_set_same in Hk. injection Hk as <-. simpl.
    apply filter_In. split; [|assumption]. exact (Hin _ _ Hi).
  - rewrite get_set_other in Hk by assumption. eauto.
Qed.

(** A pass of [inference] never removes the value of a solution, so it
    does not return false. *)
Lemma inference_keeps_solution a : forall fuel q s b s' d,
  nth_error (objs s) a = Some d ->
  single_chars d = true -> within sigma d ->
  inference fuel self a q s = (Ret b, s') ->
  b = true /\
  exists d', nth_error (objs s') a = Some d' /\ single_chars d' = true /\
             within sigma d'.
Proof.
  induction fuel as [|fuel IH]; intros q s b s' d Hd Hsc Hin Hrun; [discriminate|].
  destruct q as [|[xi xj] q].
  - injection Hrun as <- <-. split; [reflexivity|].
    exists d. repeat split; auto.
  - apply inference_cons in Hrun.
    destruct Hrun as [(e & [=] & _)|(d0 & di & Hd0 & Hdi & Hcase)].
    rewrite Hd in Hd0. injection Hd0 as <-.
    destruct Hcase as [[_ Hrun]|(l & ci & x & -> & Hx & Hfx & Hci & Hj & Ht & Hcase)].
    + eapply IH; eassumption.
    + cbv zeta in Hcase.
      pose proof (solution_supported d xi xj _ Hsc Hin Hdi Hj Ht) as Hs.
      assert (Hl' : In (sigma xi) (filter (supported self d xi xj) l)).
      { apply filter_In. split; [exact (Hin _ _ Hdi)|assumption]. }
      destruct Hcase as [(El' & _)|(_ & Hrun)].
      { rewrite El' in Hl'. contradiction. }
      eapply IH in Hrun; [exact Hrun| | |].
      * simpl. eapply nth_error_update_same; eassumption.
      * now apply single_chars_rebind.
      * now apply within_rebind.
Qed.

Lemma within_set_str d v dv :
  PyDict.get d v = Some dv -> single_chars d = true -> within sigma d ->
  within sigma (PyDict.set d v (PyStr (sigma v))).
Proof.
  intros Hv Hsc Hin k dk Hk. destruct (String.eqb_spec v k) as [<-|N].
  - rewrite get_set_same in Hk. injection Hk as <-. simpl.
    rewrite (single_chars_spec _ Hsc _ _ _ Hv (Hin _ _ Hv)). now left.
  - rewrite get_set_other in Hk by assumption. eauto.
Qed.

Variables (rec : loc -> M (option loc)).
Hypothesis Hkeeps : forall a s, keeps (length (objs s)) s (snd (rec a s)).
Hypothesis Hkeys : forall a s r s' d,
  rec a s = (Ret (Some r), s') -> nth_error (objs s) a = Some d ->
  exists dr, nth_error (objs s') r = Some dr /\ PyDict.keys dr = PyDict.keys d.
Hypothesis Hrec : forall a s d,
  nth_error (objs s) a = Some d -> single_chars d = true -> within sigma d ->
  fst (rec a s) <> Ret None.

(** The branch of the value of the solution does not fall through. *)
Lemma try_value_solvable fuel a v s d dv :
  nth_error (objs s) a = Some d ->
  single_chars d = true -> within sigma d ->
  PyDict.get d v = Some dv ->
  fst (try_value rec fuel self a v (sigma v) s) <> Ret None.
Proof.
  intros Hd Hsc Hin Hv. unfold try_value.
  apply bind_avoids. intros na s1 Hcopy.
  rewrite (deepcopy_run _ _ _ Hd) in Hcopy. injection Hcopy as <- <-.
  assert (Hd1 : nth_error (objs (with_objs s (objs s ++ [d]))) (length (objs s))
                = Some d) by apply nth_error_appended.
  apply bind_avoids. intros [] s2 Hset.
  rewrite (setitem_run _ _ _ _ _ Hd1) in Hset. injection Hset as <-.
  set (d2 := PyDict.set d v (PyStr (sigma v))).
  match goal with |- context [bind _ _ ?st] => set (s2 := st) end.
  assert (Hd2 : nth_error (objs s2) (length (objs s)) = Some d2).
  { unfold s2. simpl. eapply nth_error_update_same. apply nth_error_appended. }
  apply bind_avoids. intros ok s3 Hinf.
  destruct (inference_keys _ _ _ _ _ _ _ _ Hinf Hd2) as (d3' & Hd3' & Hk3).
  destruct (inference_keeps_solution _ _ _ _ _ _ _ Hd2
              (single_chars_set_str _ _ _ _ Hv Hsc)
              (within_set_str _ _ _ Hv Hsc Hin) Hinf)
    as (-> & d3 & Hd3 & Hsc3 & Hin3).
  rewrite Hd3 in Hd3'. injection Hd3' as <-.
  unfold bind at 1.
  match goal with |- context [bind (rec ?x) ?k ?st] =>
    destruct (bind (rec x) k st) as [[found| |] s4] eqn:Hfound end;
    [|discriminate..].
  destruct found as [r|]; [discriminate|]. exfalso.
  apply bind_ret_inv in Hfound. destruct Hfound as (result & s5 & Hr & Hfound).
  apply bind_ret_inv in Hfound. destruct Hfound as (t & s6 & Ht & Hfound).
  injection Hfound as Hres _.
  destruct result as [r|].
  2:{ apply (Hrec _ _ _ Hd3 Hsc3 Hin3). now rewrite Hr. }
  destruct (Hkeys _ _ _ _ _ Hr Hd3) as (dr & Hdr & Hkr).
  simpl in Ht. unfold bind in Ht. rewrite (deref_run _ _ _ Hdr) in Ht.
  injection Ht as <- _.
  assert (Hne : dr <> []).
  { intros ->. rewrite Hk3 in Hkr. unfold d2 in Hkr.
    rewrite (keys_set_present _ _ _ _ Hv) in Hkr.
    apply get_In in Hv. destruct d; [contradiction|discriminate]. }
  destruct dr; [congruence|discriminate].
Qed.

Lemma for_values_solvable fuel a v d dv :
  single_chars d = true -> within sigma d -> PyDict.get d v = Some dv ->
  forall vals s,
    In (sigma v) vals -> nth_error (objs s) a = Some d ->
    fst (for_values (try_value rec fuel self a v) vals s) <> Ret None.
Proof.
  intros Hsc Hin Hv. induction vals as [|val vals IH]; intros s Hs Hd;
    [contradiction|].
  simpl. unfold bind.
  destruct (try_value rec fuel self a v val s) as [[found| |] s1] eqn:Hbody;
    [|discriminate..].
  destruct found as [r|]; [discriminate|].
  destruct (String.eqb_spec val (sigma v)) as [->|N].
  - exfalso. apply (try_value_solvable fuel a v s d dv Hd Hsc Hin Hv).
    now rewrite Hbody.
  - apply IH; [destruct Hs; [contradiction|assumption]|].
    pose proof (try_value_keeps rec Hkeeps fuel self a v val s) as [K _].
    rewrite Hbody in K. simpl in K. rewrite K; [assumption|].
    apply nth_error_Some. congruence.
Qed.
End Solvable.

Lemma backtrack_solvable self sigma :
  (forall i j t, table self i j = Some t -> In (sigma i, sigma j) t) ->
  forall fuel a s d,
    nth_error (objs s) a = Some d -> single_chars d = true -> within sigma d ->
    fst (backtrack fuel self a s) <> Ret None.
Proof.
  intros Hsat. induction fuel as [|fuel IH]; intros a s d Hd Hsc Hin;
    [discriminate|].
  simpl. apply bind_avoids. intros d0 s1 Hd0.
  rewrite (deref_run _ _ _ Hd) in Hd0. injection Hd0 as <- <-.
  destruct (complete d); [discriminate|].
  apply bind_avoids. intros [] s2 Hincr. injection Hincr as <-.
  match goal with |- context [bind _ _ ?st] => set (s2 := st) end.
  assert (Hd2 : nth_error (objs s2) a = Some d) by exact Hd.
  apply bind_avoids. intros sel s3 Hsel.
  rewrite (select_unassigned_variable_run _ _ _ Hd2) in Hsel.
  injection Hsel as <- <-.
  destruct (fst (fold_left select_step d (None, None))) as [v|]; [|discriminate].
  apply bind_avoids. intros dv s4 Hdv.
  rewrite (getitem_run _ _ _ _ Hd2) in Hdv.
  destruct (PyDict.get d v) as [dv'|] eqn:Hv; [|discriminate].
  injection Hdv as <- <-.
  unfold bind.
  destruct (for_values (try_value (backtrack fuel self) fuel self a v)
              (elems dv') s2) as [[found| |] s5] eqn:Hloop; [|discriminate..].
  destruct found as [r|]; [discriminate|]. exfalso.
  apply (for_values_solvable self sigma Hsat (backtrack fuel self)
           (backtrack_keeps self fuel) (backtrack_keys self fuel) IH
           fuel a v d dv' Hsc Hin Hv (elems dv') s2 (Hin _ _ Hv) Hd2).
  now rewrite Hloop.
Qed.

Lemma solves_spec self sigma : solves self sigma = true -> is_solution self sigma.
Proof.
  unfold solves. rewrite andb_true_iff, !forallb_forall. intros [H1 H2]. split.
  - intros k l Hk. apply get_In in Hk. specialize (H1 _ Hk). simpl in H1.
    apply existsb_exists in H1. destruct H1 as (x & Hx & E).
    apply String.eqb_eq in E. now subst.
  - intros i j t. unfold table.
    destruct (PyDict.get (constraints self) i) as [ci|] eqn:Hi; [|discriminate].
    intros Hj. apply get_In in Hi, Hj. specialize (H2 _ Hi). simpl in H2.
    rewrite forallb_forall in H2. specialize (H2 _ Hj). simpl in H2.
    now apply pair_mem_In.
Qed.

Lemma within_domains_copy self sigma :
  (forall k l, PyDict.get (domains self) k = Some l -> In (sigma k) l) ->
  within sigma (domains_copy self).
Proof.
  unfold within, domains_copy. intros H k dk.
  generalize (H k). clear H.
  induction (domains self) as [|[k0 l0] ds IH]; simpl; [discriminate|].
  destruct (String.eqb k k0) eqn:E.
  - intros H [= <-]. simpl. now apply H.
  - intros H. now apply IH.
Qed.

(** X4.  If the problem has a solution and its values are one-character
    strings, [backtracking_search] does not return [False]: it returns a
    dictionary, raises, or is still running when the fuel ends. *)
Theorem backtracking_search_no_false_negative self sigma fuel s :
  single_chars (domains_copy self) = true ->
  is_solution self sigma ->
  fst (backtracking_search fuel self s) <> Ret None.
Proof.
  intros Hsc [Hdom Hsat]. unfold backtracking_search.
  apply bind_avoids. intros a s0 Hnew. injection Hnew as <- <-.
  pose proof (nth_error_new (domains_copy self) s) as Hd.
  apply bind_avoids. intros b s1 Hinf.
  destruct (inference_keeps_solution self sigma Hsat _ _ _ _ _ _ _ Hd Hsc
              (within_domains_copy _ _ Hdom) Hinf) as (_ & d1 & Hd1 & Hsc1 & Hin1).
  eapply backtrack_solvable; eassumption.
Qed.

Lemma backtracking_search_sound_witness :
  two_way csp_abc = true /\ single_chars (domains_copy csp_abc) = true /\
  fst (backtracking_search 50 csp_abc init_store) = Ret (Some 1) /\
  exists dr,
    nth_error (objs (snd (backtracking_search 50 csp_abc init_store))) 1
      = Some dr /\
    shrinks dr (domains_copy csp_abc) /\
    (forall k dk, In (k, dk) dr -> len dk <= 1) /\
    ((forall k dk, PyDict.get dr k = Some dk -> elems dk <> []) ->
     forall i j t di dj v w,
       table csp_abc i j = Some t ->
       PyDict.get dr i = Some di -> PyDict.get dr j = Some dj ->
       In v (elems di) -> In w (elems dj) -> In (v, w) t).
Proof.
  split; [reflexivity|]. split; [reflexivity|]. split; [vm_compute; reflexivity|].
  apply (backtracking_search_sound csp_abc 50 init_store 1
           (snd (backtracking_search 50 csp_abc init_store)));
    [reflexivity|reflexivity|vm_compute; reflexivity].
Defined.

Lemma backtracking_search_no_false_negative_witness :
  single_chars (domains_copy csp_abc) = true /\
  is_solution csp_abc
    (fun k => if String.eqb k "A" then "3" else if String.eqb k "B" then "1"
              else "2") /\
  fst (backtracking_search 50 csp_abc init_store) <> Ret None.
Proof.
  split; [reflexivity|].
  assert (H : is_solution csp_abc
                (fun k => if String.eqb k "A" then "3"
                          else if String.eqb k "B" then "1" else "2"))
    by (apply solves_spec; vm_compute; reflexivity).
  split; [exact H|].
  exact (backtracking_search_no_false_negative csp_abc _ 50 init_store eq_refl H).
Defined.

(** ** The outcome of [revise] in closed form *)

Lemma revise_loop_str self a xi xj d s :
  nth_error (objs s) a = Some d ->
  is_some (PyDict.get d xj) = true -> is_some (table self xi xj) = true ->
  forall xs revised s0,
    revise_loop self a xi xj xs revised (PyStr s0) s =
      if forallb (supported self d xi xj) xs then (Ret (revised, PyStr s0), s)
      else (Raise (AttributeError "remove"), s).
Proof.
  intros Hd Hj Ht. induction xs as [|x xs IH]; intros revised s0; [reflexivity|].
  simpl revise_loop. unfold bind at 1. rewrite (getitem_run _ _ _ _ Hd).
  assert (Hsup := eq_refl (supported self d xi xj x)).
  unfold supported at 1 in Hsup.
  destruct (PyDict.get d xj) as [dj|]; [|discriminate].
  unfold bind at 1. rewrite constraint_table_run.
  destruct (table self xi xj) as [t|]; [|discriminate].
  simpl forallb. rewrite <- Hsup.
  destruct (length _ =? 0)%nat; simpl negb; cbv iota.
  - reflexivity.
  - simpl. apply IH.
Qed.

Lemma revise_loop_lookup self a xi xj d s x xs revised cp :
  nth_error (objs s) a = Some d ->
  is_some (PyDict.get d xj) && is_some (table self xi xj) = false ->
  revise_loop self a xi xj (x :: xs) revised cp s =
    (Raise (match PyDict.get d xj with
            | None => KeyError xj
            | Some _ =>
                match PyDict.get (constraints self) xi with
                | None => KeyError xi
                | Some _ => KeyError xj
                end
            end), s).
Proof.
  intros Hd H. simpl revise_loop. unfold bind at 1.
  rewrite (getitem_run _ _ _ _ Hd).
  destruct (PyDict.get d xj) as [dj|]; [|reflexivity].
  unfold bind at 1. rewrite constraint_table_run.
  destruct (table self xi xj) as [t|]; [discriminate|reflexivity].
Qed.

Lemma revise_str self a xi xj d s s0 :
  nth_error (objs s) a = Some d -> PyDict.get d xi = Some (PyStr s0) ->
  is_some (PyDict.get d xj) = true -> is_some (table self xi xj) = true ->
  revise self a xi xj s =
    if forallb (supported self d xi xj) (chars s0) then (Ret false, s)
    else (Raise (AttributeError "remove"), s).
Proof.
  intros Hd Hdi Hj Ht. unfold revise, bind at 1.
  rewrite (getitem_run _ _ _ _ Hd), Hdi. unfold bind at 1. simpl elems.
  rewrite (revise_loop_str _ _ _ _ _ _ Hd Hj Ht).
  destruct (forallb _ _); [|reflexivity].
  simpl. unfold bind. rewrite (setitem_run _ _ _ _ _ Hd). unfold ret.
  now rewrite (rebind_same _ _ _ _ _ Hd Hdi).
Qed.

Lemma revise_empty self a xi xj d s di :
  nth_error (objs s) a = Some d -> PyDict.get d xi = Some di -> elems di = [] ->
  revise self a xi xj s = (Ret false, s).
Proof.
  intros Hd Hdi He. unfold revise, bind at 1.
  rewrite (getitem_run _ _ _ _ Hd), Hdi. rewrite He. simpl revise_loop.
  unfold bind at 1, ret at 1. simpl. unfold bind.
  rewrite (setitem_run _ _ _ _ _ Hd). unfold ret.
  now rewrite (rebind_same _ _ _ _ _ Hd Hdi).
Qed.

Lemma revise_lookup self a xi xj d s di x xs :
  nth_error (objs s) a = Some d -> PyDict.get d xi = Some di ->
  elems di = x :: xs ->
  is_some (PyDict.get d xj) && is_some (table self xi xj) = false ->
  revise self a xi xj s =
    (Raise (match PyDict.get d xj with
            | None => KeyError xj
            | Some _ =>
                match PyDict.get (constraints self) xi with
                | None => KeyError xi
                | Some _ => KeyError xj
                end
            end), s).
Proof.
  intros Hd Hdi He H. unfold revise, bind at 1.
  rewrite (getitem_run _ _ _ _ Hd), Hdi. rewrite He. unfold bind at 1.
  now rewrite (revise_loop_lookup _ _ _ _ _ _ _ _ _ _ Hd H).
Qed.

(** X5.  What [revise] does, read in the dictionary [d] it is called on.  A
    missing [xi] is a [KeyError]; on an empty domain nothing is looked up
    and nothing changes; otherwise [xj] and the table of [(xi, xj)] are
    looked up, each a [KeyError] if missing; if every value passes the
    test the call returns false and changes nothing; if not, a list
    domain is rebound to its passing values and the call returns true,
    and a domain that is a bare [str] raises [AttributeError] on
    [cp.remove].  No other exception is raised. *)
Theorem revise_outcome self a xi xj s d :
  nth_error (objs s) a = Some d ->
  revise self a xi xj s =
    match PyDict.get d xi with
    | None => (Raise (KeyError xi), s)
    | Some di =>
        match elems di with
        | [] => (Ret false, s)
        | _ :: _ =>
            match PyDict.get d xj with
            | None => (Raise (KeyError xj), s)
            | Some _ =>
                match PyDict.get (constraints self) xi with
                | None => (Raise (KeyError xi), s)
                | Some ci =>
                    match PyDict.get ci xj with
                    | None => (Raise (KeyError xj), s)
                    | Some _ =>
                        if forallb (supported self d xi xj) (elems di)
                        then (Ret false, s)
                        else
                          match di with
                          | PyList l =>
                              (Ret true,
                               with_objs s
                                 (update (objs s) a
                                    (PyDict.set d xi
                                       (PyList (filter (supported self d xi xj) l)))))
                          | PyStr _ => (Raise (AttributeError "remove"), s)
                          end
                    end
                end
            end
        end
    end.
Proof.
  intros Hd. destruct (PyDict.get d xi) as [di|] eqn:Hdi.
  2:{ unfold revise, bind at 1. now rewrite (getitem_run _ _ _ _ Hd), Hdi. }
  destruct (elems di) as [|x xs] eqn:He.
  { eapply revise_empty; eassumption. }
  destruct (is_some (PyDict.get d xj) && is_some (table self xi xj)) eqn:Hlk.
  - apply andb_true_iff in Hlk. destruct Hlk as [Hj Ht].
    destruct (PyDict.get d xj) as [dj|] eqn:Hdj; [|discriminate].
    pose proof Ht as Ht'. unfold table in Ht'.
    destruct (PyDict.get (constraints self) xi) as [ci|]; [|discriminate].
    destruct (PyDict.get ci xj) as [t|]; [|discriminate].
    assert (Hj' : is_some (PyDict.get d xj) = true) by now rewrite Hdj.
    destruct di as [l|s0].
    + rewrite (revise_list _ _ _ _ _ _ _ Hd Hdi Hj' Ht). simpl in He. rewrite <- He.
      simpl elems.
      destruct (forallb (supported self d xi xj) l) eqn:Hall; [|reflexivity].
      simpl. rewrite filter_all by assumption.
      now rewrite (rebind_same _ _ _ _ _ Hd Hdi).
    + rewrite (revise_str _ _ _ _ _ _ _ Hd Hdi Hj' Ht). rewrite <- He.
      reflexivity.
  - rewrite (revise_lookup _ _ _ _ _ _ _ _ _ Hd Hdi He Hlk).
    destruct (PyDict.get d xj) as [dj|]; [|reflexivity].
    simpl in Hlk. unfold table in Hlk.
    destruct (PyDict.get (constraints self) xi) as [ci|]; [|reflexivity].
    destruct (PyDict.get ci xj); [discriminate|reflexivity].
Qed.

Lemma revise_outcome_witness :
  nth_error (objs (root_store csp_ab)) 0 = Some (domains_copy csp_ab) /\
  revise csp_ab 0 "A" "B" (root_store csp_ab) =
    (Ret true,
     with_objs (root_store csp_ab)
       [[("A", PyList ["2"]); ("B", PyList ["1"])]]).
Proof.
  split; [reflexivity|].
  exact (eq_trans
           (revise_outcome csp_ab 0 "A" "B" (root_store csp_ab)
              (domains_copy csp_ab) eq_refl)
           eq_refl).
Defined.

(** ** The exceptions of the search *)

Lemma bind_raise_inv {A B} (m : M A) (k : A -> M B) s e s' :
  bind m k s = (Raise e, s') ->
  m s = (Raise e, s') \/ exists x s1, m s = (Ret x, s1) /\ k x s1 = (Raise e, s').
Proof.
  unfold bind. destruct (m s) as [[x|e0|] s1]; intros H.
  - right. exists x, s1. split; [reflexivity|exact H].
  - left. now injection H as -> ->.
  - discriminate.
Qed.

Lemma is_some_get_keys {V W} (d : list (string * V)) (d' : list (string * W)) k :
  PyDict.keys d' = PyDict.keys d ->
  is_some (PyDict.get d' k) = is_some (PyDict.get d k).
Proof.
  revert d'. induction d as [|[k0 v0] d IH]; intros [|[k1 v1] d']; simpl;
    try discriminate; [reflexivity|].
  intros [= -> Hk]. destruct (String.eqb k k0); [reflexivity|now apply IH].
Qed.

Lemma registered_keys self d d' :
  PyDict.keys d' = PyDict.keys d -> registered self d -> registered self d'.
Proof.
  intros Hk H i j t Ht. rewrite !(is_some_get_keys _ _ _ Hk). eauto.
Qed.

Lemma In_is_some_get {V} (d : list (string * V)) k v :
  In (k, v) d -> is_some (PyDict.get d k) = true.
Proof.
  induction d as [|[k0 v0] d IH]; simpl; [contradiction|].
  intros [[= -> ->]|Hin].
  - now rewrite String.eqb_refl.
  - destruct (String.eqb k k0); [reflexivity|auto].
Qed.

(** The variable selected is a key with more than one value left, and
    none is selected exactly when the dictionary is complete. *)
Lemma select_cases d :
  (fst (fold_left select_step d (None, None)) = None /\ complete d = true) \/
  exists k d1 dk d2,
    fst (fold_left select_step d (None, None)) = Some k /\
    d = d1 ++ (k, dk) :: d2 /\ 1 < len dk.
Proof.
  destruct (select_fold_spec d None None)
    as [[-> Hnone]|(d1 & [k dk] & d2 & -> & -> & H1 & _)]; simpl.
  - left. split; [reflexivity|]. apply complete_spec. intros k v Hin.
    destruct (Nat.le_gt_cases (len v) 1) as [|Hgt]; [assumption|].
    exfalso. apply (Hnone (k, v) Hin Hgt). exact I.
  - right. exists k, d1, dk, d2. auto.
Qed.

(** On a model stored two-way, a pass of [inference] over arcs of the
    model raises nothing but the [AttributeError] of [cp.remove] on a
    [str]. *)
Lemma inference_raises self a :
  two_way self = true ->
  forall fuel q s d e s',
    nth_error (objs s) a = Some d -> registered self d ->
    (forall i j, In (i, j) q -> is_some (table self i j) = true) ->
    inference fuel self a q s = (Raise e, s') ->
    e = AttributeError "remove".
Proof.
  intros Htwo. induction fuel as [|fuel IH]; intros q s d e s' Hd Hreg Hq Hrun;
    [discriminate|].
  destruct q as [|[xi xj] q]; [discriminate|].
  pose proof (Hq xi xj (or_introl eq_refl)) as Ht.
  destruct (table self xi xj) as [t|] eqn:Htab; [|discriminate].
  destruct (Hreg _ _ _ Htab) as [Hi Hj].
  pose proof Htab as Hci. unfold table in Hci.
  destruct (PyDict.get (constraints self) xi) as [ci|] eqn:Hcons; [|discriminate].
  destruct (PyDict.get d xi) as [[l|s0]|] eqn:Hdi; [| |discriminate].
  - rewrite (inference_cons_list self fuel a xi xj q d s l ci Hd Hdi Hj) in Hrun;
      [| now rewrite Htab | assumption].
    cbv zeta in Hrun.
    destruct (forallb (supported self d xi xj) l).
    + eapply IH; [exact Hd|assumption| |exact Hrun].
      intros i j Hin. apply Hq. now right.
    + destruct (filter (supported self d xi xj) l) as [|y l'] eqn:Hl';
        [discriminate|].
      eapply IH; [| | |exact Hrun].
      * simpl. eapply nth_error_update_same; eassumption.
      * now apply registered_rebind.
      * intros i j Hin. apply in_app_or in Hin. destruct Hin as [Hin|Hin].
        -- apply Hq. now right.
        -- eapply requeue_tables; eassumption.
  - simpl in Hrun. unfold bind at 1 in Hrun.
    rewrite (revise_str self a xi xj d s s0 Hd Hdi Hj) in Hrun
      by (now rewrite Htab).
    destruct (forallb (supported self d xi xj) (chars s0)).
    + eapply IH; [exact Hd|assumption| |exact Hrun].
      intros i j Hin. apply Hq. now right.
    + now injection Hrun as <- _.
Qed.

Section Raises.
Variable self : CSP.
Hypothesis Htwo : two_way self = true.
Variables (rec : loc -> M (option loc)).
Hypothesis Hkeeps : forall a s, keeps (length (objs s)) s (snd (rec a s)).
Hypothesis Hkeys : forall a s r s' d,
  rec a s = (Ret (Some r), s') -> nth_error (objs s) a = Some d ->
  exists dr, nth_error (objs s') r = Some dr /\ PyDict.keys dr = PyDict.keys d.
Hypothesis Hrec : forall a s d e s',
  rec a s = (Raise e, s') -> nth_error (objs s) a = Some d ->
  registered self d -> e = AttributeError "remove".

Lemma try_value_raises fuel a v val s d dv e s' :
  try_value rec fuel self a v val s = (Raise e, s') ->
  nth_error (objs s) a = Some d -> registered self d ->
  PyDict.get d v = Some dv ->
  e = AttributeError "remove".
Proof.
  unfold try_value. intros H Hd Hreg Hv.
  apply bind_raise_inv in H. destruct H as [H|(na & s1 & Hcopy & H)].
  { rewrite (deepcopy_run _ _ _ Hd) in H. discriminate. }
  rewrite (deepcopy_run _ _ _ Hd) in Hcopy. injection Hcopy as <- <-.
  assert (Hd1 : nth_error (objs (with_objs s (objs s ++ [d]))) (length (objs s))
                = Some d) by apply nth_error_appended.
  apply bind_raise_inv in H. destruct H as [H|([] & s2 & Hset & H)].
  { rewrite (setitem_run _ _ _ _ _ Hd1) in H. discriminate. }
  rewrite (setitem_run _ _ _ _ _ Hd1) in Hset. injection Hset as <-.
  set (d2 := PyDict.set d v (PyStr val)) in *.
  match type of H with bind _ _ ?st = _ => set (s2 := st) in * end.
  assert (Hd2 : nth_error (objs s2) (length (objs s)) = Some d2).
  { unfold s2. simpl. eapply nth_error_update_same. apply nth_error_appended. }
  assert (Hreg2 : registered self d2) by now apply registered_rebind.
  apply bind_raise_inv in H. destruct H as [H|(ok & s3 & Hinf & H)].
  { eapply (inference_raises self _ Htwo); [exact Hd2|exact Hreg2| |exact H].
    intros i j. now apply all_arcs_table. }
  destruct (inference_keys _ _ _ _ _ _ _ _ Hinf Hd2) as (d3 & Hd3 & Hk3).
  assert (Hreg3 : registered self d3) by (eapply registered_keys; eassumption).
  apply bind_raise_inv in H. destruct H as [H|(found & s4 & Hfound & H)].
  { destruct ok; [|discriminate].
    apply bind_raise_inv in H. destruct H as [H|(result & s5 & Hr & H)].
    - eapply Hrec; eassumption.
    - apply bind_raise_inv in H. destruct H as [H|(t & s6 & _ & H)];
        [|discriminate].
      destruct result as [r|]; [|discriminate].
      destruct (Hkeys _ _ _ _ _ Hr Hd3) as (dr & Hdr & _).
      simpl in H. unfold bind in H. rewrite (deref_run _ _ _ Hdr) in H.
      discriminate. }
  destruct found as [r|]; [discriminate|].
  assert (Hd4 : nth_error (objs s4) (length (objs s)) = Some d3).
  { destruct ok.
    - apply bind_ret_inv in Hfound. destruct Hfound as (result & s5 & Hr & Hfound).
      apply bind_ret_inv in Hfound. destruct Hfound as (t & s6 & Ht & Hfound).
      apply truthy_ret in Ht. subst s6. injection Hfound as _ <-.
      pose proof (Hkeeps (length (objs s)) s3) as [K _].
      rewrite Hr in K. simpl in K. rewrite K; [assumption|].
      apply nth_error_Some. congruence.
    - injection Hfound as <-. exact Hd3. }
  apply bind_raise_inv in H. destruct H as [H|(na' & s5 & Hna & H)].
  { rewrite (deref_run _ _ _ Hd4) in H. discriminate. }
  rewrite (deref_run _ _ _ Hd4) in Hna. injection Hna as <- <-.
  apply bind_raise_inv in H. destruct H as [H|(u & s6 & _ & H)]; [|discriminate].
  destruct (PyDict.mem v d3); [|discriminate].
  unfold delitem, bind in H. rewrite (deref_run _ _ _ Hd4) in H. discriminate.
Qed.

Lemma for_values_raises fuel a v d dv :
  registered self d -> PyDict.get d v = Some dv ->
  forall vals s e s',
    nth_error (objs s) a = Some d ->
    for_values (try_value rec fuel self a v) vals s = (Raise e, s') ->
    e = AttributeError "remove".
Proof.
  intros Hreg Hv. induction vals as [|val vals IH]; intros s e s' Hd H;
    [discriminate|].
  simpl in H. apply bind_raise_inv in H.
  destruct H as [H|(found & s1 & Hbody & H)].
  - eapply try_value_raises; eassumption.
  - destruct found as [r|]; [discriminate|].
    apply (IH s1 e s'); [|assumption].
    pose proof (try_value_keeps rec Hkeeps fuel self a v val s) as [K _].
    rewrite Hbody in K. simpl in K. rewrite K; [assumption|].
    apply nth_error_Some. congruence.
Qed.
End Raises.

Lemma backtrack_raises self :
  two_way self = true ->
  forall fuel a s d e s',
    backtrack fuel self a s = (Raise e, s') ->
    nth_error (objs s) a = Some d -> registered self d ->
    e = AttributeError "remove".
Proof.
  intros Htwo. induction fuel as [|fuel IH]; intros a s d e s' H Hd Hreg;
    [discriminate|].
  simpl in H. apply bind_raise_inv in H. destruct H as [H|(d0 & s1 & Hd0 & H)].
  { rewrite (deref_run _ _ _ Hd) in H. discriminate. }
  rewrite (deref_run _ _ _ Hd) in Hd0. injection Hd0 as <- <-.
  destruct (complete d) eqn:Hc; [discriminate|].
  apply bind_raise_inv in H. destruct H as [H|([] & s2 & Hincr & H)];
    [discriminate|].
  injection Hincr as <-.
  match type of H with bind _ _ ?st = _ => set (s2 := st) in * end.
  assert (Hd2 : nth_error (objs s2) a = Some d) by exact Hd.
  apply bind_raise_inv in H. destruct H as [H|(sel & s3 & Hsel & H)].
  { rewrite (select_unassigned_variable_run _ _ _ Hd2) in H. discriminate. }
  rewrite (select_unassigned_variable_run _ _ _ Hd2) in Hsel.
  injection Hsel as <- <-.
  destruct (select_cases d) as [[_ Hc']|(v & d1 & dk & d2 & Hsel & Hsplit & _)];
    [congruence|].
  rewrite Hsel in H.
  assert (Hv : is_some (PyDict.get d v) = true).
  { apply (In_is_some_get _ _ dk). rewrite Hsplit. apply in_or_app. right. now left. }
  destruct (PyDict.get d v) as [dv|] eqn:Hdv; [|discriminate].
  apply bind_raise_inv in H. destruct H as [H|(dv' & s4 & Hg & H)].
  { rewrite (getitem_run _ _ _ _ Hd2), Hdv in H. discriminate. }
  rewrite (getitem_run _ _ _ _ Hd2), Hdv in Hg. injection Hg as <- <-.
  apply bind_raise_inv in H. destruct H as [H|(found & s5 & Hloop & H)].
  - eapply (for_values_raises self Htwo (backtrack fuel self)
              (backtrack_keeps self fuel) (backtrack_keys self fuel) IH
              fuel a v d dv Hreg Hdv); [exact Hd2|exact H].
  - destruct found as [r|]; [discriminate|].
    apply bind_raise_inv in H. destruct H as [H|(u & s6 & _ & H)]; discriminate.
Qed.

(** X6.  On a model whose tables are stored two-way as mirror images, the only
    exception [backtracking_search] raises is the [AttributeError] of
    [cp.remove] on a domain that [backtrack] has bound to a bare [str]:
    no lookup fails, [select_unassigned_variable] never hands its [-1]
    to [assignment[var]], and [remove] is never called for a value that
    is not in the list. *)
Theorem backtracking_search_raises_only_remove self fuel s e s' :
  two_way self = true ->
  backtracking_search fuel self s = (Raise e, s') ->
  e = AttributeError "remove".
Proof.
  intros Htwo H. unfold backtracking_search in H.
  pose proof (nth_error_new (domains_copy self) s) as Hd.
  pose proof (registered_domains_copy self Htwo) as Hreg.
  apply bind_raise_inv in H. destruct H as [H|(a & s0 & Hnew & H)];
    [discriminate|].
  injection Hnew as <- <-.
  apply bind_raise_inv in H. destruct H as [H|(b & s1 & Hinf & H)].
  - eapply (inference_raises self _ Htwo); [exact Hd|exact Hreg| |exact H].
    intros i j. now apply all_arcs_table.
  - destruct (inference_keys _ _ _ _ _ _ _ _ Hinf Hd) as (d1 & Hd1 & Hk1).
    eapply (backtrack_raises self Htwo); [exact H|exact Hd1|].
    eapply registered_keys; eassumption.
Qed.

Lemma backtracking_search_raises_only_remove_witness :
  two_way csp_clash = true /\
  exists e,
    fst (backtracking_search 50 csp_clash init_store) = Raise e /\
    e = AttributeError "remove".
Proof.
  split; [reflexivity|].
  exists (AttributeError "remove"). split; [vm_compute; reflexivity|].
  apply (backtracking_search_raises_only_remove csp_clash 50 init_store _
           (snd (backtracking_search 50 csp_clash init_store)) eq_refl).
  vm_compute. reflexivity.
Defined.

(** ** The search terminates *)

Lemma bind_fuel {A B} (m : M A) (k : A -> M B) s :
  fst (m s) <> OutOfFuel ->
  (forall x s1, m s = (Ret x, s1) -> fst (k x s1) <> OutOfFuel) ->
  fst (bind m k s) <> OutOfFuel.
Proof.
  intros Hm Hk. unfold bind. destruct (m s) as [[x|e|] s1] eqn:E; simpl in *;
    [now apply Hk|discriminate|contradiction].
Qed.

Lemma deref_fuel a s : fst (deref a s) <> OutOfFuel.
Proof. unfold deref. destruct (nth_error (objs s) a); discriminate. Qed.

Lemma undecided_app d1 d2 : undecided (d1 ++ d2) = undecided d1 + undecided d2.
Proof. unfold undecided. now rewrite filter_app, length_app. Qed.

Lemma shrinks_measures d' d :
  shrinks d' d -> undecided d' <= undecided d /\ total d' <= total d.
Proof.
  unfold shrinks. induction 1 as [|[k' v'] [k v] d' d [_ Hs] _ [IH1 IH2]];
    [split; reflexivity|].
  apply Subseq_length in Hs. simpl in Hs. fold (len v') (len v) in Hs.
  change ((k', v') :: d') with ([(k', v')] ++ d').
  change ((k, v) :: d) with ([(k, v)] ++ d).
  rewrite !undecided_app, !total_app. unfold undecided at 1 3, total at 1 3.
  simpl.
  destruct (Nat.ltb_spec 1 (len v')), (Nat.ltb_spec 1 (len v)); simpl; lia.
Qed.

Lemma NoDup_get {V} (d : list (string * V)) k v :
  NoDup (PyDict.keys d) -> In (k, v) d -> PyDict.get d k = Some v.
Proof.
  induction d as [|[k0 v0] d IH]; simpl; [contradiction|].
  intros Hnd [[= -> ->]|Hin].
  - now rewrite String.eqb_refl.
  - inversion Hnd as [|? ? Hnotin Hnd']; subst.
    destruct (String.eqb_spec k k0) as [->|_]; [|auto].
    exfalso. apply Hnotin. change k0 with (fst (k0, v)). now apply in_map.
Qed.

(** Binding an undecided variable to one character decides it. *)
Lemma set_str_measures d v dv val :
  PyDict.get d v = Some dv -> 1 < len dv -> chars val = [val] ->
  undecided (PyDict.set d v (PyStr val)) < undecided d /\
  total (PyDict.set d v (PyStr val)) <= total d.
Proof.
  intros H Hlen Hc. destruct (get_split _ _ _ H) as (d1 & d2 & -> & Hs).
  rewrite Hs.
  change ((v, PyStr val) :: d2) with ([(v, PyStr val)] ++ d2).
  change ((v, dv) :: d2) with ([(v, dv)] ++ d2).
  rewrite !undecided_app, !total_app. unfold undecided at 2 5, total at 2 5.
  simpl. unfold len at 1 3. simpl elems. rewrite Hc. simpl.
  destruct (Nat.ltb_spec 1 (len dv)); simpl; lia.
Qed.

Section Terminates.
Variables (self : CSP) (fuel : nat).
Variables (rec : loc -> M (option loc)).
Hypothesis Hkeeps : forall a s, keeps (length (objs s)) s (snd (rec a s)).
Hypothesis Hrec : forall a s d,
  nth_error (objs s) a = Some d -> NoDup (PyDict.keys d) ->
  single_chars d = true -> search_bound self d <= fuel ->
  fst (rec a s) <> OutOfFuel.

Lemma try_value_terminates a v val s d dv :
  nth_error (objs s) a = Some d -> NoDup (PyDict.keys d) ->
  single_chars d = true ->
  PyDict.get d v = Some dv -> 1 < len dv -> In val (elems dv) ->
  search_bound self d <= S fuel ->
  fst (try_value rec fuel self a v val s) <> OutOfFuel.
Proof.
  intros Hd Hnd Hsc Hv Hlen Hval Hb. unfold try_value.
  apply bind_fuel; [rewrite (deepcopy_run _ _ _ Hd); discriminate|].
  intros na s1 Hcopy.
  rewrite (deepcopy_run _ _ _ Hd) in Hcopy. injection Hcopy as <- <-.
  assert (Hd1 : nth_error (objs (with_objs s (objs s ++ [d]))) (length (objs s))
                = Some d) by apply nth_error_appended.
  apply bind_fuel; [rewrite (setitem_run _ _ _ _ _ Hd1); discriminate|].
  intros [] s2 Hset.
  rewrite (setitem_run _ _ _ _ _ Hd1) in Hset. injection Hset as <-.
  set (d2 := PyDict.set d v (PyStr val)).
  match goal with |- context [bind _ _ ?st] => set (s2 := st) end.
  assert (Hd2 : nth_error (objs s2) (length (objs s)) = Some d2).
  { unfold s2. simpl. eapply nth_error_update_same. apply nth_error_appended. }
  assert (Hcv : chars val = [val]) by (eapply single_chars_spec; eassumption).
  destruct (set_str_measures d v dv val Hv Hlen Hcv) as [Hu2 Ht2]. fold d2 in Hu2, Ht2.
  pose proof (Nat.mul_le_mono_r _ _ (max_degree self) Ht2) as Hm2.
  unfold search_bound, inference_bound in Hb.
  apply bind_fuel.
  { apply inference_fuel_enough. unfold obj_at.
    rewrite (nth_error_nth _ _ _ Hd2). lia. }
  intros ok s3 Hinf.
  assert (Hd3 : exists d3, nth_error (objs s3) (length (objs s)) = Some d3 /\
                           shrinks d3 d2).
  { destruct (inference_effect _ _ _ _ _ _ _ Hinf) as [->|(d0 & d' & Hd0 & -> & Hsh)].
    - exists d2. split; [assumption|apply shrinks_refl].
    - rewrite Hd2 in Hd0. injection Hd0 as <-. exists d'. split; [|assumption].
      simpl. eapply nth_error_update_same; eassumption. }
  destruct Hd3 as (d3 & Hd3 & Hsh3).
  destruct (shrinks_measures _ _ Hsh3) as [Hu3 Ht3].
  pose proof (Nat.mul_le_mono_r _ _ (max_degree self) Ht3) as Hm3.
  apply bind_fuel.
  { destruct ok; [|discriminate].
    apply bind_fuel.
    - apply (Hrec _ _ d3 Hd3).
      + rewrite (shrinks_keys _ _ Hsh3). unfold d2.
        now rewrite (keys_set_present _ _ _ _ Hv).
      + eapply single_chars_shrinks; [exact Hsh3|].
        eapply single_chars_set_str; eassumption.
      + unfold search_bound, inference_bound. lia.
    - intros result s5 _. apply bind_fuel; [|intros; discriminate].
      destruct result as [r|]; simpl; [|discriminate].
      apply bind_fuel; [apply deref_fuel|intros; discriminate]. }
  intros found s4 _. destruct found as [r|]; [discriminate|].
  apply bind_fuel; [apply deref_fuel|]. intros na' s5 _.
  apply bind_fuel; [|intros; discriminate].
  destruct (PyDict.mem v na'); [|discriminate].
  unfold delitem. apply bind_fuel; [apply deref_fuel|intros; discriminate].
Qed.

Lemma for_values_terminates a v d dv :
  NoDup (PyDict.keys d) ->
  single_chars d = true -> PyDict.get d v = Some dv -> 1 < len dv ->
  search_bound self d <= S fuel ->
  forall vals s,
    (forall val, In val vals -> In val (elems dv)) ->
    nth_error (objs s) a = Some d ->
    fst (for_values (try_value rec fuel self a v) vals s) <> OutOfFuel.
Proof.
  intros Hnd Hsc Hv Hlen Hb. induction vals as [|val vals IH]; intros s Hin Hd;
    [discriminate|].
  simpl. apply bind_fuel.
  - eapply try_value_terminates; eauto. apply Hin. now left.
  - intros found s1 Hbody. destruct found as [r|]; [discriminate|].
    apply IH; [intros x Hx; apply Hin; now right|].
    pose proof (try_value_keeps rec Hkeeps fuel self a v val s) as [K _].
    rewrite Hbody in K. simpl in K. rewrite K; [assumption|].
    apply nth_error_Some. congruence.
Qed.
End Terminates.

Lemma backtrack_terminates self :
  forall fuel a s d,
    nth_error (objs s) a = Some d -> NoDup (PyDict.keys d) ->
    single_chars d = true -> search_bound self d <= fuel ->
    fst (backtrack fuel self a s) <> OutOfFuel.
Proof.
  induction fuel as [|fuel IH]; intros a s d Hd Hnd Hsc Hb.
  { unfold search_bound in Hb. lia. }
  simpl. apply bind_fuel; [apply deref_fuel|]. intros d0 s1 Hd0.
  rewrite (deref_run _ _ _ Hd) in Hd0. injection Hd0 as <- <-.
  destruct (complete d) eqn:Hc; [discriminate|].
  apply bind_fuel; [discriminate|]. intros [] s2 Hincr. injection Hincr as <-.
  match goal with |- context [bind _ _ ?st] => set (s2 := st) end.
  assert (Hd2 : nth_error (objs s2) a = Some d) by exact Hd.
  apply bind_fuel.
  { rewrite (select_unassigned_variable_run _ _ _ Hd2). discriminate. }
  intros sel s3 Hsel.
  rewrite (select_unassigned_variable_run _ _ _ Hd2) in Hsel.
  injection Hsel as <- <-.
  destruct (select_cases d) as [[_ Hc']|(v & d1 & dk & d2 & -> & Hsplit & Hlen)];
    [congruence|].
  assert (Hv : PyDict.get d v = Some dk).
  { apply NoDup_get; [assumption|]. rewrite Hsplit. apply in_or_app. right. now left. }
  apply bind_fuel.
  { rewrite (getitem_run _ _ _ _ Hd2), Hv. discriminate. }
  intros dv s4 Hg. rewrite (getitem_run _ _ _ _ Hd2), Hv in Hg.
  injection Hg as <- <-.
  apply bind_fuel.
  - apply (for_values_terminates self fuel (backtrack fuel self)
             (backtrack_keeps self fuel) IH a v d dk Hnd Hsc Hv Hlen Hb);
      [auto|exact Hd2].
  - intros found s5 _. destruct found as [r|]; [discriminate|].
    apply bind_fuel; [discriminate|intros; discriminate].
Qed.

Lemma keys_domains_copy self :
  PyDict.keys (domains_copy self) = PyDict.keys (domains self).
Proof.
  unfold domains_copy, PyDict.keys. rewrite map_map. reflexivity.
Qed.

(** X7.  With no duplicate key among the registered domains, one-character
    values and fuel of at least [search_bound], the search is never cut
    short: [backtracking_search] returns or raises. *)
Theorem backtracking_search_terminates self fuel s :
  NoDup (PyDict.keys (domains self)) ->
  single_chars (domains_copy self) = true ->
  search_bound self (domains_copy self) <= fuel ->
  fst (backtracking_search fuel self s) <> OutOfFuel.
Proof.
  intros Hnd Hsc Hb. unfold backtracking_search.
  pose proof (nth_error_new (domains_copy self) s) as Hd.
  apply bind_fuel; [discriminate|]. intros a s0 Hnew. injection Hnew as <- <-.
  apply bind_fuel.
  { apply inference_fuel_enough. unfold obj_at.
    rewrite (nth_error_nth _ _ _ Hd).
    unfold search_bound, inference_bound in Hb. lia. }
  intros b s1 Hinf.
  assert (Hd1 : exists d1, nth_error (objs s1) (length (objs s)) = Some d1 /\
                           shrinks d1 (domains_copy self)).
  { destruct (inference_effect _ _ _ _ _ _ _ Hinf) as [->|(d0 & d' & Hd0 & -> & Hsh)].
    - exists (domains_copy self). split; [assumption|apply shrinks_refl].
    - assert (E : Some d0 = Some (domains_copy self))
        by (rewrite <- Hd0; exact Hd).
      injection E as ->. exists d'. split; [|assumption].
      simpl. eapply nth_error_update_same. exact Hd. }
  destruct Hd1 as (d1 & Hd1 & Hsh1).
  destruct (shrinks_measures _ _ Hsh1) as [Hu1 Ht1].
  pose proof (Nat.mul_le_mono_r _ _ (max_degree self) Ht1) as Hm1.
  apply (backtrack_terminates self fuel _ _ d1 Hd1).
  - rewrite (shrinks_keys _ _ Hsh1). now rewrite keys_domains_copy.
  - eapply single_chars_shrinks; eassumption.
  - unfold search_bound, inference_bound in *. lia.
Qed.

Lemma backtracking_search_terminates_witness :
  NoDup (PyDict.keys (domains csp_pigeon)) /\
  single_chars (domains_copy csp_pigeon) = true /\
  search_bound csp_pigeon (domains_copy csp_pigeon) <= 23 /\
  fst (backtracking_search 23 csp_pigeon init_store) <> OutOfFuel.
Proof.
  assert (Hnd : NoDup (PyDict.keys (domains csp_pigeon))).
  { repeat constructor; simpl; intuition discriminate. }
  assert (Hb : search_bound csp_pigeon (domains_copy csp_pigeon) <= 23).
  { vm_compute. repeat constructor. }
  split; [exact Hnd|]. split; [reflexivity|]. split; [exact Hb|].
  exact (backtracking_search_terminates csp_pigeon 23 init_store Hnd eq_refl Hb).
Defined.

(** ** Building a model *)

Lemma keys_set {V} (d : list (string * V)) k v :
  PyDict.keys (PyDict.set d k v) =
    if is_some (PyDict.get d k) then PyDict.keys d else PyDict.keys d ++ [k].
Proof.
  induction d as [|[k0 v0] d IH]; simpl; [reflexivity|].
  destruct (String.eqb_spec k k0) as [->|N]; simpl; [reflexivity|].
  rewrite IH. now destruct (is_some (PyDict.get d k)).
Qed.

Lemma is_some_get_In {V} (d : list (string * V)) k :
  is_some (PyDict.get d k) = true <-> In k (PyDict.keys d).
Proof.
  induction d as [|[k0 v0] d IH]; simpl; [split; [discriminate|contradiction]|].
  destruct (String.eqb_spec k k0) as [->|N]; simpl.
  - split; auto.
  - rewrite IH. split; [auto|]. intros [E|H]; [congruence|assumption].
Qed.

Lemma In_keys_set {V} (d : list (string * V)) k v k' :
  In k' (PyDict.keys (PyDict.set d k v)) <-> k' = k \/ In k' (PyDict.keys d).
Proof.
  rewrite keys_set. destruct (is_some (PyDict.get d k)) eqn:E.
  - apply is_some_get_In in E. split; [auto|]. intros [->|H]; assumption.
  - rewrite in_app_iff. simpl. intuition.
Qed.

Lemma NoDup_keys_set {V} (d : list (string * V)) k v :
  NoDup (PyDict.keys d) -> NoDup (PyDict.keys (PyDict.set d k v)).
Proof.
  intros H. rewrite keys_set. destruct (is_some (PyDict.get d k)) eqn:E;
    [assumption|].
  assert (Hk : ~ In k (PyDict.keys d)).
  { intros Hin. apply is_some_get_In in Hin. congruence. }
  clear E. induction (PyDict.keys d) as [|x l IH]; simpl.
  - constructor; [intros []|constructor].
  - inversion H as [|? ? Hx Hl]; subst. constructor.
    + rewrite in_app_iff. simpl. intros [Hin|[->|[]]]; [now apply Hx|].
      apply Hk. now left.
    + apply IH; [assumption|]. intros Hin. apply Hk. now right.
Qed.

Lemma In_set {V} (d : list (string * V)) k v k' v' :
  In (k', v') (PyDict.set d k v) -> (k' = k /\ v' = v) \/ In (k', v') d.
Proof.
  induction d as [|[k0 v0] d IH]; simpl.
  - intros [[= <- <-]|[]]. auto.
  - destruct (String.eqb_spec k k0) as [->|N]; simpl.
    + intros [[= <- <-]|H]; auto.
    + intros [E|H]; [auto|]. destruct (IH H); auto.
Qed.

Lemma set_set_same {V} (d : list (string * V)) k v v' :
  PyDict.set (PyDict.set d k v) k v' = PyDict.set d k v'.
Proof.
  induction d as [|[k0 v0] d IH]; simpl.
  - now rewrite String.eqb_refl.
  - destruct (String.eqb_spec k k0) as [->|N]; simpl.
    + now rewrite String.eqb_refl.
    + destruct (String.eqb_spec k k0); [contradiction|]. now rewrite IH.
Qed.

Lemma table_add_variable self name domain i j :
  table (add_variable self name domain) i j =
    if String.eqb i name then None else table self i j.
Proof.
  unfold table, add_variable. simpl.
  destruct (String.eqb_spec i name) as [->|N].
  - now rewrite get_set_same.
  - rewrite get_set_other by congruence. reflexivity.
Qed.

(** What a successful [add_constraint_one_way] leaves behind. *)
Lemma add_constraint_one_way_inr self i j f self' :
  add_constraint_one_way self i j f = inr self' ->
  exists ci t,
    PyDict.get (constraints self) i = Some ci /\
    base_table self i j = Some t /\
    self' = mkCSP (variables self) (domains self)
              (PyDict.set (constraints self) i
                 (PyDict.set ci j
                    (filter (fun p => f (fst p) (snd p)) t))).
Proof.
  unfold add_constraint_one_way, base_table, table. intros H.
  destruct (PyDict.get (constraints self) i) as [ci|]; [|discriminate].
  exists ci. destruct (PyDict.get ci j) as [t|].
  - exists t. injection H as <-. auto.
  - destruct (PyDict.get (domains self) i) as [di|]; [|discriminate].
    destruct (PyDict.get (domains self) j) as [dj|]; [|discriminate].
    exists (get_all_possible_pairs di dj). injection H as <-. auto.
Qed.

Lemma table_set_constraint self i j ci t i' j' :
  PyDict.get (constraints self) i = Some ci ->
  table (mkCSP (variables self) (domains self)
           (PyDict.set (constraints self) i (PyDict.set ci j t))) i' j' =
    if String.eqb i' i && String.eqb j' j then Some t else table self i' j'.
Proof.
  intros Hci. unfold table. simpl.
  destruct (String.eqb_spec i' i) as [->|Ni]; simpl.
  - rewrite get_set_same, Hci.
    destruct (String.eqb_spec j' j) as [->|Nj].
    + apply get_set_same.
    + rewrite get_set_other by congruence. reflexivity.
  - rewrite get_set_other by congruence. reflexivity.
Qed.

(** X8.  Every model built with [add_variable] and [add_constraint_one_way]
    from the empty one keeps its three attributes in agreement: no name
    is registered twice, [constraints] has the keys of [domains] in the
    same order, [variables] lists exactly the registered names, no row
    of [constraints] has a key twice, and both ends of every stored
    table are registered. *)
Theorem built_well_formed self : built self -> well_formed self.
Proof.
  induction 1 as [|self name domain Hb (Hnd & Hk & Hv & Hrows & Hreg)
                  |self i j f self' Hb (Hnd & Hk & Hv & Hrows & Hreg) Hadd].
  - unfold well_formed. simpl. split; [constructor|]. split; [reflexivity|].
    split; [intros k; split; intros []|]. split; [intros i ci []|].
    intros i j t. discriminate.
  - unfold well_formed. simpl. split; [now apply NoDup_keys_set|].
    split.
    { rewrite !keys_set, Hk.
      replace (is_some (PyDict.get (constraints self) name))
        with (is_some (PyDict.get (domains self) name)); [reflexivity|].
      destruct (is_some (PyDict.get (domains self) name)) eqn:E.
      - symmetry. apply is_some_get_In. rewrite Hk. now apply is_some_get_In.
      - destruct (is_some (PyDict.get (constraints self) name)) eqn:E';
          [|reflexivity].
        apply is_some_get_In in E'. rewrite Hk in E'.
        apply is_some_get_In in E'. congruence. }
    split.
    { intros k. rewrite in_app_iff, In_keys_set, Hv. simpl. intuition. }
    split.
    { intros i ci Hin. apply In_set in Hin. destruct Hin as [[_ ->]|Hin];
        [constructor|eauto]. }
    intros i j t. rewrite table_add_variable.
    destruct (String.eqb i name); [discriminate|]. intros Ht.
    destruct (Hreg _ _ _ Ht). rewrite !In_keys_set. auto.
  - destruct (add_constraint_one_way_inr _ _ _ _ _ Hadd) as (ci & t & Hci & Hbase & ->).
    unfold well_formed. simpl. split; [assumption|].
    assert (Hi : In i (PyDict.keys (domains self))).
    { rewrite <- Hk. apply is_some_get_In. now rewrite Hci. }
    split.
    { rewrite keys_set, Hci. simpl. assumption. }
    split; [assumption|]. split.
    { intros i' c' Hin. apply In_set in Hin. destruct Hin as [[_ ->]|Hin];
        [|eauto].
      apply NoDup_keys_set. apply (Hrows i). now apply get_In. }
    intros i' j' t'. rewrite (table_set_constraint self i j ci _ i' j' Hci).
    destruct (String.eqb_spec i' i) as [->|Ni]; simpl; [|apply Hreg].
    destruct (String.eqb_spec j' j) as [->|Nj]; [|apply Hreg].
    intros _. split; [assumption|].
    unfold base_table in Hbase. destruct (table self i j) as [t0|] eqn:Ht0.
    + now destruct (Hreg _ _ _ Ht0).
    + destruct (PyDict.get (domains self) i); [|discriminate].
      destruct (PyDict.get (domains self) j) eqn:Hj; [|discriminate].
      apply is_some_get_In. now rewrite Hj.
Qed.

Lemma built_all_different self vs self' :
  built self -> add_all_different_constraint self vs = inr self' -> built self'.
Proof.
  unfold add_all_different_constraint.
  generalize (get_all_possible_pairs vs vs). intros ps. revert self.
  induction ps as [|[i j] ps IH]; intros self Hb H; simpl in H.
  - now injection H as <-.
  - destruct (String.eqb i j); [eauto|].
    destruct (add_constraint_one_way self i j
                (fun x y => negb (String.eqb x y))) as [e|c] eqn:Hadd.
    + clear -H. exfalso. induction ps as [|p ps IH]; simpl in H;
        [discriminate|auto].
    + eapply IH; [|exact H]. eapply built_add_constraint; eassumption.
Qed.

Lemma built_well_formed_witness : well_formed csp_ab.
Proof.
  apply built_well_formed.
  apply (built_all_different
           (add_variable (add_variable CSP_init "A" ["1"; "2"]) "B" ["1"])
           ["A"; "B"]); [|reflexivity].
  repeat constructor.
Defined.

Lemma mem_is_some {V} (d : list (string * V)) k :
  PyDict.mem k d = is_some (PyDict.get d k).
Proof. reflexivity. Qed.

(** X9.  On a model built with the methods of the class,
    [add_constraint_one_way] raises exactly when one of the two names is
    not registered: [KeyError] of [i] if [i] is not, of [j] otherwise.
    When it succeeds it changes neither [variables] nor [domains], the
    table it stores for [(i, j)] holds the pairs accepted by the filter
    among those of the table stored before (all pairs of the two
    domains if there was none), in the same order, and the table of
    every other pair is as it was. *)
Theorem add_constraint_one_way_built self i j f :
  built self ->
  match add_constraint_one_way self i j f with
  | inl e =>
      PyDict.mem i (domains self) && PyDict.mem j (domains self) = false /\
      e = (if PyDict.mem i (domains self) then KeyError j else KeyError i)
  | inr self' =>
      PyDict.mem i (domains self) = true /\ PyDict.mem j (domains self) = true /\
      variables self' = variables self /\ domains self' = domains self /\
      (exists t, base_table self i j = Some t /\
         table self' i j = Some (filter (fun p => f (fst p) (snd p)) t)) /\
      (forall i' j', (i', j') <> (i, j) -> table self' i' j' = table self i' j')
  end.
Proof.
  intros Hb. destruct (built_well_formed _ Hb) as (Hnd & Hk & Hv & Hrows & Hreg).
  rewrite !mem_is_some.
  assert (Hci : is_some (PyDict.get (constraints self) i)
                = is_some (PyDict.get (domains self) i))
    by (now apply is_some_get_keys).
  destruct (add_constraint_one_way self i j f) as [e|self'] eqn:Hadd.
  - unfold add_constraint_one_way in Hadd.
    destruct (PyDict.get (constraints self) i) as [ci|] eqn:Hi.
    2:{ injection Hadd as <-. simpl in Hci. rewrite <- Hci. auto. }
    rewrite <- Hci. simpl.
    destruct (PyDict.get ci j) as [t|] eqn:Hj; [discriminate|].
    destruct (PyDict.get (domains self) i) as [di|] eqn:Hdi;
      [|simpl in Hci; discriminate].
    destruct (PyDict.get (domains self) j) as [dj|]; [discriminate|].
    injection Hadd as <-. auto.
  - destruct (add_constraint_one_way_inr _ _ _ _ _ Hadd)
      as (ci & t & Hi & Hbase & ->).
    rewrite <- Hci, Hi. simpl. split; [reflexivity|]. split.
    { unfold base_table in Hbase. destruct (table self i j) as [t0|] eqn:Ht0.
      - apply is_some_get_In. now destruct (Hreg _ _ _ Ht0).
      - destruct (PyDict.get (domains self) i); [|discriminate].
        now destruct (PyDict.get (domains self) j). }
    split; [reflexivity|]. split; [reflexivity|]. split.
    + exists t. split; [assumption|].
      rewrite (table_set_constraint self i j ci _ i j Hi).
      now rewrite !String.eqb_refl.
    + intros i' j' N. rewrite (table_set_constraint self i j ci _ i' j' Hi).
      destruct (String.eqb_spec i' i) as [->|]; [|reflexivity].
      destruct (String.eqb_spec j' j) as [->|]; [|reflexivity].
      congruence.
Qed.

Lemma add_constraint_one_way_built_witness :
  match add_constraint_one_way
          (add_variable (add_variable CSP_init "A" ["1"; "2"]) "B" ["1"])
          "A" "C" ne with
  | inl e => e = KeyError "C"
  | inr _ => False
  end.
Proof.
  pose proof (add_constraint_one_way_built
                (add_variable (add_variable CSP_init "A" ["1"; "2"]) "B" ["1"])
                "A" "C" ne
                (built_add_variable _ _ _ (built_add_variable _ _ _ built_init)))
    as H.
  destruct (add_constraint_one_way
              (add_variable (add_variable CSP_init "A" ["1"; "2"]) "B" ["1"])
              "A" "C" ne) as [e|c] eqn:E.
  - exact (proj2 H).
  - destruct H as (_ & Hj & _). discriminate Hj.
Defined.

(** X10.  Two constraints added on the same pair are stored as their
    conjunction: the second call filters the table the first one left. *)
Theorem add_constraint_one_way_twice self i j f g self1 :
  add_constraint_one_way self i j f = inr self1 ->
  add_constraint_one_way self1 i j g =
    add_constraint_one_way self i j (fun x y => f x y && g x y).
Proof.
  intros H. unfold add_constraint_one_way in *.
  destruct (PyDict.get (constraints self) i) as [ci|] eqn:Hi; [|discriminate].
  assert (Hfilter : forall t : list value_pair,
            filter (fun p => g (fst p) (snd p)) (filter (fun p => f (fst p) (snd p)) t)
            = filter (fun p => f (fst p) (snd p) && g (fst p) (snd p)) t).
  { induction t as [|p t IH]; simpl; [reflexivity|].
    destruct (f (fst p) (snd p)); simpl; [|assumption].
    destruct (g (fst p) (snd p)); now rewrite IH. }
  destruct (PyDict.get ci j) as [t|] eqn:Hj.
  - injection H as <-. simpl. rewrite !get_set_same.
    now rewrite !set_set_same, Hfilter.
  - destruct (PyDict.get (domains self) i) as [di|]; [|discriminate].
    destruct (PyDict.get (domains self) j) as [dj|]; [|discriminate].
    injection H as <-. simpl. rewrite !get_set_same.
    now rewrite !set_set_same, Hfilter.
Qed.

Lemma add_constraint_one_way_twice_witness :
  add_constraint_one_way
    (force (add_constraint_one_way
              (add_variable (add_variable CSP_init "A" ["1"; "2"]) "B" ["1"; "2"])
              "A" "B" ne))
    "A" "B" String.eqb =
  add_constraint_one_way
    (add_variable (add_variable CSP_init "A" ["1"; "2"]) "B" ["1"; "2"])
    "A" "B" (fun x y => ne x y && String.eqb x y).
Proof.
  exact (add_constraint_one_way_twice
           (add_variable (add_variable CSP_init "A" ["1"; "2"]) "B" ["1"; "2"])
           "A" "B" ne String.eqb _ eq_refl).
Defined.

Lemma add_constraint_one_way_ok self i j f ci t :
  PyDict.get (constraints self) i = Some ci ->
  base_table self i j = Some t ->
  add_constraint_one_way self i j f =
    inr (mkCSP (variables self) (domains self)
           (PyDict.set (constraints self) i
              (PyDict.set ci j (filter (fun p => f (fst p) (snd p)) t)))).
Proof.
  intros Hci. unfold base_table, table, add_constraint_one_way. rewrite Hci.
  destruct (PyDict.get ci j) as [t0|]; [now intros [= ->]|].
  destruct (PyDict.get (domains self) i) as [di|]; [|discriminate].
  destruct (PyDict.get (domains self) j) as [dj|]; [|discriminate].
  now intros [= <-].
Qed.

Lemma filter_idem {A} (f : A -> bool) l : filter f (filter f l) = filter f l.
Proof.
  induction l as [|x l IH]; simpl; [reflexivity|].
  destruct (f x) eqn:E; simpl; [rewrite E|]; now rewrite ?IH.
Qed.

Lemma arc_dec (p q : var * var) : {p = q} + {p <> q}.
Proof. decide equality; apply string_dec. Qed.

Section AllDifferent.
Variable self : CSP.

Local Abbreviation differ :=
  (fun p : value_pair => negb (String.eqb (fst p) (snd p))).

Local Abbreviation step :=
  (fun (acc : exn + CSP) (ij : var * var) =>
     match acc with
     | inl e => inl e
     | inr csp =>
         if String.eqb (fst ij) (snd ij) then inr csp
         else add_constraint_one_way csp (fst ij) (snd ij)
                (fun x y => negb (String.eqb x y))
     end).

(** The state of the loop after the pairs [P]. *)
Local Abbreviation loop_state csp P :=
  (variables csp = variables self /\ domains csp = domains self /\
   PyDict.keys (constraints csp) = PyDict.keys (constraints self) /\
   (forall i j, In (i, j) P -> i <> j ->
      exists t, base_table self i j = Some t /\
                table csp i j = Some (filter differ t)) /\
   (forall i j, ~ (In (i, j) P /\ i <> j) -> table csp i j = table self i j)).

Lemma all_different_loop : forall ps csp P,
  (forall i j, In (i, j) ps ->
     is_some (PyDict.get (constraints self) i) = true /\
     is_some (PyDict.get (domains self) i) = true /\
     is_some (PyDict.get (domains self) j) = true) ->
  loop_state csp P ->
  exists csp', fold_left step ps (inr csp) = inr csp' /\ loop_state csp' (P ++ ps).
Proof.
  induction ps as [|[i j] ps IH]; intros csp P Hps Hst.
  - exists csp. rewrite app_nil_r. auto.
  - simpl fold_left.
    assert (Hps' : forall i0 j0, In (i0, j0) ps ->
              is_some (PyDict.get (constraints self) i0) = true /\
              is_some (PyDict.get (domains self) i0) = true /\
              is_some (PyDict.get (domains self) j0) = true)
      by (intros i0 j0 Hin; apply Hps; now right).
    replace (P ++ (i, j) :: ps) with ((P ++ [(i, j)]) ++ ps)
      by (now rewrite <- app_assoc).
    destruct Hst as (Hvars & Hdoms & Hkeys & Hin & Hout).
    destruct (String.eqb_spec i j) as [->|N].
    + apply IH; [assumption|]. repeat split; try assumption.
      * intros i0 j0 H0 N0. apply Hin; [|assumption].
        apply in_app_or in H0. destruct H0 as [H0|[[= <- <-]|[]]];
          [assumption|congruence].
      * intros i0 j0 H0. apply Hout. intros [H1 H2]. apply H0.
        split; [|assumption]. apply in_or_app. now left.
    + destruct (Hps i j (or_introl eq_refl)) as (Hci & Hdi & Hdj).
      rewrite <- (is_some_get_keys _ _ i Hkeys) in Hci.
      destruct (PyDict.get (constraints csp) i) as [ci|] eqn:Hgi; [|discriminate].
      assert (Hbase : exists t, base_table self i j = Some t /\
                base_table csp i j = Some (filter differ t) \/
                base_table self i j = Some t /\ base_table csp i j = Some t).
      { destruct (in_dec arc_dec (i, j) P) as [HP|HP].
        - destruct (Hin i j HP N) as (t & Hb & Ht). exists t. left.
          split; [assumption|]. unfold base_table. now rewrite Ht.
        - assert (Ht : table csp i j = table self i j)
            by (apply Hout; tauto).
          assert (Hb : base_table csp i j = base_table self i j)
            by (unfold base_table; now rewrite Ht, Hdoms).
          rewrite Hb. unfold base_table.
          destruct (table self i j) as [t|]; [eauto|].
          destruct (PyDict.get (domains self) i); [|discriminate].
          destruct (PyDict.get (domains self) j); [|discriminate]. eauto. }
      destruct Hbase as (t & Hbase).
      assert (Hrun : base_table self i j = Some t /\
                add_constraint_one_way csp i j (fun x y => negb (String.eqb x y))
                = inr (mkCSP (variables csp) (domains csp)
                         (PyDict.set (constraints csp) i
                            (PyDict.set ci j (filter differ t))))).
      { destruct Hbase as [[Hs Hc]|[Hs Hc]]; (split; [assumption|]).
        - rewrite (add_constraint_one_way_ok csp i j _ ci _ Hgi Hc).
          now rewrite filter_idem.
        - now rewrite (add_constraint_one_way_ok csp i j _ ci _ Hgi Hc). }
      destruct Hrun as [Hs Hrun]. simpl fst. simpl snd. rewrite Hrun.
      apply IH; [assumption|]. simpl variables. simpl domains. simpl constraints.
      split; [assumption|]. split; [assumption|]. split.
      { rewrite keys_set, Hgi. simpl. assumption. }
      split.
      * intros i0 j0 H0 N0.
        rewrite (table_set_constraint csp i j ci _ i0 j0 Hgi).
        destruct (String.eqb_spec i0 i) as [->|Ni]; simpl.
        -- destruct (String.eqb_spec j0 j) as [->|Nj]; [eauto|].
           apply Hin; [|assumption].
           apply in_app_or in H0. destruct H0 as [H0|[[= <-]|[]]];
             [assumption|congruence].
        -- apply Hin; [|assumption].
           apply in_app_or in H0. destruct H0 as [H0|[[= <- <-]|[]]];
             [assumption|congruence].
      * intros i0 j0 H0.
        rewrite (table_set_constraint csp i j ci _ i0 j0 Hgi).
        assert (Hne : (i0, j0) <> (i, j)).
        { intros [= -> ->]. apply H0. split; [|assumption].
          apply in_or_app. right. now left. }
        assert (Hc : table csp i0 j0 = table self i0 j0).
        { apply Hout. intros [H1 H2]. apply H0. split; [|assumption].
          apply in_or_app. now left. }
        destruct (String.eqb_spec i0 i) as [->|Ni]; simpl; [|assumption].
        destruct (String.eqb_spec j0 j) as [->|Nj]; [congruence|assumption].
Qed.
End AllDifferent.

(** X11.  If every name of the list is registered, [add_all_different_constraint]
    raises nothing and changes neither [variables] nor [domains].  For
    two different names of the list the table stored afterwards holds
    the pairs of two different values among those of the table stored
    before (all pairs of the two domains if there was none), in the same
    order; the table of every other pair, a name against itself
    included, is as it was. *)
Theorem add_all_different_constraint_spec self vs :
  (forall v, In v vs ->
     PyDict.mem v (constraints self) = true /\
     PyDict.mem v (domains self) = true) ->
  exists self',
    add_all_different_constraint self vs = inr self' /\
    variables self' = variables self /\ domains self' = domains self /\
    (forall i j, In i vs -> In j vs -> i <> j ->
       exists t, base_table self i j = Some t /\
         table self' i j
           = Some (filter (fun p => negb (String.eqb (fst p) (snd p))) t)) /\
    (forall i j, ~ (In i vs /\ In j vs /\ i <> j) ->
       table self' i j = table self i j).
Proof.
  intros Hreg. unfold add_all_different_constraint.
  destruct (all_different_loop self (get_all_possible_pairs vs vs) self [])
    as (self' & Hrun & Hvars & Hdoms & _ & Hin & Hout).
  - intros i j Hij. apply in_product in Hij. destruct Hij as [Hi Hj].
    destruct (Hreg i Hi), (Hreg j Hj). auto.
  - split; [reflexivity|]. split; [reflexivity|]. split; [reflexivity|].
    split; [intros i j []|]. intros i j _. reflexivity.
  - exists self'. split; [exact Hrun|]. split; [assumption|].
    split; [assumption|]. split.
    + intros i j Hi Hj N. apply Hin; [|assumption]. simpl.
      apply in_product. auto.
    + intros i j H. apply Hout. simpl. intros [Hij N].
      apply in_product in Hij. tauto.
Qed.

Lemma add_all_different_constraint_spec_witness :
  exists self',
    add_all_different_constraint
      (add_variable (add_variable CSP_init "A" ["1"; "2"]) "B" ["1"])
      ["A"; "B"] = inr self' /\
    table self' "A" "B" = Some [("2", "1")] /\
    table self' "A" "A" = None.
Proof.
  destruct (add_all_different_constraint_spec
              (add_variable (add_variable CSP_init "A" ["1"; "2"]) "B" ["1"])
              ["A"; "B"])
    as (self' & Hrun & _ & _ & Hin & Hout).
  { intros v [<-|[<-|[]]]; split; reflexivity. }
  exists self'. split; [exact Hrun|]. split.
  - destruct (Hin "A" "B") as (t & Hb & Ht);
      [now left|right; now left|discriminate|].
    injection Hb as <-. exact Ht.
  - rewrite (Hout "A" "A"); [reflexivity|]. intros (_ & _ & N). now apply N.
Defined.

(** ** The arcs of a model *)

Lemma NoDup_arcs_row {V} (i : var) (ci : list (var * V)) :
  NoDup (PyDict.keys ci) -> NoDup (map (fun f => (i, fst f)) ci).
Proof.
  unfold PyDict.keys. induction ci as [|[j t] ci IH]; simpl; intros H;
    [constructor|].
  inversion H as [|? ? Hj Hci]; subst. constructor; [|auto].
  intros Hin. apply in_map_iff in Hin. destruct Hin as ([j' t'] & [= <-] & Hin).
  apply Hj. change j' with (fst (j', t')). now apply in_map.
Qed.

(** X12.  On a model built with the methods of the class, [get_all_arcs] lists
    each pair that has a stored table once, and nothing else. *)
Theorem get_all_arcs_built self :
  built self ->
  NoDup (get_all_arcs self) /\
  forall i j, In (i, j) (get_all_arcs self) <-> exists t, table self i j = Some t.
Proof.
  intros Hb. destruct (built_well_formed _ Hb) as (Hnd & Hk & _ & Hrows & _).
  rewrite <- Hk in Hnd. split.
  - unfold get_all_arcs. clear Hk Hb. revert Hnd Hrows.
    generalize (constraints self). intros cs0.
    induction cs0 as [|[i ci] cs IH]; simpl; intros Hnd Hrows; [constructor|].
    inversion Hnd as [|? ? Hi Hcs]; subst. apply NoDup_app.
    + apply NoDup_arcs_row. apply (Hrows i). now left.
    + apply IH; [assumption|]. intros i0 c0 Hin. apply (Hrows i0). now right.
    + intros [i0 j0] Hin Hin'. apply in_map_iff in Hin.
      destruct Hin as (f & [= <- <-] & _).
      apply in_flat_map in Hin'. destruct Hin' as ([i1 c1] & Hin1 & Hin').
      apply in_map_iff in Hin'. destruct Hin' as (f' & [= -> _] & _).
      simpl in Hi. apply Hi. change i with (fst (i, c1)). now apply in_map.
  - intros i j. split; [|intros [t Ht]; eapply table_in_all_arcs; eassumption].
    intros Hin. unfold get_all_arcs in Hin. apply in_flat_map in Hin.
    destruct Hin as ([i0 ci] & Hi & Hin). apply in_map_iff in Hin.
    destruct Hin as ([j0 t] & [= <- <-] & Hj). simpl.
    exists t. unfold table. rewrite (NoDup_get _ _ _ Hnd Hi).
    apply NoDup_get; [|assumption]. eapply Hrows; eassumption.
Qed.

Lemma get_all_arcs_built_witness :
  NoDup (get_all_arcs csp_ab) /\
  forall i j, In (i, j) (get_all_arcs csp_ab) <-> exists t, table csp_ab i j = Some t.
Proof.
  apply get_all_arcs_built.
  apply (built_all_different
           (add_variable (add_variable CSP_init "A" ["1"; "2"]) "B" ["1"])
           ["A"; "B"]); [|reflexivity].
  repeat constructor.
Defined.

(** X13.  On a model built with the methods of the class,
    [get_all_neighboring_arcs] raises [KeyError] exactly for a name that
    is not registered; for a registered name it lists [(i, var)] for
    each [i] that has a table stored under [(var, i)], once. *)
Theorem get_all_neighboring_arcs_built self v :
  built self ->
  match get_all_neighboring_arcs self v with
  | None => PyDict.mem v (domains self) = false
  | Some l =>
      PyDict.mem v (domains self) = true /\ NoDup l /\
      forall i j, In (i, j) l <-> j = v /\ exists t, table self v i = Some t
  end.
Proof.
  intros Hb. destruct (built_well_formed _ Hb) as (Hnd & Hk & _ & Hrows & _).
  rewrite mem_is_some, <- (is_some_get_keys _ _ v Hk).
  unfold get_all_neighboring_arcs, table.
  destruct (PyDict.get (constraints self) v) as [c|] eqn:Hc; [|reflexivity].
  pose proof (Hrows v c (get_In _ _ _ Hc)) as Hrow.
  split; [reflexivity|]. split.
  - clear Hc. unfold PyDict.keys in Hrow.
    induction c as [|[j t] c IH]; simpl; [constructor|].
    inversion Hrow as [|? ? Hj Hrest]; subst. constructor; [|auto].
    intros Hin. apply in_map_iff in Hin. destruct Hin as ([j' t'] & [= <-] & Hin).
    apply Hj. change j' with (fst (j', t')). now apply in_map.
  - intros i j. rewrite in_map_iff. split.
    + intros ([i0 t] & [= <- <-] & Hin). split; [reflexivity|].
      exists t. now apply NoDup_get.
    + intros [-> [t Ht]]. exists (i, t). split; [reflexivity|].
      now apply get_In.
Qed.

Lemma get_all_neighboring_arcs_built_witness :
  get_all_neighboring_arcs csp_ab "C" = None /\
  PyDict.mem "C" (domains csp_ab) = false.
Proof.
  split; [reflexivity|].
  exact (get_all_neighboring_arcs_built csp_ab "C"
           (built_all_different
              (add_variable (add_variable CSP_init "A" ["1"; "2"]) "B" ["1"])
              ["A"; "B"] csp_ab
              (built_add_variable _ _ _ (built_add_variable _ _ _ built_init))
              eq_refl)).
Defined.

(** ** The pairs of [get_all_possible_pairs] *)

Lemma length_product {A B} (a : list A) (b : list B) :
  length (get_all_possible_pairs a b) = length a * length b.
Proof.
  unfold get_all_possible_pairs. induction a as [|x a IH]; simpl; [reflexivity|].
  now rewrite length_app, length_map, IH.
Qed.

(** X14.  [get_all_possible_pairs a b] has [len(a) * len(b)] pairs, ordered by
    the first component and then by the second: the pair of the element
    [i] of [a] and the element [j] of [b] is at index [i * len(b) + j]. *)
Theorem get_all_possible_pairs_nth {A B} (a : list A) (b : list B) i j x y :
  nth_error a i = Some x -> nth_error b j = Some y ->
  length (get_all_possible_pairs a b) = length a * length b /\
  nth_error (get_all_possible_pairs a b) (i * length b + j) = Some (x, y).
Proof.
  intros Hx Hy. split; [apply length_product|].
  unfold get_all_possible_pairs. revert i Hx.
  induction a as [|x0 a IH]; intros i Hx; [now destruct i|].
  simpl flat_map. destruct i as [|i]; simpl in Hx.
  - injection Hx as ->. simpl. rewrite nth_error_app1.
    + now rewrite nth_error_map, Hy.
    + rewrite length_map. apply nth_error_Some. congruence.
  - rewrite nth_error_app2; rewrite length_map; [|simpl; lia].
    replace (S i * length b + j - length b) with (i * length b + j)
      by (simpl; lia).
    now apply IH.
Qed.

Lemma get_all_possible_pairs_nth_witness :
  length (get_all_possible_pairs ["1"; "2"; "3"] ["a"; "b"]) = 3 * 2 /\
  nth_error (get_all_possible_pairs ["1"; "2"; "3"] ["a"; "b"]) (2 * 2 + 1)
    = Some ("3", "b").
Proof.
  exact (get_all_possible_pairs_nth ["1"; "2"; "3"] ["a"; "b"] 2 1 "3" "b"
           eq_refl eq_refl).
Defined.

(** ** The Sudoku model and its solutions *)

Lemma existsb_eqb_In (p : string) (g : list string) :
  existsb (String.eqb p) g = true <-> In p g.
Proof.
  rewrite existsb_exists. split.
  - intros (x & Hx & E). apply String.eqb_eq in E. now subst.
  - intros H. exists p. split; [assumption|apply String.eqb_refl].
Qed.

Lemma linked_app gs g p q :
  linked (gs ++ [g]) p q =
    linked gs p q || (existsb (String.eqb p) g && existsb (String.eqb q) g).
Proof. unfold linked. rewrite existsb_app. simpl. now rewrite orb_false_r. Qed.

Lemma fold_all_different_then_inl e gs :
  fold_left all_different_then gs (inl e) = inl e.
Proof. induction gs as [|g gs IH]; simpl; auto. Qed.

Section Groups.
Variable self : CSP.

(** The state of the loops over the lists of names after the lists [G]. *)
Local Abbreviation group_state csp G :=
  (built csp /\ variables csp = variables self /\ domains csp = domains self /\
   PyDict.keys (constraints csp) = PyDict.keys (constraints self) /\
   forall p q,
     table csp p q =
       if linked G p q && negb (String.eqb p q) then different_pairs self p q
       else None).

Lemma all_different_groups : forall gs csp G,
  (forall g v, In g gs -> In v g ->
     is_some (PyDict.get (constraints self) v) = true /\
     is_some (PyDict.get (domains self) v) = true) ->
  group_state csp G ->
  exists csp',
    fold_left all_different_then gs (inr csp) = inr csp' /\
    group_state csp' (G ++ gs).
Proof.
  induction gs as [|g gs IH]; intros csp G Hreg Hst.
  - exists csp. rewrite app_nil_r. auto.
  - destruct Hst as (Hb & Hvars & Hdoms & Hkeys & Htab).
    replace (G ++ g :: gs) with ((G ++ [g]) ++ gs) by (now rewrite <- app_assoc).
    simpl fold_left.
    destruct (add_all_different_constraint_spec csp g)
      as (csp' & Hrun & Hvars' & Hdoms' & Hin & Hout).
    { intros v Hv. destruct (Hreg g v (or_introl eq_refl) Hv) as [Hc Hd].
      rewrite !mem_is_some, Hdoms. split; [|assumption].
      now rewrite (is_some_get_keys _ _ v Hkeys). }
    rewrite Hrun. apply IH; [intros g0 v H0; apply Hreg; now right|].
    split; [eapply built_all_different; eassumption|].
    split; [congruence|]. split; [congruence|]. split.
    { destruct (built_well_formed _ Hb) as (_ & Hk & _).
      destruct (built_well_formed csp' (built_all_different _ _ _ Hb Hrun))
        as (_ & Hk' & _).
      rewrite Hk', Hdoms', <- Hk. assumption. }
    intros p q. rewrite linked_app.
    destruct (existsb (String.eqb p) g) eqn:Hp; simpl.
    2:{ rewrite orb_false_r. rewrite Hout; [apply Htab|].
        intros (Hp' & _). apply existsb_eqb_In in Hp'. congruence. }
    destruct (existsb (String.eqb q) g) eqn:Hq; simpl.
    2:{ rewrite orb_false_r. rewrite Hout; [apply Htab|].
        intros (_ & Hq' & _). apply existsb_eqb_In in Hq'. congruence. }
    rewrite orb_true_r. simpl.
    destruct (String.eqb_spec p q) as [->|N]; simpl.
    { rewrite Hout; [|intros (_ & _ & N); now apply N].
      rewrite Htab, String.eqb_refl. now rewrite andb_false_r. }
    apply existsb_eqb_In in Hp, Hq.
    destruct (Hin p q Hp Hq N) as (t & Hbase & Ht). rewrite Ht.
    destruct (Hreg g p (or_introl eq_refl) Hp) as [_ Hdp].
    destruct (Hreg g q (or_introl eq_refl) Hq) as [_ Hdq].
    unfold base_table in Hbase. rewrite Htab in Hbase. unfold different_pairs in *.
    rewrite Hdoms in Hbase.
    destruct (PyDict.get (domains self) p) as [dp|]; [|discriminate].
    destruct (PyDict.get (domains self) q) as [dq|]; [|discriminate].
    destruct (String.eqb_spec p q) as [|_]; [contradiction|].
    rewrite andb_true_r in Hbase.
    destruct (linked G p q); injection Hbase as <-; [|reflexivity].
    now rewrite filter_idem.
Qed.
End Groups.

Lemma set_fresh {V} (d : list (string * V)) k v :
  ~ In k (PyDict.keys d) -> PyDict.set d k v = d ++ [(k, v)].
Proof.
  induction d as [|[k0 v0] d IH]; simpl; intros H; [reflexivity|].
  destruct (String.eqb_spec k k0) as [->|N]; [exfalso; auto|].
  rewrite IH; [reflexivity|]. intros Hin. apply H. now right.
Qed.

Section Register.
Variable board : list string.

Local Abbreviation name := (fun rc : nat * nat => cell (fst rc) (snd rc)).

Local Abbreviation register :=
  (fun (acc : exn + CSP) (rc : nat * nat) =>
     match acc with
     | inl e => inl e
     | inr c =>
         match board_at board (fst rc) (snd rc) with
         | None => inl IndexError
         | Some ch =>
             if String.eqb ch "0"
             then inr (add_variable c (cell (fst rc) (snd rc)) (map digit (seq 1 9)))
             else inr (add_variable c (cell (fst rc) (snd rc)) [ch])
         end
     end).

Local Abbreviation add_cell :=
  (fun (c : CSP) (rc : nat * nat) => add_variable c (name rc) (cell_domain board rc)).

Lemma register_inl e ps : fold_left register ps (inl e) = inl e.
Proof. induction ps as [|rc ps IH]; simpl; auto. Qed.

Lemma register_cells : forall ps csp,
  fold_left register ps (inr csp) =
    if forallb (fun rc => is_some (board_at board (fst rc) (snd rc))) ps
    then inr (fold_left add_cell ps csp)
    else inl IndexError.
Proof.
  induction ps as [|rc ps IH]; intros csp; [reflexivity|].
  simpl fold_left. simpl forallb. unfold cell_domain, sudoku_domain.
  destruct (board_at board (fst rc) (snd rc)) as [ch|]; simpl.
  - destruct (String.eqb ch "0"); apply IH.
  - apply register_inl.
Qed.

Lemma add_cells_built : forall ps csp,
  built csp -> built (fold_left add_cell ps csp).
Proof.
  induction ps as [|rc ps IH]; intros csp Hb; [assumption|].
  simpl. apply IH. now constructor.
Qed.

Lemma add_cells_fields : forall ps csp,
  NoDup (PyDict.keys (domains csp) ++ map name ps) ->
  PyDict.keys (constraints csp) = PyDict.keys (domains csp) ->
  variables (fold_left add_cell ps csp) = variables csp ++ map name ps /\
  domains (fold_left add_cell ps csp)
    = domains csp ++ map (fun rc => (name rc, cell_domain board rc)) ps /\
  constraints (fold_left add_cell ps csp)
    = constraints csp ++ map (fun rc => (name rc, [])) ps.
Proof.
  induction ps as [|rc ps IH]; intros csp Hnd Hk.
  - simpl. now rewrite !app_nil_r.
  - simpl fold_left.
    assert (Hfresh : ~ In (name rc) (PyDict.keys (domains csp))).
    { intros Hin. apply NoDup_remove_2 in Hnd. apply Hnd.
      apply in_or_app. now left. }
    destruct (IH (add_variable csp (name rc) (cell_domain board rc)))
      as (Hv & Hd & Hc).
    + simpl. rewrite set_fresh by assumption.
      unfold PyDict.keys in *. rewrite map_app. simpl.
      rewrite <- app_assoc. exact Hnd.
    + simpl. rewrite !set_fresh; [|assumption|now rewrite Hk].
      unfold PyDict.keys in *. rewrite !map_app. simpl. now rewrite Hk.
    + rewrite Hv, Hd, Hc. simpl.
      rewrite !set_fresh; [|now rewrite Hk|assumption].
      now rewrite <- !app_assoc.
Qed.
End Register.

Lemma distinct_NoDup l : distinct l = true -> NoDup l.
Proof.
  induction l as [|x l IH]; simpl; [constructor|].
  rewrite andb_true_iff, negb_true_iff. intros [Hx Hl]. constructor; [|auto].
  intros Hin. apply existsb_eqb_In in Hin. congruence.
Qed.

Lemma sudoku_names_NoDup :
  NoDup (map (fun rc => cell (fst rc) (snd rc)) sudoku_cells).
Proof. apply distinct_NoDup. vm_compute. reflexivity. Qed.

Lemma sudoku_cells_In r c : r < 9 -> c < 9 -> In (r, c) sudoku_cells.
Proof.
  intros Hr Hc. apply in_product. split; apply in_seq; lia.
Qed.

Lemma sudoku_groups_registered g v :
  In g sudoku_groups -> In v g ->
  In v (map (fun rc => cell (fst rc) (snd rc)) sudoku_cells).
Proof.
  assert (H : forallb (fun g => forallb (fun v =>
                existsb (String.eqb v)
                  (map (fun rc => cell (fst rc) (snd rc)) sudoku_cells)) g)
              sudoku_groups = true) by (vm_compute; reflexivity).
  rewrite forallb_forall in H. intros Hg Hv. specialize (H g Hg).
  rewrite forallb_forall in H. apply existsb_eqb_In. now apply H.
Qed.

Lemma sudoku_linked_peers r c r' c' :
  r < 9 -> c < 9 -> r' < 9 -> c' < 9 ->
  linked sudoku_groups (cell r c) (cell r' c')
    && negb (String.eqb (cell r c) (cell r' c')) = peers r c r' c'.
Proof.
  assert (H : forallb (fun p => forallb (fun q =>
                Bool.eqb (linked sudoku_groups (cell (fst p) (snd p))
                                               (cell (fst q) (snd q))
                          && negb (String.eqb (cell (fst p) (snd p))
                                              (cell (fst q) (snd q))))
                         (peers (fst p) (snd p) (fst q) (snd q)))
                sudoku_cells) sudoku_cells = true) by (vm_compute; reflexivity).
  rewrite forallb_forall in H. intros Hr Hc Hr' Hc'.
  specialize (H (r, c) (sudoku_cells_In r c Hr Hc)).
  rewrite forallb_forall in H.
  specialize (H (r', c') (sudoku_cells_In r' c' Hr' Hc')).
  now apply Bool.eqb_prop in H.
Qed.

Lemma fold_then_map {X} (g : X -> list var) l acc :
  fold_left (fun a x => all_different_then a (g x)) l acc
    = fold_left all_different_then (map g l) acc.
Proof. revert acc. induction l as [|x l IH]; intros acc; simpl; auto. Qed.

Lemma fold_then_map_inl {X} (g : X -> list var) l e :
  fold_left (fun a x => all_different_then a (g x)) l (inl e) = inl e.
Proof. induction l as [|x l IH]; simpl; auto. Qed.

Lemma create_sudoku_csp_run board :
  create_sudoku_csp board =
    if forallb (fun rc => is_some (board_at board (fst rc) (snd rc))) sudoku_cells
    then fold_left all_different_then sudoku_groups
           (inr (fold_left
                   (fun c rc => add_variable c (cell (fst rc) (snd rc))
                                  (cell_domain board rc))
                   sudoku_cells CSP_init))
    else inl IndexError.
Proof.
  unfold create_sudoku_csp, sudoku_cells, sudoku_groups. cbv zeta.
  rewrite (register_cells board (get_all_possible_pairs (seq 0 9) (seq 0 9)) CSP_init).
  rewrite !fold_left_app.
  rewrite <- !fold_then_map.
  destruct (forallb _ _).
  - reflexivity.
  - rewrite !fold_then_map_inl. reflexivity.
Qed.

Lemma table_no_rows self p q :
  (forall e, In e (constraints self) -> snd e = []) -> table self p q = None.
Proof.
  intros H. unfold table.
  destruct (PyDict.get (constraints self) p) as [cp|] eqn:Hp; [|reflexivity].
  apply get_In in Hp. apply H in Hp. simpl in Hp. now subst.
Qed.

(** The model after the first two loops of [create_sudoku_csp]. *)
Lemma sudoku_registered board :
  let csp0 := fold_left
                (fun c rc => add_variable c (cell (fst rc) (snd rc))
                               (cell_domain board rc))
                sudoku_cells CSP_init in
  built csp0 /\
  variables csp0 = map (fun rc => cell (fst rc) (snd rc)) sudoku_cells /\
  domains csp0
    = map (fun rc => (cell (fst rc) (snd rc), cell_domain board rc)) sudoku_cells /\
  constraints csp0 = map (fun rc => (cell (fst rc) (snd rc), [])) sudoku_cells.
Proof.
  intros csp0. split; [apply add_cells_built; constructor|].
  exact (add_cells_fields board sudoku_cells CSP_init sudoku_names_NoDup
           eq_refl).
Qed.

Lemma board_complete board :
  forallb (fun rc => is_some (board_at board (fst rc) (snd rc))) sudoku_cells
    = true ->
  forall r c, r < 9 -> c < 9 -> exists ch, board_at board r c = Some ch.
Proof.
  intros Hall r c Hr Hc. rewrite forallb_forall in Hall.
  specialize (Hall (r, c) (sudoku_cells_In r c Hr Hc)). cbn [fst snd] in Hall.
  destruct (board_at board r c) as [ch|]; [eauto|discriminate].
Qed.

(** The two outcomes of [create_sudoku_csp]. *)
Lemma sudoku_model_cases board :
  (create_sudoku_csp board = inl IndexError /\
   exists r c, r < 9 /\ c < 9 /\ board_at board r c = None) \/
  exists csp,
    create_sudoku_csp board = inr csp /\
    built csp /\
    variables csp = map (fun rc => cell (fst rc) (snd rc)) sudoku_cells /\
    domains csp
      = map (fun rc => (cell (fst rc) (snd rc), cell_domain board rc))
            sudoku_cells /\
    (forall r c, r < 9 -> c < 9 -> exists ch, board_at board r c = Some ch) /\
    (forall p q,
       table csp p q =
         if linked sudoku_groups p q && negb (String.eqb p q)
         then different_pairs csp p q else None).
Proof.
  rewrite create_sudoku_csp_run.
  destruct (forallb (fun rc => is_some (board_at board (fst rc) (snd rc)))
              sudoku_cells) eqn:Hall.
  2:{ left. split; [reflexivity|].
      destruct (forallb_false_ex _ _ Hall) as ([r c] & Hin & Hf).
      apply in_product in Hin. destruct Hin as [Hr Hc].
      apply in_seq in Hr, Hc. cbn [fst snd] in Hf. exists r, c.
      split; [lia|]. split; [lia|].
      now destruct (board_at board r c). }
  right.
  destruct (sudoku_registered board) as (Hb0 & Hv0 & Hd0 & Hc0).
  set (csp0 := fold_left _ sudoku_cells CSP_init) in *. clearbody csp0.
  assert (Hkeys : forall v,
            In v (map (fun rc => cell (fst rc) (snd rc)) sudoku_cells) ->
            is_some (PyDict.get (constraints csp0) v) = true /\
            is_some (PyDict.get (domains csp0) v) = true).
  { intros v Hv. rewrite !is_some_get_In, Hd0, Hc0. unfold PyDict.keys.
    rewrite !map_map. cbn [fst]. auto. }
  destruct (all_different_groups csp0 sudoku_groups csp0 [])
    as (csp & Hrun & Hb & Hvars & Hdoms & _ & Htab).
  { intros g v Hg Hv. apply Hkeys. eapply sudoku_groups_registered; eassumption. }
  { split; [assumption|]. split; [reflexivity|]. split; [reflexivity|].
    split; [reflexivity|]. intros p q. cbn [linked existsb andb].
    apply table_no_rows.
    intros e He. rewrite Hc0 in He. apply in_map_iff in He.
    now destruct He as (rc & <- & _). }
  exists csp. cbn [app] in Htab. split; [exact Hrun|].
  split; [assumption|]. split; [now rewrite Hvars|].
  split; [now rewrite Hdoms|]. split; [now apply board_complete|].
  intros p q. rewrite Htab. unfold different_pairs. now rewrite Hdoms.
Qed.

Lemma sudoku_domain_get board csp r c ch :
  domains csp
    = map (fun rc => (cell (fst rc) (snd rc), cell_domain board rc)) sudoku_cells ->
  r < 9 -> c < 9 -> board_at board r c = Some ch ->
  PyDict.get (domains csp) (cell r c) = Some (sudoku_domain ch).
Proof.
  intros Hd Hr Hc Hch. apply NoDup_get.
  - rewrite Hd. unfold PyDict.keys. rewrite map_map. cbn [fst].
    apply sudoku_names_NoDup.
  - rewrite Hd. apply in_map_iff. exists (r, c). split.
    + unfold cell_domain. cbn [fst snd]. rewrite Hch. reflexivity.
    + now apply sudoku_cells_In.
Qed.

(** X15.  [create_sudoku_csp] raises [IndexError] exactly when the board lacks
    one of the 81 characters.  Otherwise the model it builds registers
    the 81 cells row by row, each with the domain of its character (the
    nine digits for ['0'], the character itself otherwise), and stores a
    table for a pair of cells exactly when they are two different cells
    of the same row, column or box: the pairs of different values of
    their two domains. *)
Theorem create_sudoku_csp_spec board :
  match create_sudoku_csp board with
  | inl e =>
      e = IndexError /\
      exists r c, r < 9 /\ c < 9 /\ board_at board r c = None
  | inr csp =>
      built csp /\
      variables csp = map (fun rc => cell (fst rc) (snd rc)) sudoku_cells /\
      (forall r c, r < 9 -> c < 9 ->
         exists ch, board_at board r c = Some ch /\
           PyDict.get (domains csp) (cell r c) = Some (sudoku_domain ch)) /\
      (forall r c r' c', r < 9 -> c < 9 -> r' < 9 -> c' < 9 ->
         table csp (cell r c) (cell r' c') =
           if peers r c r' c' then different_pairs csp (cell r c) (cell r' c')
           else None)
  end.
Proof.
  destruct (sudoku_model_cases board)
    as [[-> Hbad]|(csp & -> & Hb & Hv & Hd & Hch & Htab)].
  - split; [reflexivity|assumption].
  - split; [assumption|]. split; [assumption|]. split.
    + intros r c Hr Hc. destruct (Hch r c Hr Hc) as [ch Hc0]. exists ch.
      split; [assumption|]. eapply sudoku_domain_get; eassumption.
    + intros r c r' c' Hr Hc Hr' Hc'. rewrite Htab.
      now rewrite (sudoku_linked_peers r c r' c' Hr Hc Hr' Hc').
Qed.

Lemma two_way_intro self :
  well_formed self ->
  (forall i j t, table self i j = Some t ->
     i <> j /\
     exists t', table self j i = Some t' /\
       (forall v w, In (v, w) t -> In (w, v) t') /\
       (forall v w, In (w, v) t' -> In (v, w) t)) ->
  two_way self = true.
Proof.
  intros (Hnd & Hk & _ & Hrows & Hreg) H. rewrite <- Hk in Hnd.
  unfold two_way. apply forallb_forall. intros [i ci] Hi.
  apply forallb_forall. intros [j t] Hj. cbn [fst snd].
  assert (Ht : table self i j = Some t).
  { unfold table. rewrite (NoDup_get _ _ _ Hnd Hi).
    apply NoDup_get; [eapply Hrows; eassumption|assumption]. }
  destruct (H _ _ _ Ht) as (N & t' & Ht' & H1 & H2).
  destruct (Hreg _ _ _ Ht) as [Ri Rj].
  rewrite !andb_true_iff. repeat split.
  - apply negb_true_iff. now apply String.eqb_neq.
  - unfold mirrored_arc. rewrite Ht, Ht'. apply andb_true_iff.
    split; apply forallb_forall; intros [v w] Hp; cbn [fst snd];
      apply pair_mem_In; auto.
  - rewrite mem_is_some. now apply is_some_get_In.
  - rewrite mem_is_some. now apply is_some_get_In.
Qed.

Lemma linked_sym gs p q : linked gs p q = linked gs q p.
Proof.
  unfold linked. induction gs as [|g gs IH]; simpl; [reflexivity|].
  now rewrite IH, andb_comm.
Qed.

Lemma in_different_pairs self i j t v w :
  different_pairs self i j = Some t ->
  (In (v, w) t <->
   exists di dj, PyDict.get (domains self) i = Some di /\
     PyDict.get (domains self) j = Some dj /\ In v di /\ In w dj /\ v <> w).
Proof.
  unfold different_pairs.
  destruct (PyDict.get (domains self) i) as [di|]; [|discriminate].
  destruct (PyDict.get (domains self) j) as [dj|]; [|discriminate].
  intros [= <-]. rewrite filter_In, in_product. cbn [fst snd].
  rewrite negb_true_iff, String.eqb_neq. split.
  - intros [[Hv Hw] N]. exists di, dj. auto.
  - intros (di' & dj' & [= <-] & [= <-] & Hv & Hw & N). auto.
Qed.

Lemma different_pairs_mirror self i j t :
  different_pairs self i j = Some t ->
  exists t', different_pairs self j i = Some t' /\
    forall v w, In (v, w) t <-> In (w, v) t'.
Proof.
  intros Ht. pose proof Ht as Ht0. unfold different_pairs in Ht0.
  destruct (PyDict.get (domains self) i) as [di|] eqn:Hi; [|discriminate].
  destruct (PyDict.get (domains self) j) as [dj|] eqn:Hj; [|discriminate].
  assert (Ht' : different_pairs self j i
                = Some (filter (fun v => negb (String.eqb (fst v) (snd v)))
                               (get_all_possible_pairs dj di)))
    by (unfold different_pairs; now rewrite Hi, Hj).
  eexists. split; [exact Ht'|]. intros v w.
  rewrite (in_different_pairs _ _ _ _ v w Ht),
          (in_different_pairs _ _ _ _ w v Ht').
  split; intros (d1 & d2 & H1 & H2 & Hv & Hw & N); exists d2, d1; auto 6.
Qed.

Lemma sudoku_two_way board csp :
  create_sudoku_csp board = inr csp -> two_way csp = true.
Proof.
  intros Hrun.
  destruct (sudoku_model_cases board)
    as [[E _]|(csp' & E & Hb & _ & _ & _ & Htab)]; rewrite E in Hrun;
    [discriminate|].
  injection Hrun as <-. apply two_way_intro; [now apply built_well_formed|].
  intros i j t Ht. rewrite Htab in Ht.
  destruct (linked sudoku_groups i j) eqn:Hl; [|discriminate].
  destruct (String.eqb_spec i j) as [|N]; [discriminate|]. cbn in Ht.
  split; [assumption|].
  destruct (different_pairs_mirror _ _ _ _ Ht) as (t' & Ht' & Hm).
  exists t'. split.
  - rewrite Htab, linked_sym, Hl.
    destruct (String.eqb_spec j i) as [|_]; [congruence|]. exact Ht'.
  - split; intros v w; apply Hm.
Qed.

Lemma cell_domain_single board rc v :
  In v (cell_domain board rc) -> String.length v = 1.
Proof.
  unfold cell_domain, board_at.
  destruct (nth_error board (fst rc)) as [line|]; [|contradiction].
  destruct (String.get (snd rc) line) as [ch|]; [|contradiction].
  unfold sudoku_domain. destruct (String.eqb _ "0").
  - intros Hin. apply in_map_iff in Hin. now destruct Hin as (n & <- & _).
  - now intros [<-|[]].
Qed.

Lemma sudoku_single_chars board csp :
  create_sudoku_csp board = inr csp ->
  single_chars (domains_copy csp) = true.
Proof.
  intros Hrun.
  destruct (sudoku_model_cases board)
    as [[E _]|(csp' & E & _ & _ & Hd & _)]; rewrite E in Hrun;
    [discriminate|].
  injection Hrun as <-. unfold single_chars, domains_copy. rewrite Hd.
  apply forallb_forall. intros e He. apply in_map_iff in He.
  destruct He as (e0 & <- & He0). apply in_map_iff in He0.
  destruct He0 as (rc & <- & _). cbn [fst snd elems].
  apply forallb_forall. intros v Hv. apply Nat.eqb_eq.
  eapply cell_domain_single; eassumption.
Qed.

(** What [backtracking_search] returns on a two-way model of
    one-character values. *)
Lemma search_result self fuel s r s' :
  two_way self = true -> single_chars (domains_copy self) = true ->
  backtracking_search fuel self s = (Ret (Some r), s') ->
  exists dr, nth_error (objs s') r = Some dr /\ complete dr = true /\
             search_state self (domains_copy self) dr.
Proof.
  intros Htwo Hsc H. unfold backtracking_search in H.
  apply bind_ret_inv in H. destruct H as (a & s0 & Hnew & H).
  injection Hnew as <- <-.
  apply bind_ret_inv in H. destruct H as (b & s1 & Hinf & H).
  destruct (root_search_state self fuel s b s1 Htwo Hsc Hinf) as (d1 & Hd1 & Hst1).
  exact (backtrack_sound self (domains_copy self) Htwo fuel _ _ _ _ d1 H Hd1 Hst1).
Qed.

(** X16.  For every board, a dictionary that [backtracking_search] returns
    for the model of [create_sudoku_csp] and that has no empty domain is
    a solved grid: every cell holds exactly one value, a fixed cell the
    character of the board and an open one a digit from 1 to 9, and two
    different cells of the same row, column or box hold different
    values. *)
Theorem sudoku_solution_valid board csp fuel s r s' :
  create_sudoku_csp board = inr csp ->
  backtracking_search fuel csp s = (Ret (Some r), s') ->
  exists dr,
    nth_error (objs s') r = Some dr /\
    ((forall k dk, PyDict.get dr k = Some dk -> elems dk <> []) ->
     forall row col, row < 9 -> col < 9 ->
       exists ch v dk,
         board_at board row col = Some ch /\
         PyDict.get dr (cell row col) = Some dk /\ elems dk = [v] /\
         In v (sudoku_domain ch) /\
         forall row' col' dk', row' < 9 -> col' < 9 ->
           peers row col row' col' = true ->
           PyDict.get dr (cell row' col') = Some dk' -> elems dk' <> [v]).
Proof.
  intros Hrun Hsearch.
  pose proof (sudoku_two_way _ _ Hrun) as Htwo.
  pose proof (sudoku_single_chars _ _ Hrun) as Hsc.
  destruct (search_result csp fuel s r s' Htwo Hsc Hsearch)
    as (dr & Hdr & Hc & Hscr & Hsh & Hcase).
  exists dr. split; [assumption|]. intros Hne row col Hrow Hcol.
  destruct (sudoku_model_cases board)
    as [[E _]|(csp' & E & _ & _ & Hd & Hch & Htab)]; rewrite E in Hrun;
    [discriminate|].
  injection Hrun as ->.
  destruct (Hch row col Hrow Hcol) as [ch Hbch]. exists ch.
  pose proof (sudoku_domain_get board csp row col ch Hd Hrow Hcol Hbch) as Hdom.
  assert (Hroot : PyDict.get (domains_copy csp) (cell row col)
                  = Some (PyList (sudoku_domain ch)))
    by (now rewrite get_domains_copy, Hdom).
  assert (Hk : is_some (PyDict.get dr (cell row col)) = true).
  { rewrite (is_some_get_keys _ _ _ (shrinks_keys _ _ Hsh)). now rewrite Hroot. }
  destruct (PyDict.get dr (cell row col)) as [dk|] eqn:Hdk; [|discriminate].
  destruct (shrinks_get _ _ _ _ Hsh Hdk) as (d0 & Hd0 & Hsub & _).
  rewrite Hroot in Hd0. injection Hd0 as <-. cbn [elems] in Hsub.
  rewrite complete_spec in Hc. pose proof (Hc _ _ (get_In _ _ _ Hdk)) as Hlen.
  pose proof (Hne _ _ Hdk) as Hnk. unfold len in Hlen.
  destruct (elems dk) as [|v [|v2 l]] eqn:Hel; [congruence| |simpl in Hlen; lia].
  exists v, dk. split; [assumption|]. split; [reflexivity|].
  split; [assumption|]. split.
  { eapply Subseq_incl; [exact Hsub|]. now left. }
  intros row' col' dk' Hrow' Hcol' Hp Hdk' Hel'.
  destruct Hcase as [Hok|(k & dk0 & Hk0 & He0)]; [|now elim (Hne k dk0 Hk0)].
  pose proof (Htab (cell row col) (cell row' col')) as Ht.
  rewrite (sudoku_linked_peers row col row' col' Hrow Hcol Hrow' Hcol'), Hp in Ht.
  destruct (different_pairs csp (cell row col) (cell row' col')) as [t|] eqn:Hdp.
  2:{ destruct (Hch row' col' Hrow' Hcol') as [ch' Hbch'].
      unfold different_pairs in Hdp.
      rewrite Hdom,
        (sudoku_domain_get board csp row' col' ch' Hd Hrow' Hcol' Hbch') in Hdp.
      discriminate. }
  destruct (Hok _ _ _ Ht) as (di & Hi & Hall). rewrite Hdk in Hi.
  injection Hi as <-.
  assert (Hv : In v (elems dk)) by (rewrite Hel; now left).
  pose proof (single_chars_spec _ Hscr _ _ _ Hdk Hv) as Hcv.
  apply (supported_has_support _ _ _ _ _ Hcv) in Hall; [|assumption].
  destruct Hall as (dj & t0 & w & Hj & Ht0 & Hw & Hpair).
  rewrite Hdk' in Hj. injection Hj as <-. rewrite Ht in Ht0.
  injection Ht0 as <-. rewrite Hel' in Hw. destruct Hw as [<-|[]].
  apply (in_different_pairs _ _ _ _ v v Hdp) in Hpair.
  destruct Hpair as (_ & _ & _ & _ & _ & _ & N). now apply N.
Qed.

Lemma sudoku_solution_valid_witness :
  create_sudoku_csp board_easy = inr csp_sudoku_easy /\
  fst (backtracking_search (200 * 100) csp_sudoku_easy init_store)
    = Ret (Some 0) /\
  exists dr,
    nth_error
      (objs (snd (backtracking_search (200 * 100) csp_sudoku_easy init_store))) 0
      = Some dr /\
    ((forall k dk, PyDict.get dr k = Some dk -> elems dk <> []) ->
     forall row col, row < 9 -> col < 9 ->
       exists ch v dk,
         board_at board_easy row col = Some ch /\
         PyDict.get dr (cell row col) = Some dk /\ elems dk = [v] /\
         In v (sudoku_domain ch) /\
         forall row' col' dk', row' < 9 -> col' < 9 ->
           peers row col row' col' = true ->
           PyDict.get dr (cell row' col') = Some dk' -> elems dk' <> [v]).
Proof.
  assert (Hmodel : create_sudoku_csp board_easy = inr csp_sudoku_easy)
    by (vm_compute; reflexivity).
  split; [exact Hmodel|]. split; [vm_compute; reflexivity|].
  apply (sudoku_solution_valid board_easy csp_sudoku_easy (200 * 100) init_store 0
           (snd (backtracking_search (200 * 100) csp_sudoku_easy init_store))
           Hmodel).
  vm_compute. reflexivity.
Defined.
